(** * Verification of the TUI JXL converter (mkjxl.py)

    A shallow embedding of the conversion pipeline of [mkjxl.py]: the
    output-path resolver, the batch builder, the status aggregator, the
    background worker and the input loop, together with the properties of
    the specification that concern them.

    Modelling conventions.
    - A Python [str] is a [string]; a character stands for the code point
      of the same number (code points above U+00FF are not represented).
    - A [pathlib.Path] is the list of the components of an absolute POSIX
      path; [Path.str] is its textual form.
    - The file system is a finite map from paths to nodes.
    - Methods of [JxlConverterTUI] are computations in the monad [M]: they
      read and write the object ([self]), the file system ([disk]), the
      keys typed into blocking dialogs ([tty]), the clock and the list of
      the child processes run so far ([spawned]), and they end by
      returning, by raising, or by waiting for a key for ever.
    - Display-only attributes ([status_message], [last_conversion_summary],
      the debug log) are not part of the model. *)

From Stdlib Require Import ZArith Lia Ascii.
From stdpp Require Import gmap strings list sorting pretty.

Local Open Scope Z_scope.

(** ** Exceptions *)

Inductive exn :=
  | FileExistsError
  | FileNotFoundError
  | NotADirectoryError
  | IsADirectoryError
  | PermissionError
  | OSError
  | IndexError
  | KeyError
  | ValueError
  | TypeError.

(** [type(e).__name__] *)
Definition exn_name (e : exn) : string :=
  match e with
  | FileExistsError => "FileExistsError"
  | FileNotFoundError => "FileNotFoundError"
  | NotADirectoryError => "NotADirectoryError"
  | IsADirectoryError => "IsADirectoryError"
  | PermissionError => "PermissionError"
  | OSError => "OSError"
  | IndexError => "IndexError"
  | KeyError => "KeyError"
  | ValueError => "ValueError"
  | TypeError => "TypeError"
  end.

#[global] Instance exn_eq_dec : EqDecision exn.
Proof. solve_decision. Defined.

(** A pure computation that may raise. *)
Inductive result (A : Type) :=
  | Ok (a : A)
  | Raise (e : exn).
Arguments Ok {A} a.
Arguments Raise {A} e.

#[global] Instance result_ret : MRet result := λ A a, Ok a.
#[global] Instance result_bind : MBind result := λ A B f m,
  match m with
  | Ok a => f a
  | Raise e => Raise e
  end.

(** ** Strings *)

Abbreviation path := (list string).

Module Path.

(** [str.rfind('.')] *)
Fixpoint rfind_dot (s : string) : option nat :=
  match s with
  | EmptyString => None
  | String c r =>
      match rfind_dot r with
      | Some i => Some (S i)
      | None => if Ascii.eqb c "."%char then Some 0%nat else None
      end
  end.

Definition parent (p : path) : path := removelast p.

Definition name (p : path) : string := List.last p "".

(** The index at which [name] splits into stem and suffix, as in
    [PurePath.suffix]: [i = name.rfind('.')] with [0 < i < len(name) - 1]. *)
Definition split_point (nm : string) : option nat :=
  match rfind_dot nm with
  | Some i =>
      if bool_decide (0 < i)%nat && bool_decide (i < String.length nm - 1)%nat
      then Some i else None
  | None => None
  end.

Definition suffix (p : path) : string :=
  let nm := name p in
  match split_point nm with
  | Some i => String.substring i (String.length nm - i) nm
  | None => ""
  end.

Definition stem (p : path) : string :=
  let nm := name p in
  match split_point nm with
  | Some i => String.substring 0 i nm
  | None => nm
  end.

(** [p.relative_to(base)]; [None] stands for [ValueError]. *)
Fixpoint relative_to (p base : path) : option path :=
  match base, p with
  | [], _ => Some p
  | b :: base', c :: p' => if String.eqb b c then relative_to p' base' else None
  | _ :: _, [] => None
  end.

Fixpoint str_parts (p : path) : string :=
  match p with
  | [] => ""
  | c :: r => "/" +:+ c +:+ str_parts r
  end.

Definition str (p : path) : string :=
  match p with
  | [] => "/"
  | _ => str_parts p
  end.

End Path.

(** ** The file system *)

Inductive node :=
  | File (size : Z)
  | Dir (writable : bool).

Abbreviation fs := (gmap path node).

Module Fs.

Definition exists_ (d : fs) (p : path) : bool := bool_decide (is_Some (d !! p)).

Definition is_dir (d : fs) (p : path) : bool :=
  match d !! p with
  | Some (Dir _) => true
  | _ => false
  end.

Definition is_file (d : fs) (p : path) : bool :=
  match d !! p with
  | Some (File _) => true
  | _ => false
  end.

(** [os.mkdir(p)] *)
Definition os_mkdir (d : fs) (p : path) : result fs :=
  match d !! p with
  | Some _ => Raise FileExistsError
  | None =>
      match d !! Path.parent p with
      | None => Raise FileNotFoundError
      | Some (File _) => Raise NotADirectoryError
      | Some (Dir w) => if w then Ok (<[p := Dir true]> d) else Raise PermissionError
      end
  end.

(** [Path.mkdir(parents=True, exist_ok=True)], by recursion on the
    reversed path: the parent of [rev (c :: rp)] is [rev rp]. *)
Fixpoint mkdir_rev (rp : list string) (d : fs) : result fs :=
  let p := rev rp in
  match os_mkdir d p with
  | Ok d' => Ok d'
  | Raise FileNotFoundError =>
      match rp with
      | [] => Raise FileNotFoundError
      | _ :: rparent =>
          d1 ← mkdir_rev rparent d;
          match os_mkdir d1 p with
          | Ok d2 => Ok d2
          | Raise e => if is_dir d1 p then Ok d1 else Raise e
          end
      end
  | Raise e => if is_dir d p then Ok d else Raise e
  end.

Definition mkdir (d : fs) (p : path) : result fs := mkdir_rev (rev p) d.

(** [st_size]; a directory reports one block. *)
Definition stat_size (d : fs) (p : path) : result Z :=
  match d !! p with
  | Some (File sz) => Ok sz
  | Some (Dir _) => Ok 4096
  | None => Raise FileNotFoundError
  end.

Definition parent_writable (d : fs) (p : path) : bool :=
  match d !! Path.parent p with
  | Some (Dir w) => w
  | _ => false
  end.

(** [Path.unlink(missing_ok)] *)
Definition unlink (missing_ok : bool) (d : fs) (p : path) : result fs :=
  match d !! p with
  | None => if missing_ok then Ok d else Raise FileNotFoundError
  | Some (Dir _) => Raise IsADirectoryError
  | Some (File _) => if parent_writable d p then Ok (delete p d) else Raise PermissionError
  end.

End Fs.

(** ** Data model *)

Inductive Status :=
  | PENDING
  | QUEUED
  | SANITIZING
  | CONVERTING
  | SUCCESS
  | FAILED.

#[global] Instance Status_eq_dec : EqDecision Status.
Proof. solve_decision. Defined.

(** An entry of [self.statuses]: a dictionary with the keys ['status'],
    ['message'], ['info_str'] and, once set, ['target_path'],
    ['size_before'] and ['size_after']. *)
Record StatusRecord := mkRecord {
  r_status : Status;
  r_message : string;
  r_info_str : string;
  r_target_path : option path;
  r_size_before : option Z;
  r_size_after : option Z
}.

(** A conversion task: [{'idx', 'target_path', 'sanitize'}]. *)
Record Task := mkTask {
  t_idx : nat;
  t_target_path : path;
  t_sanitize : bool
}.

(** A message on the status queue: [{'idx', 'status', **kwargs}]. *)
Record Update := mkUpdate {
  u_idx : nat;
  u_status : Status;
  u_message : option string;
  u_size_before : option Z;
  u_size_after : option Z
}.

(** The attributes of [JxlConverterTUI].  [conversion_thread] tells
    whether the worker thread exists and is alive; [thread_joined] records
    that [conversion_thread.join()] was executed. *)
Record JxlConverterTUI := mkTUI {
  initial_dir : path;
  files : list path;
  selected : gset nat;
  statuses : gmap nat StatusRecord;
  failed_indices : gset nat;
  current_row : Z;
  scroll_offset : Z;
  quality : Z;
  effort : Z;
  recursive : bool;
  delete_originals : bool;
  show_only_failed : bool;
  output_dir : option path;
  conversion_queue : list Task;
  status_queue : list Update;
  conversion_thread : bool;
  thread_joined : bool;
  is_converting : bool;
  stop_thread : bool;
  total_bytes_before : Z;
  total_bytes_after : Z;
  conversions_success : Z;
  conversions_failed : Z;
  start_time : Z;
  cjxl_cmd : option string;
  imagemagick_cmd : option string
}.

Definition with_files (v : list path) (s : JxlConverterTUI) : JxlConverterTUI :=
  {| initial_dir := initial_dir s; files := v; selected := selected s; statuses := statuses s;
     failed_indices := failed_indices s; current_row := current_row s;
     scroll_offset := scroll_offset s; quality := quality s; effort := effort s;
     recursive := recursive s; delete_originals := delete_originals s;
     show_only_failed := show_only_failed s; output_dir := output_dir s;
     conversion_queue := conversion_queue s; status_queue := status_queue s;
     conversion_thread := conversion_thread s; thread_joined := thread_joined s;
     is_converting := is_converting s; stop_thread := stop_thread s;
     total_bytes_before := total_bytes_before s; total_bytes_after := total_bytes_after s;
     conversions_success := conversions_success s; conversions_failed := conversions_failed s;
     start_time := start_time s; cjxl_cmd := cjxl_cmd s; imagemagick_cmd := imagemagick_cmd s |}.
Definition with_selected (v : gset nat) (s : JxlConverterTUI) : JxlConverterTUI :=
  {| initial_dir := initial_dir s; files := files s; selected := v; statuses := statuses s;
     failed_indices := failed_indices s; current_row := current_row s;
     scroll_offset := scroll_offset s; quality := quality s; effort := effort s;
     recursive := recursive s; delete_originals := delete_originals s;
     show_only_failed := show_only_failed s; output_dir := output_dir s;
     conversion_queue := conversion_queue s; status_queue := status_queue s;
     conversion_thread := conversion_thread s; thread_joined := thread_joined s;
     is_converting := is_converting s; stop_thread := stop_thread s;
     total_bytes_before := total_bytes_before s; total_bytes_after := total_bytes_after s;
     conversions_success := conversions_success s; conversions_failed := conversions_failed s;
     start_time := start_time s; cjxl_cmd := cjxl_cmd s; imagemagick_cmd := imagemagick_cmd s |}.
Definition with_statuses (v : gmap nat StatusRecord) (s : JxlConverterTUI) : JxlConverterTUI :=
  {| initial_dir := initial_dir s; files := files s; selected := selected s; statuses := v;
     failed_indices := failed_indices s; current_row := current_row s;
     scroll_offset := scroll_offset s; quality := quality s; effort := effort s;
     recursive := recursive s; delete_originals := delete_originals s;
     show_only_failed := show_only_failed s; output_dir := output_dir s;
     conversion_queue := conversion_queue s; status_queue := status_queue s;
     conversion_thread := conversion_thread s; thread_joined := thread_joined s;
     is_converting := is_converting s; stop_thread := stop_thread s;
     total_bytes_before := total_bytes_before s; total_bytes_after := total_bytes_after s;
     conversions_success := conversions_success s; conversions_failed := conversions_failed s;
     start_time := start_time s; cjxl_cmd := cjxl_cmd s; imagemagick_cmd := imagemagick_cmd s |}.
Definition with_failed_indices (v : gset nat) (s : JxlConverterTUI) : JxlConverterTUI :=
  {| initial_dir := initial_dir s; files := files s; selected := selected s; statuses := statuses s;
     failed_indices := v; current_row := current_row s; scroll_offset := scroll_offset s;
     quality := quality s; effort := effort s; recursive := recursive s;
     delete_originals := delete_originals s; show_only_failed := show_only_failed s;
     output_dir := output_dir s; conversion_queue := conversion_queue s;
     status_queue := status_queue s; conversion_thread := conversion_thread s;
     thread_joined := thread_joined s; is_converting := is_converting s;
     stop_thread := stop_thread s; total_bytes_before := total_bytes_before s;
     total_bytes_after := total_bytes_after s; conversions_success := conversions_success s;
     conversions_failed := conversions_failed s; start_time := start_time s; cjxl_cmd := cjxl_cmd s;
     imagemagick_cmd := imagemagick_cmd s |}.
Definition with_current_row (v : Z) (s : JxlConverterTUI) : JxlConverterTUI :=
  {| initial_dir := initial_dir s; files := files s; selected := selected s; statuses := statuses s;
     failed_indices := failed_indices s; current_row := v; scroll_offset := scroll_offset s;
     quality := quality s; effort := effort s; recursive := recursive s;
     delete_originals := delete_originals s; show_only_failed := show_only_failed s;
     output_dir := output_dir s; conversion_queue := conversion_queue s;
     status_queue := status_queue s; conversion_thread := conversion_thread s;
     thread_joined := thread_joined s; is_converting := is_converting s;
     stop_thread := stop_thread s; total_bytes_before := total_bytes_before s;
     total_bytes_after := total_bytes_after s; conversions_success := conversions_success s;
     conversions_failed := conversions_failed s; start_time := start_time s; cjxl_cmd := cjxl_cmd s;
     imagemagick_cmd := imagemagick_cmd s |}.
Definition with_scroll_offset (v : Z) (s : JxlConverterTUI) : JxlConverterTUI :=
  {| initial_dir := initial_dir s; files := files s; selected := selected s; statuses := statuses s;
     failed_indices := failed_indices s; current_row := current_row s; scroll_offset := v;
     quality := quality s; effort := effort s; recursive := recursive s;
     delete_originals := delete_originals s; show_only_failed := show_only_failed s;
     output_dir := output_dir s; conversion_queue := conversion_queue s;
     status_queue := status_queue s; conversion_thread := conversion_thread s;
     thread_joined := thread_joined s; is_converting := is_converting s;
     stop_thread := stop_thread s; total_bytes_before := total_bytes_before s;
     total_bytes_after := total_bytes_after s; conversions_success := conversions_success s;
     conversions_failed := conversions_failed s; start_time := start_time s; cjxl_cmd := cjxl_cmd s;
     imagemagick_cmd := imagemagick_cmd s |}.
Definition with_quality (v : Z) (s : JxlConverterTUI) : JxlConverterTUI :=
  {| initial_dir := initial_dir s; files := files s; selected := selected s; statuses := statuses s;
     failed_indices := failed_indices s; current_row := current_row s;
     scroll_offset := scroll_offset s; quality := v; effort := effort s; recursive := recursive s;
     delete_originals := delete_originals s; show_only_failed := show_only_failed s;
     output_dir := output_dir s; conversion_queue := conversion_queue s;
     status_queue := status_queue s; conversion_thread := conversion_thread s;
     thread_joined := thread_joined s; is_converting := is_converting s;
     stop_thread := stop_thread s; total_bytes_before := total_bytes_before s;
     total_bytes_after := total_bytes_after s; conversions_success := conversions_success s;
     conversions_failed := conversions_failed s; start_time := start_time s; cjxl_cmd := cjxl_cmd s;
     imagemagick_cmd := imagemagick_cmd s |}.
Definition with_effort (v : Z) (s : JxlConverterTUI) : JxlConverterTUI :=
  {| initial_dir := initial_dir s; files := files s; selected := selected s; statuses := statuses s;
     failed_indices := failed_indices s; current_row := current_row s;
     scroll_offset := scroll_offset s; quality := quality s; effort := v; recursive := recursive s;
     delete_originals := delete_originals s; show_only_failed := show_only_failed s;
     output_dir := output_dir s; conversion_queue := conversion_queue s;
     status_queue := status_queue s; conversion_thread := conversion_thread s;
     thread_joined := thread_joined s; is_converting := is_converting s;
     stop_thread := stop_thread s; total_bytes_before := total_bytes_before s;
     total_bytes_after := total_bytes_after s; conversions_success := conversions_success s;
     conversions_failed := conversions_failed s; start_time := start_time s; cjxl_cmd := cjxl_cmd s;
     imagemagick_cmd := imagemagick_cmd s |}.
Definition with_recursive (v : bool) (s : JxlConverterTUI) : JxlConverterTUI :=
  {| initial_dir := initial_dir s; files := files s; selected := selected s; statuses := statuses s;
     failed_indices := failed_indices s; current_row := current_row s;
     scroll_offset := scroll_offset s; quality := quality s; effort := effort s; recursive := v;
     delete_originals := delete_originals s; show_only_failed := show_only_failed s;
     output_dir := output_dir s; conversion_queue := conversion_queue s;
     status_queue := status_queue s; conversion_thread := conversion_thread s;
     thread_joined := thread_joined s; is_converting := is_converting s;
     stop_thread := stop_thread s; total_bytes_before := total_bytes_before s;
     total_bytes_after := total_bytes_after s; conversions_success := conversions_success s;
     conversions_failed := conversions_failed s; start_time := start_time s; cjxl_cmd := cjxl_cmd s;
     imagemagick_cmd := imagemagick_cmd s |}.
Definition with_delete_originals (v : bool) (s : JxlConverterTUI) : JxlConverterTUI :=
  {| initial_dir := initial_dir s; files := files s; selected := selected s; statuses := statuses s;
     failed_indices := failed_indices s; current_row := current_row s;
     scroll_offset := scroll_offset s; quality := quality s; effort := effort s;
     recursive := recursive s; delete_originals := v; show_only_failed := show_only_failed s;
     output_dir := output_dir s; conversion_queue := conversion_queue s;
     status_queue := status_queue s; conversion_thread := conversion_thread s;
     thread_joined := thread_joined s; is_converting := is_converting s;
     stop_thread := stop_thread s; total_bytes_before := total_bytes_before s;
     total_bytes_after := total_bytes_after s; conversions_success := conversions_success s;
     conversions_failed := conversions_failed s; start_time := start_time s; cjxl_cmd := cjxl_cmd s;
     imagemagick_cmd := imagemagick_cmd s |}.
Definition with_show_only_failed (v : bool) (s : JxlConverterTUI) : JxlConverterTUI :=
  {| initial_dir := initial_dir s; files := files s; selected := selected s; statuses := statuses s;
     failed_indices := failed_indices s; current_row := current_row s;
     scroll_offset := scroll_offset s; quality := quality s; effort := effort s;
     recursive := recursive s; delete_originals := delete_originals s; show_only_failed := v;
     output_dir := output_dir s; conversion_queue := conversion_queue s;
     status_queue := status_queue s; conversion_thread := conversion_thread s;
     thread_joined := thread_joined s; is_converting := is_converting s;
     stop_thread := stop_thread s; total_bytes_before := total_bytes_before s;
     total_bytes_after := total_bytes_after s; conversions_success := conversions_success s;
     conversions_failed := conversions_failed s; start_time := start_time s; cjxl_cmd := cjxl_cmd s;
     imagemagick_cmd := imagemagick_cmd s |}.
Definition with_output_dir (v : option path) (s : JxlConverterTUI) : JxlConverterTUI :=
  {| initial_dir := initial_dir s; files := files s; selected := selected s; statuses := statuses s;
     failed_indices := failed_indices s; current_row := current_row s;
     scroll_offset := scroll_offset s; quality := quality s; effort := effort s;
     recursive := recursive s; delete_originals := delete_originals s;
     show_only_failed := show_only_failed s; output_dir := v;
     conversion_queue := conversion_queue s; status_queue := status_queue s;
     conversion_thread := conversion_thread s; thread_joined := thread_joined s;
     is_converting := is_converting s; stop_thread := stop_thread s;
     total_bytes_before := total_bytes_before s; total_bytes_after := total_bytes_after s;
     conversions_success := conversions_success s; conversions_failed := conversions_failed s;
     start_time := start_time s; cjxl_cmd := cjxl_cmd s; imagemagick_cmd := imagemagick_cmd s |}.
Definition with_conversion_queue (v : list Task) (s : JxlConverterTUI) : JxlConverterTUI :=
  {| initial_dir := initial_dir s; files := files s; selected := selected s; statuses := statuses s;
     failed_indices := failed_indices s; current_row := current_row s;
     scroll_offset := scroll_offset s; quality := quality s; effort := effort s;
     recursive := recursive s; delete_originals := delete_originals s;
     show_only_failed := show_only_failed s; output_dir := output_dir s; conversion_queue := v;
     status_queue := status_queue s; conversion_thread := conversion_thread s;
     thread_joined := thread_joined s; is_converting := is_converting s;
     stop_thread := stop_thread s; total_bytes_before := total_bytes_before s;
     total_bytes_after := total_bytes_after s; conversions_success := conversions_success s;
     conversions_failed := conversions_failed s; start_time := start_time s; cjxl_cmd := cjxl_cmd s;
     imagemagick_cmd := imagemagick_cmd s |}.
Definition with_status_queue (v : list Update) (s : JxlConverterTUI) : JxlConverterTUI :=
  {| initial_dir := initial_dir s; files := files s; selected := selected s; statuses := statuses s;
     failed_indices := failed_indices s; current_row := current_row s;
     scroll_offset := scroll_offset s; quality := quality s; effort := effort s;
     recursive := recursive s; delete_originals := delete_originals s;
     show_only_failed := show_only_failed s; output_dir := output_dir s;
     conversion_queue := conversion_queue s; status_queue := v;
     conversion_thread := conversion_thread s; thread_joined := thread_joined s;
     is_converting := is_converting s; stop_thread := stop_thread s;
     total_bytes_before := total_bytes_before s; total_bytes_after := total_bytes_after s;
     conversions_success := conversions_success s; conversions_failed := conversions_failed s;
     start_time := start_time s; cjxl_cmd := cjxl_cmd s; imagemagick_cmd := imagemagick_cmd s |}.
Definition with_conversion_thread (v : bool) (s : JxlConverterTUI) : JxlConverterTUI :=
  {| initial_dir := initial_dir s; files := files s; selected := selected s; statuses := statuses s;
     failed_indices := failed_indices s; current_row := current_row s;
     scroll_offset := scroll_offset s; quality := quality s; effort := effort s;
     recursive := recursive s; delete_originals := delete_originals s;
     show_only_failed := show_only_failed s; output_dir := output_dir s;
     conversion_queue := conversion_queue s; status_queue := status_queue s; conversion_thread := v;
     thread_joined := thread_joined s; is_converting := is_converting s;
     stop_thread := stop_thread s; total_bytes_before := total_bytes_before s;
     total_bytes_after := total_bytes_after s; conversions_success := conversions_success s;
     conversions_failed := conversions_failed s; start_time := start_time s; cjxl_cmd := cjxl_cmd s;
     imagemagick_cmd := imagemagick_cmd s |}.
Definition with_thread_joined (v : bool) (s : JxlConverterTUI) : JxlConverterTUI :=
  {| initial_dir := initial_dir s; files := files s; selected := selected s; statuses := statuses s;
     failed_indices := failed_indices s; current_row := current_row s;
     scroll_offset := scroll_offset s; quality := quality s; effort := effort s;
     recursive := recursive s; delete_originals := delete_originals s;
     show_only_failed := show_only_failed s; output_dir := output_dir s;
     conversion_queue := conversion_queue s; status_queue := status_queue s;
     conversion_thread := conversion_thread s; thread_joined := v; is_converting := is_converting s;
     stop_thread := stop_thread s; total_bytes_before := total_bytes_before s;
     total_bytes_after := total_bytes_after s; conversions_success := conversions_success s;
     conversions_failed := conversions_failed s; start_time := start_time s; cjxl_cmd := cjxl_cmd s;
     imagemagick_cmd := imagemagick_cmd s |}.
Definition with_is_converting (v : bool) (s : JxlConverterTUI) : JxlConverterTUI :=
  {| initial_dir := initial_dir s; files := files s; selected := selected s; statuses := statuses s;
     failed_indices := failed_indices s; current_row := current_row s;
     scroll_offset := scroll_offset s; quality := quality s; effort := effort s;
     recursive := recursive s; delete_originals := delete_originals s;
     show_only_failed := show_only_failed s; output_dir := output_dir s;
     conversion_queue := conversion_queue s; status_queue := status_queue s;
     conversion_thread := conversion_thread s; thread_joined := thread_joined s; is_converting := v;
     stop_thread := stop_thread s; total_bytes_before := total_bytes_before s;
     total_bytes_after := total_bytes_after s; conversions_success := conversions_success s;
     conversions_failed := conversions_failed s; start_time := start_time s; cjxl_cmd := cjxl_cmd s;
     imagemagick_cmd := imagemagick_cmd s |}.
Definition with_stop_thread (v : bool) (s : JxlConverterTUI) : JxlConverterTUI :=
  {| initial_dir := initial_dir s; files := files s; selected := selected s; statuses := statuses s;
     failed_indices := failed_indices s; current_row := current_row s;
     scroll_offset := scroll_offset s; quality := quality s; effort := effort s;
     recursive := recursive s; delete_originals := delete_originals s;
     show_only_failed := show_only_failed s; output_dir := output_dir s;
     conversion_queue := conversion_queue s; status_queue := status_queue s;
     conversion_thread := conversion_thread s; thread_joined := thread_joined s;
     is_converting := is_converting s; stop_thread := v; total_bytes_before := total_bytes_before s;
     total_bytes_after := total_bytes_after s; conversions_success := conversions_success s;
     conversions_failed := conversions_failed s; start_time := start_time s; cjxl_cmd := cjxl_cmd s;
     imagemagick_cmd := imagemagick_cmd s |}.
Definition with_total_bytes_before (v : Z) (s : JxlConverterTUI) : JxlConverterTUI :=
  {| initial_dir := initial_dir s; files := files s; selected := selected s; statuses := statuses s;
     failed_indices := failed_indices s; current_row := current_row s;
     scroll_offset := scroll_offset s; quality := quality s; effort := effort s;
     recursive := recursive s; delete_originals := delete_originals s;
     show_only_failed := show_only_failed s; output_dir := output_dir s;
     conversion_queue := conversion_queue s; status_queue := status_queue s;
     conversion_thread := conversion_thread s; thread_joined := thread_joined s;
     is_converting := is_converting s; stop_thread := stop_thread s; total_bytes_before := v;
     total_bytes_after := total_bytes_after s; conversions_success := conversions_success s;
     conversions_failed := conversions_failed s; start_time := start_time s; cjxl_cmd := cjxl_cmd s;
     imagemagick_cmd := imagemagick_cmd s |}.
Definition with_total_bytes_after (v : Z) (s : JxlConverterTUI) : JxlConverterTUI :=
  {| initial_dir := initial_dir s; files := files s; selected := selected s; statuses := statuses s;
     failed_indices := failed_indices s; current_row := current_row s;
     scroll_offset := scroll_offset s; quality := quality s; effort := effort s;
     recursive := recursive s; delete_originals := delete_originals s;
     show_only_failed := show_only_failed s; output_dir := output_dir s;
     conversion_queue := conversion_queue s; status_queue := status_queue s;
     conversion_thread := conversion_thread s; thread_joined := thread_joined s;
     is_converting := is_converting s; stop_thread := stop_thread s;
     total_bytes_before := total_bytes_before s; total_bytes_after := v;
     conversions_success := conversions_success s; conversions_failed := conversions_failed s;
     start_time := start_time s; cjxl_cmd := cjxl_cmd s; imagemagick_cmd := imagemagick_cmd s |}.
Definition with_conversions_success (v : Z) (s : JxlConverterTUI) : JxlConverterTUI :=
  {| initial_dir := initial_dir s; files := files s; selected := selected s; statuses := statuses s;
     failed_indices := failed_indices s; current_row := current_row s;
     scroll_offset := scroll_offset s; quality := quality s; effort := effort s;
     recursive := recursive s; delete_originals := delete_originals s;
     show_only_failed := show_only_failed s; output_dir := output_dir s;
     conversion_queue := conversion_queue s; status_queue := status_queue s;
     conversion_thread := conversion_thread s; thread_joined := thread_joined s;
     is_converting := is_converting s; stop_thread := stop_thread s;
     total_bytes_before := total_bytes_before s; total_bytes_after := total_bytes_after s;
     conversions_success := v; conversions_failed := conversions_failed s;
     start_time := start_time s; cjxl_cmd := cjxl_cmd s; imagemagick_cmd := imagemagick_cmd s |}.
Definition with_conversions_failed (v : Z) (s : JxlConverterTUI) : JxlConverterTUI :=
  {| initial_dir := initial_dir s; files := files s; selected := selected s; statuses := statuses s;
     failed_indices := failed_indices s; current_row := current_row s;
     scroll_offset := scroll_offset s; quality := quality s; effort := effort s;
     recursive := recursive s; delete_originals := delete_originals s;
     show_only_failed := show_only_failed s; output_dir := output_dir s;
     conversion_queue := conversion_queue s; status_queue := status_queue s;
     conversion_thread := conversion_thread s; thread_joined := thread_joined s;
     is_converting := is_converting s; stop_thread := stop_thread s;
     total_bytes_before := total_bytes_before s; total_bytes_after := total_bytes_after s;
     conversions_success := conversions_success s; conversions_failed := v;
     start_time := start_time s; cjxl_cmd := cjxl_cmd s; imagemagick_cmd := imagemagick_cmd s |}.
Definition with_start_time (v : Z) (s : JxlConverterTUI) : JxlConverterTUI :=
  {| initial_dir := initial_dir s; files := files s; selected := selected s; statuses := statuses s;
     failed_indices := failed_indices s; current_row := current_row s;
     scroll_offset := scroll_offset s; quality := quality s; effort := effort s;
     recursive := recursive s; delete_originals := delete_originals s;
     show_only_failed := show_only_failed s; output_dir := output_dir s;
     conversion_queue := conversion_queue s; status_queue := status_queue s;
     conversion_thread := conversion_thread s; thread_joined := thread_joined s;
     is_converting := is_converting s; stop_thread := stop_thread s;
     total_bytes_before := total_bytes_before s; total_bytes_after := total_bytes_after s;
     conversions_success := conversions_success s; conversions_failed := conversions_failed s;
     start_time := v; cjxl_cmd := cjxl_cmd s; imagemagick_cmd := imagemagick_cmd s |}.

(** ** The monad of the methods *)

Record world := mkWorld {
  self : JxlConverterTUI;
  disk : fs;
  tty : list Z;
  clock : Z;
  spawned : list (list string)
}.

Definition set_self (s : JxlConverterTUI) (w : world) : world :=
  {| self := s; disk := disk w; tty := tty w; clock := clock w; spawned := spawned w |}.
Definition set_disk (d : fs) (w : world) : world :=
  {| self := self w; disk := d; tty := tty w; clock := clock w; spawned := spawned w |}.
Definition set_tty (k : list Z) (w : world) : world :=
  {| self := self w; disk := disk w; tty := k; clock := clock w; spawned := spawned w |}.
Definition set_clock (t : Z) (w : world) : world :=
  {| self := self w; disk := disk w; tty := tty w; clock := t; spawned := spawned w |}.
Definition set_spawned (l : list (list string)) (w : world) : world :=
  {| self := self w; disk := disk w; tty := tty w; clock := clock w; spawned := l |}.

(** A call returns a value, raises, or waits for ever for a key. *)
Inductive outcome (A : Type) :=
  | Ret (a : A)
  | Exc (e : exn)
  | Wait.
Arguments Ret {A} a.
Arguments Exc {A} e.
Arguments Wait {A}.

Definition M (A : Type) : Type := world → outcome A * world.

#[global] Instance M_ret : MRet M := λ A a w, (Ret a, w).
#[global] Instance M_bind : MBind M := λ A B f m w,
  match m w with
  | (Ret a, w') => f a w'
  | (Exc e, w') => (Exc e, w')
  | (Wait, w') => (Wait, w')
  end.

Definition gets {A} (f : JxlConverterTUI → A) : M A := λ w, (Ret (f (self w)), w).
Definition modify (f : JxlConverterTUI → JxlConverterTUI) : M unit :=
  λ w, (Ret tt, set_self (f (self w)) w).
Definition raise {A} (e : exn) : M A := λ w, (Exc e, w).
Definition get_disk : M fs := λ w, (Ret (disk w), w).
Definition on_disk (f : fs → result fs) : M unit := λ w,
  match f (disk w) with
  | Ok d => (Ret tt, set_disk d w)
  | Raise e => (Exc e, w)
  end.
(** [time.time()] *)
Definition time : M Z := λ w, (Ret (clock w), w).
(** [x[k]] on a dictionary or a list *)
Definition subscript {A} (o : option A) (e : exn) : M A :=
  match o with
  | Some a => mret a
  | None => raise e
  end.

(** ** Dialogs *)

Module curses.
Definition KEY_DOWN : Z := 258.
Definition KEY_UP : Z := 259.
Definition KEY_BACKSPACE : Z := 263.
Definition KEY_F5 : Z := 269.
Definition KEY_NPAGE : Z := 338.
Definition KEY_PPAGE : Z := 339.
Definition KEY_ENTER : Z := 343.
Definition KEY_RESIZE : Z := 410.
End curses.

Definition key_in (key : Z) (l : list Z) : bool := bool_decide (key ∈ l).

(** [ConfirmationDialog.run]: waits for [y], [Y], [n], [N] or ESC. *)
Fixpoint ConfirmationDialog_loop (keys : list Z) : outcome bool * list Z :=
  match keys with
  | [] => (Wait, [])
  | key :: rest =>
      if key_in key [121; 89] then (Ret true, rest)
      else if key_in key [110; 78; 27] then (Ret false, rest)
      else ConfirmationDialog_loop rest
  end.

Definition ConfirmationDialog_run (question : string) : M bool := λ w,
  let '(o, rest) := ConfirmationDialog_loop (tty w) in (o, set_tty rest w).

(** [chr(key)] for [0 <= key < 256] *)
Definition chr (key : Z) : string := String (ascii_of_N (Z.to_N key)) "".

(** [text[:-1]] *)
Fixpoint drop_last (s : string) : string :=
  match s with
  | EmptyString => EmptyString
  | String c EmptyString => EmptyString
  | String c r => String c (drop_last r)
  end.

(** [InputDialog.run]: [None] stands for a cancelled dialog. *)
Fixpoint InputDialog_loop (text : string) (keys : list Z) : outcome (option string) * list Z :=
  match keys with
  | [] => (Wait, [])
  | key :: rest =>
      if bool_decide (key = curses.KEY_RESIZE) then (Ret None, rest)
      else if key_in key [10; curses.KEY_ENTER] then (Ret (Some text), rest)
      else if bool_decide (key = 27) then (Ret None, rest)
      else if key_in key [curses.KEY_BACKSPACE; 127] then InputDialog_loop (drop_last text) rest
      else if bool_decide (32 ≤ key ≤ 126) then InputDialog_loop (text +:+ chr key) rest
      else InputDialog_loop text rest
  end.

Definition InputDialog_run (prompt initial_value : string) : M (option string) := λ w,
  let '(o, rest) := InputDialog_loop initial_value (tty w) in (o, set_tty rest w).

(** ** Path/conflict resolver *)

(** The directory in which the output of [in_path] is placed. *)
Definition target_dir_of (s : JxlConverterTUI) (in_path : path) : path :=
  match output_dir s with
  | None => Path.parent in_path
  | Some out =>
      if recursive s then
        match Path.relative_to (Path.parent in_path) (initial_dir s) with
        | Some rel => out ++ rel
        | None => out
        end
      else out
  end.

(** The candidates in the order in which they are tried: [<stem>.jxl],
    then [<stem>-1.jxl], [<stem>-2.jxl], ... *)
Definition candidate (target_dir : path) (stem : string) (n : nat) : path :=
  match n with
  | O => target_dir ++ [stem +:+ ".jxl"]
  | S _ => target_dir ++ [stem +:+ "-" +:+ pretty n +:+ ".jxl"]
  end.

Definition taken (d : fs) (existing_targets : gset string) (p : path) : bool :=
  bool_decide (Path.str p ∈ existing_targets) || Fs.exists_ d p.

(** The [while] loop of [_get_unique_target_path], run for at most [fuel]
    iterations. *)
Fixpoint probe (d : fs) (existing_targets : gset string) (target_dir : path) (stem : string)
    (fuel : nat) (target_path : path) (counter : nat) : path :=
  match fuel with
  | O => target_path
  | S fuel' =>
      if taken d existing_targets target_path
      then probe d existing_targets target_dir stem fuel'
             (target_dir ++ [stem +:+ "-" +:+ pretty counter +:+ ".jxl"]) (S counter)
      else target_path
  end.

Definition _get_unique_target_path (in_path : path) (existing_targets : gset string) : M path :=
  s ← gets id;
  let target_dir := target_dir_of s in_path in
  on_disk (λ d, Fs.mkdir d target_dir);;
  d ← get_disk;
  mret (probe d existing_targets target_dir (Path.stem in_path)
          (S (size existing_targets + size d))
          (target_dir ++ [Path.stem in_path +:+ ".jxl"]) 1).

(** ** Session controller: starting a batch *)

(** [not x] for [x] the result of [shutil.which] *)
Definition missing (cmd : option string) : bool :=
  match cmd with
  | None => true
  | Some c => bool_decide (c = "")
  end.

Definition with_record (idx : nat) (f : StatusRecord → StatusRecord) : M unit :=
  st ← gets statuses;
  r ← subscript (st !! idx) KeyError;
  modify (with_statuses (<[idx := f r]> st)).

Definition set_r_target_path (p : path) (r : StatusRecord) : StatusRecord :=
  {| r_status := r_status r; r_message := r_message r; r_info_str := r_info_str r;
     r_target_path := Some p; r_size_before := r_size_before r;
     r_size_after := r_size_after r |}.

Definition set_r_status (v : Status) (r : StatusRecord) : StatusRecord :=
  {| r_status := v; r_message := r_message r; r_info_str := r_info_str r;
     r_target_path := r_target_path r; r_size_before := r_size_before r;
     r_size_after := r_size_after r |}.

(** The task-building loop over [sorted(list(self.selected))]. *)
Fixpoint build_tasks (is_sanitize_run : bool) (idxs : list nat)
    (tasks : list Task) (existing_targets_in_batch : gset string)
    : M (list Task * gset string) :=
  match idxs with
  | [] => mret (tasks, existing_targets_in_batch)
  | idx :: rest =>
      fl ← gets files;
      input_path ← subscript (fl !! idx) IndexError;
      target_path ← _get_unique_target_path input_path existing_targets_in_batch;
      with_record idx (set_r_target_path target_path);;
      build_tasks is_sanitize_run rest
        (tasks ++ [mkTask idx target_path is_sanitize_run])
        ({[ Path.str target_path ]} ∪ existing_targets_in_batch)
  end.

(** The loop that enqueues the built tasks. *)
Fixpoint enqueue_tasks (tasks : list Task) : M unit :=
  match tasks with
  | [] => mret tt
  | task :: rest =>
      modify (λ s, with_conversion_queue (conversion_queue s ++ [task]) s);;
      with_record (t_idx task) (set_r_status QUEUED);;
      modify (λ s, with_failed_indices (failed_indices s ∖ {[ t_idx task ]}) s);;
      enqueue_tasks rest
  end.

Definition _start_conversion_session (is_sanitize_run : bool) : M unit :=
  s ← gets id;
  if is_converting s then mret tt
  else if bool_decide (selected s = ∅) then mret tt
  else if missing (cjxl_cmd s) then mret tt
  else
    proceed ←
      (if delete_originals s && negb is_sanitize_run
       then ConfirmationDialog_run "Delete originals is ON. Proceed? (y/n)"
       else mret true);
    if negb proceed then mret tt
    else
      built ← build_tasks is_sanitize_run
                 (merge_sort (≤)%nat (elements (selected s))) [] ∅;
      let tasks := built.1 in
      (if negb is_sanitize_run then
         now ← time;
         modify (λ s, with_total_bytes_after 0 (with_total_bytes_before 0
                   (with_conversions_failed 0 (with_conversions_success 0
                   (with_start_time now (with_is_converting true s))))))
       else mret tt : M unit);;
      enqueue_tasks tasks;;
      alive ← gets conversion_thread;
      if (alive : bool) then mret tt
      else modify (λ s, with_conversion_thread true (with_stop_thread false s)).

(** ** Numbers

    A Python [int] is a [Z].  A Python [float] is a binary64 number; the
    model keeps its exact value [fm * 2 ^ fe] and rounds every operation
    correctly (to nearest, ties to even) to 53 significant bits.  The
    exponent range of binary64 is not modelled: the quantities here are
    byte counts and percentages, far from overflow and underflow. *)

Record float := mkFloat {
  fm : Z;
  fe : Z
}.

(** [N / D] rounded to the nearest integer, ties to even ([D > 0]). *)
Definition round_half_even (N D : Z) : Z :=
  let q := N / D in
  let r := N mod D in
  if 2 * r <? D then q
  else if D <? 2 * r then q + 1
  else if Z.even q then q else q + 1.

(** [N / (D * 2 ^ e)] as a fraction of integers. *)
Definition scaled (N D e : Z) : Z * Z :=
  if 0 <=? e then (N, D * 2 ^ e) else (N * 2 ^ (- e), D).

(** The binary64 number nearest to [N / D] ([D > 0]): the exponent [e] is
    chosen so that [2^52 <= |N| / (D * 2^e) < 2^53]. *)
Definition round53 (N D : Z) : float :=
  if N =? 0 then mkFloat 0 0
  else
    let a := Z.abs N in
    let e0 := Z.log2 a - Z.log2 D - 53 in
    let '(n0, d0) := scaled a D e0 in
    let e := if n0 / d0 <? 2 ^ 53 then e0 else e0 + 1 in
    let '(n, d) := scaled a D e in
    let m := round_half_even n d in
    if m =? 2 ^ 53 then mkFloat (Z.sgn N * 2 ^ 52) (e + 1)
    else mkFloat (Z.sgn N * m) e.

Definition fshift (x : float) (k : Z) : float := mkFloat (fm x) (fe x + k).

(** [float(z)] *)
Definition float_of_int (z : Z) : float := round53 z 1.

(** [x / y] and [x * y] on floats ([y] not zero) *)
Definition fdiv (x y : float) : float :=
  fshift (round53 (fm x * Z.sgn (fm y)) (Z.abs (fm y))) (fe x - fe y).
Definition fmul (x y : float) : float :=
  fshift (round53 (fm x * fm y) 1) (fe x + fe y).

(** The sign of [x - y]. *)
Definition fcompare (x y : float) : comparison :=
  let e := Z.min (fe x) (fe y) in
  (fm x * 2 ^ (fe x - e) ?= fm y * 2 ^ (fe y - e)).

Inductive num :=
  | Int (z : Z)
  | Flt (x : float).

(** Comparisons of numbers are exact, also between [int] and [float]. *)
Definition num_compare (a b : num) : comparison :=
  match a, b with
  | Int x, Int y => (x ?= y)
  | Int x, Flt y => fcompare (mkFloat x 0) y
  | Flt x, Int y => fcompare x (mkFloat y 0)
  | Flt x, Flt y => fcompare x y
  end.
Definition num_ge (a b : num) : bool :=
  match num_compare a b with
  | Lt => false
  | _ => true
  end.
Definition num_le (a b : num) : bool :=
  match num_compare a b with
  | Gt => false
  | _ => true
  end.

(** [a / b], true division by a positive [int]. *)
Definition num_div (a : num) (b : Z) : num :=
  match a with
  | Int x => Flt (round53 x b)
  | Flt x => Flt (fdiv x (float_of_int b))
  end.

(** [a * b] for a float [a] and an [int] [b]. *)
Definition num_mul (a : num) (b : Z) : num :=
  match a with
  | Int x => Int (x * b)
  | Flt x => Flt (fmul x (float_of_int b))
  end.

Definition to_float (a : num) : float :=
  match a with
  | Int x => float_of_int x
  | Flt x => x
  end.

(** [f"{a:.1f}"]: the exact value rounded to one decimal, ties to even. *)
Definition format_1f (a : num) : string :=
  let x := to_float a in
  let m := Z.abs (fm x) in
  let r := if 0 <=? fe x then m * 10 * 2 ^ fe x
           else round_half_even (m * 10) (2 ^ (- fe x)) in
  (if fm x <? 0 then "-" else "") +:+ pretty (r / 10) +:+ "." +:+ pretty (r mod 10).

(** ** Formatting byte counts *)

Definition power_labels : gmap nat string :=
  {[ 0%nat := ""; 1%nat := "K"; 2%nat := "M"; 3%nat := "G"; 4%nat := "T" ]}.

(** The [while] loop of [_format_bytes]; [n] grows by one in each
    iteration and stays below [len(power_labels)], so [fuel] iterations
    with [fuel = len(power_labels)] are enough. *)
Fixpoint format_bytes_loop (fuel : nat) (size_bytes : num) (n : nat) : num * nat :=
  match fuel with
  | O => (size_bytes, n)
  | S fuel' =>
      if num_ge size_bytes (Int 1024) && bool_decide (n < size power_labels)%nat
      then format_bytes_loop fuel' (num_div size_bytes 1024) (S n)
      else (size_bytes, n)
  end.

Definition _format_bytes (size_bytes : num) : result string :=
  if num_le size_bytes (Int 0) then Ok "0B"
  else
    let '(size_bytes, n) := format_bytes_loop (size power_labels) size_bytes 0 in
    match power_labels !! n with
    | Some label => Ok (format_1f size_bytes +:+ label +:+ "B")
    | None => Raise KeyError
    end.

(** ** Status channel and aggregator *)

(** [self.statuses[idx].update(update)] *)
Definition merge_update (update : Update) (r : StatusRecord) : StatusRecord :=
  {| r_status := u_status update;
     r_message := default (r_message r) (u_message update);
     r_info_str := r_info_str r;
     r_target_path := r_target_path r;
     r_size_before := from_option Some (r_size_before r) (u_size_before update);
     r_size_after := from_option Some (r_size_after r) (u_size_after update) |}.

Definition set_r_info_str (v : string) (r : StatusRecord) : StatusRecord :=
  {| r_status := r_status r; r_message := r_message r; r_info_str := v;
     r_target_path := r_target_path r; r_size_before := r_size_before r;
     r_size_after := r_size_after r |}.

Definition of_result {A} (r : result A) : M A :=
  match r with
  | Ok a => mret a
  | Raise e => raise e
  end.

(** The text shown for a successful conversion. *)
Definition savings_text (b_before b_after : Z) : result string :=
  let savings := b_before - b_after in
  let savings_pct :=
    if 0 <? b_before then num_mul (num_div (Int savings) b_before) 100 else Int 0 in
  formatted ← _format_bytes (Int savings);
  Ok (formatted +:+ " saved (" +:+ format_1f savings_pct +:+ "%)").

(** The body of the draining loop of [_process_status_queue]. *)
Definition apply_update (update : Update) : M unit :=
  let idx := u_idx update in
  st ← gets statuses;
  if bool_decide (is_Some (st !! idx)) then
    with_record idx (merge_update update);;
    info_text ←
      match u_status update with
      | SUCCESS =>
          modify (λ s, with_conversions_success (conversions_success s + 1) s);;
          let b_before := default 0 (u_size_before update) in
          let b_after := default 0 (u_size_after update) in
          if negb (b_before =? 0) && negb (b_after =? 0) then
            modify (λ s, with_total_bytes_after (total_bytes_after s + b_after)
                           (with_total_bytes_before (total_bytes_before s + b_before) s));;
            of_result (savings_text b_before b_after)
          else mret ""
      | FAILED =>
          modify (λ s, with_failed_indices ({[ idx ]} ∪ failed_indices s)
                         (with_conversions_failed (conversions_failed s + 1) s));;
          mret (default "Unknown Error" (u_message update))
      | _ => mret ""
      end;
    with_record idx (set_r_info_str info_text)
  else mret tt.

(** [while not self.status_queue.empty(): update = self.status_queue.get(); ...] *)
Fixpoint drain_status_queue (pending : list Update) : M unit :=
  match pending with
  | [] => mret tt
  | update :: rest =>
      modify (with_status_queue rest);;
      apply_update update;;
      drain_status_queue rest
  end.

Definition _prompt_for_sanitize : M unit :=
  s ← gets id;
  if missing (imagemagick_cmd s) then mret tt
  else
    let prompt := pretty (size (failed_indices s))
                  +:+ " files failed. Sanitize & retry them now? (y/n)" in
    yes ← ConfirmationDialog_run prompt;
    if (yes : bool) then
      modify (λ s, with_selected (failed_indices s) s);;
      _start_conversion_session true
    else mret tt.

Definition _process_status_queue : M unit :=
  pending ← gets status_queue;
  drain_status_queue pending;;
  s ← gets id;
  just_finished ←
    (if is_converting s && bool_decide (conversion_queue s = []) then
       let total_processed := conversions_success s + conversions_failed s in
       if Z.of_nat (size (selected s)) <=? total_processed then
         modify (with_is_converting false);;
         let total_savings := total_bytes_before s - total_bytes_after s in
         of_result (_format_bytes (Int total_savings));;
         mret true
       else mret false
     else mret false);
  failed ← gets failed_indices;
  if just_finished && negb (bool_decide (failed = ∅)) then _prompt_for_sanitize
  else mret tt.

(** ** Text of child processes *)

(** [str.isspace] on one character *)
Definition is_space (c : ascii) : bool :=
  let n := N_of_ascii c in
  ((9 <=? n) && (n <=? 13) || (28 <=? n) && (n <=? 32)
   || (n =? 133) || (n =? 160))%N.

(** The line boundaries of [str.splitlines], [\r] apart. *)
Definition is_linebreak (c : ascii) : bool :=
  let n := N_of_ascii c in
  ((10 <=? n) && (n <=? 12) || (28 <=? n) && (n <=? 30) || (n =? 133))%N.

Fixpoint lstrip (s : string) : string :=
  match s with
  | EmptyString => EmptyString
  | String c r => if is_space c then lstrip r else s
  end.

Fixpoint rstrip (s : string) : string :=
  match s with
  | EmptyString => EmptyString
  | String c r =>
      match rstrip r with
      | EmptyString => if is_space c then EmptyString else String c EmptyString
      | r' => String c r'
      end
  end.

(** [s.strip()] *)
Definition strip (s : string) : string := rstrip (lstrip s).

(** [s.splitlines()]; [line] is the line read so far. *)
Fixpoint splitlines_from (line : string) (s : string) : list string :=
  match s with
  | EmptyString => if bool_decide (line = "") then [] else [line]
  | String c r =>
      if Ascii.eqb c "013" then
        match r with
        | String "010" r' => line :: splitlines_from "" r'
        | _ => line :: splitlines_from "" r
        end
      else if is_linebreak c then line :: splitlines_from "" r
      else splitlines_from (line +:+ String c "") r
  end.

Definition splitlines (s : string) : list string := splitlines_from "" s.

(** [s.lower()] on one character *)
Definition lower_char (c : ascii) : ascii :=
  let n := N_of_ascii c in
  if ((65 <=? n) && (n <=? 90) || (192 <=? n) && (n <=? 222) && negb (n =? 215))%N
  then ascii_of_N (n + 32) else c.

Fixpoint lower (s : string) : string :=
  match s with
  | EmptyString => EmptyString
  | String c r => String (lower_char c) (lower r)
  end.

(** ** Task queue and worker *)

(** [subprocess.run(cmd, capture_output=True, text=True)]: the child
    either cannot be started, or exits with a return code and an error
    text, having changed the file system. *)
Inductive completed :=
  | Exited (returncode : Z) (stderr : string) (d : fs)
  | NotStarted (e : exn).

Definition process := list string → fs → completed.

Definition subprocess_run (run : process) (cmd : list string) : M (Z * string) := λ w,
  match run cmd (disk w) with
  | Exited rc err d => (Ret (rc, err), set_spawned (spawned w ++ [cmd]) (set_disk d w))
  | NotStarted e => (Exc e, set_spawned (spawned w ++ [cmd]) w)
  end.

Definition try_except {A} (body : M A) (handler : exn → M A) : M A := λ w,
  match body w with
  | (Exc e, w') => handler e w'
  | r => r
  end.

Definition _update_status (idx : nat) (status : Status) (message : option string)
    (size_before size_after : option Z) : M unit :=
  modify (λ s, with_status_queue
                 (status_queue s ++ [mkUpdate idx status message size_before size_after]) s).

(** An element of a command line taken from an attribute that may be [None]. *)
Definition command (cmd : option string) : M string := subscript cmd TypeError.

(** [shutil.copystat(src, dst)]; modes and times are not modelled. *)
Definition copystat (src dst : path) : M unit :=
  d ← get_disk;
  if Fs.exists_ d src && Fs.exists_ d dst then mret tt else raise FileNotFoundError.

(** The sanitize step: the file to hand to the encoder, or [None] when the
    task has been reported as failed. *)
Definition sanitize_step (run : process) (tmpdir : path) (idx : nat) (input_path : path)
    : M (option path) :=
  _update_status idx SANITIZING None None None;;
  magick ← gets imagemagick_cmd;
  if missing magick then
    _update_status idx FAILED (Some "ImageMagick not found") None None;;
    mret None
  else
    let temp_png := tmpdir ++ ["sanitized_" +:+ Path.name input_path +:+ ".png"] in
    exe ← command magick;
    result ← subprocess_run run [exe; Path.str input_path; "-strip"; Path.str temp_png];
    d ← get_disk;
    if negb (result.1 =? 0) || negb (Fs.exists_ d temp_png)
       || match Fs.stat_size d temp_png with
          | Ok size => size =? 0
          | Raise _ => false
          end
    then
      _update_status idx FAILED (Some "Sanitize failed") None None;;
      on_disk (λ d, Fs.unlink true d temp_png);;
      mret None
    else mret (Some temp_png).

(** [input_path.suffix.lower() in ['.jpg', '.jpeg']] *)
Definition is_jpeg (input_path : path) : bool :=
  bool_decide (lower (Path.suffix input_path) ∈ [".jpg"; ".jpeg"]).

(** The encoder invocations of one task. *)
Definition encode_step (run : process) (source_file_for_cjxl target_path input_path : path)
    (use_sanitize : bool) : M (Z * string) :=
  s ← gets id;
  exe ← command (cjxl_cmd s);
  let cmd := [exe; Path.str source_file_for_cjxl; Path.str target_path;
              "--effort"; pretty (effort s)] in
  if is_jpeg input_path && negb use_sanitize then
    let lossless_cmd := cmd ++ ["--lossless_jpeg"; "1"; "--quiet"] in
    result ← subprocess_run run lossless_cmd;
    if negb (result.1 =? 0) then
      let quality_cmd := cmd ++ ["-q"; pretty (quality s); "--quiet"] in
      subprocess_run run quality_cmd
    else mret result
  else
    let quality_cmd := cmd ++ ["--lossless_jpeg"; "0"; "-q"; pretty (quality s); "--quiet"] in
    subprocess_run run quality_cmd.

(** [result.stderr.strip().splitlines()[-1] if result.stderr else "cjxl error"] *)
Definition error_message (stderr : string) : result string :=
  if bool_decide (stderr = "") then Ok "cjxl error"
  else
    match last (splitlines (strip stderr)) with
    | Some line => Ok line
    | None => Raise IndexError
    end.

(** The body of the [try] block of [conversion_worker], after the task
    has been taken from the queue. *)
Definition process_task (run : process) (tmpdir : path) (task : Task) : M unit :=
  let idx := t_idx task in
  let target_path := t_target_path task in
  let use_sanitize := t_sanitize task in
  fl ← gets files;
  input_path ← subscript (fl !! idx) IndexError;
  source ←
    (if use_sanitize then sanitize_step run tmpdir idx input_path
     else mret (Some input_path));
  match source with
  | None => mret tt
  | Some source_file_for_cjxl =>
      _update_status idx CONVERTING None None None;;
      result ← encode_step run source_file_for_cjxl target_path input_path use_sanitize;
      (if use_sanitize then on_disk (λ d, Fs.unlink true d source_file_for_cjxl)
       else mret tt : M unit);;
      d ← get_disk;
      if (result.1 =? 0) && Fs.exists_ d target_path then
        copystat input_path target_path;;
        size_before ← of_result (Fs.stat_size d input_path);
        size_after ← of_result (Fs.stat_size d target_path);
        _update_status idx SUCCESS None (Some size_before) (Some size_after);;
        delete ← gets delete_originals;
        if (delete : bool) then
          try_except (on_disk (λ d, Fs.unlink false d input_path)) (λ _, mret tt)
        else mret tt
      else
        error_msg ← of_result (error_message result.2);
        _update_status idx FAILED (Some error_msg) None None;;
        on_disk (λ d, Fs.unlink true d target_path)
  end.

(** One iteration of the loop of [conversion_worker]: with an empty queue
    [get] times out and the loop goes on. *)
Definition worker_iteration (run : process) (tmpdir : path) : M unit :=
  q ← gets conversion_queue;
  match q with
  | [] => mret tt
  | task :: rest =>
      modify (with_conversion_queue rest);;
      try_except (process_task run tmpdir task)
        (λ e, _update_status (t_idx task) FAILED
                (Some ("Worker crash: " +:+ exn_name e)) None None)
  end.

(** ** The environment of the interface *)

Record env := mkEnv {
  (** [subprocess.run] *)
  run_process : process;
  (** [tempfile.gettempdir()] *)
  tmpdir : path;
  (** [Path.glob]: the matches of ['**/*.*'] ([true]) or ['*.*'] under a
      directory, in the order of the operating system *)
  glob : path → bool → fs → result (list path);
  (** [Path(s).expanduser().resolve()] *)
  resolve : string → result path;
  (** the height of the terminal minus the five lines of chrome *)
  max_rows : Z
}.

(** ** File inventory and selection *)

Definition image_exts : list string :=
  [".jpg"; ".jpeg"; ".png"; ".gif"; ".apng"; ".tiff"; ".tif"].

Definition name_le (p q : path) : Prop :=
  String.le (lower (Path.name p)) (lower (Path.name q)).

#[global] Instance name_le_dec : RelDecision name_le.
Proof. intros p q. unfold name_le. apply _. Defined.

Definition pending_record : StatusRecord := mkRecord PENDING "" "" None None None.

Definition load_files (ev : env) : M unit :=
  modify (λ s, with_scroll_offset 0 (with_current_row 0 (with_failed_indices ∅
                 (with_selected ∅ (with_statuses ∅ (with_files [] s))))));;
  s ← gets id;
  d ← get_disk;
  match glob ev (initial_dir s) (recursive s) d with
  | Ok matches =>
      let found_files :=
        merge_sort name_le
          (filter (λ f, Fs.is_file d f ∧ lower (Path.suffix f) ∈ image_exts) matches) in
      modify (λ s, with_statuses
                     (list_to_map (imap (λ i _, (i, pending_record)) found_files))
                     (with_files found_files s))
  | Raise _ => mret tt
  end.

(** [l[i]], also for a negative [i] *)
Definition py_index {A} (l : list A) (i : Z) : option A :=
  if 0 <=? i then l !! Z.to_nat i
  else if 0 <=? Z.of_nat (length l) + i then l !! Z.to_nat (Z.of_nat (length l) + i)
  else None.

Definition get_visible_files : M (list (nat * path)) :=
  s ← gets id;
  if show_only_failed s then
    subscript
      (mapM (λ i, pair i <$> files s !! i)
            (merge_sort (≤)%nat (elements (failed_indices s))))
      IndexError
  else mret (imap (λ i p, (i, p)) (files s)).

(** ** Settings *)

(** [c.isdigit()] for a character below U+0100: the decimal digits and
    the superscripts one, two and three. *)
Definition isdigit_char (c : ascii) : bool :=
  let n := N_of_ascii c in
  ((48 <=? n) && (n <=? 57) || (n =? 178) || (n =? 179) || (n =? 185))%N.

Fixpoint all_chars (f : ascii → bool) (s : string) : bool :=
  match s with
  | EmptyString => true
  | String c r => f c && all_chars f r
  end.

(** [s.isdigit()] *)
Definition isdigit (s : string) : bool :=
  negb (bool_decide (s = "")) && all_chars isdigit_char s.

(** [int(s)] for a text of digits; the superscripts are not decimal. *)
Fixpoint int_digits (acc : Z) (s : string) : result Z :=
  match s with
  | EmptyString => Ok acc
  | String c r =>
      let n := N_of_ascii c in
      if ((48 <=? n) && (n <=? 57))%N then int_digits (10 * acc + (Z.of_N n - 48)) r
      else Raise ValueError
  end.

Definition int (s : string) : result Z :=
  if bool_decide (s = "") then Raise ValueError else int_digits 0 s.

(** The common body of [set_quality] and [set_effort]: the accepted value. *)
Definition accepted (new_val : option string) (lo hi : Z) : M (option Z) :=
  match new_val with
  | Some text =>
      if negb (bool_decide (text = "")) && isdigit text then
        v ← of_result (int text);
        if (lo <=? v) && (v <=? hi) then mret (Some v) else mret None
      else mret None
  | None => mret None
  end.

Definition set_quality : M unit :=
  q ← gets quality;
  new_val ← InputDialog_run "Quality (1-100)" (pretty q);
  v ← accepted new_val 1 100;
  match v with
  | Some v => modify (with_quality v)
  | None => mret tt
  end.

Definition set_effort : M unit :=
  e ← gets effort;
  new_val ← InputDialog_run "Effort (1-9)" (pretty e);
  v ← accepted new_val 1 9;
  match v with
  | Some v => modify (with_effort v)
  | None => mret tt
  end.

Definition set_output_dir (ev : env) : M unit :=
  out ← gets output_dir;
  let current := from_option Path.str "" out in
  new_val ← InputDialog_run "Output Dir (blank=Same as Source)" current;
  match new_val with
  | Some text =>
      if bool_decide (strip text = "") then modify (with_output_dir None)
      else
        p ← of_result (resolve ev text);
        modify (with_output_dir (Some p))
  | None => mret tt
  end.

(** ** Input handling *)

(** [ord(c)] *)
Definition ord (c : ascii) : Z := Z.of_N (N_of_ascii c).

(** [chr(key) == c] for a printable [c] *)
Definition is_char (key : Z) (c : ascii) : bool := key =? ord c.

Definition toggle (idx : nat) (X : gset nat) : gset nat :=
  if bool_decide (idx ∈ X) then X ∖ {[ idx ]} else {[ idx ]} ∪ X.

Definition handle_input (ev : env) (key : Z) (visible_files : list (nat * path)) : M unit :=
  let max_rows := max_rows ev in
  let len := Z.of_nat (length visible_files) in
  s ← gets id;
  (if key_in key [curses.KEY_UP; ord "k"] && (0 <? current_row s)
   then modify (with_current_row (current_row s - 1))
   else if key_in key [curses.KEY_DOWN; ord "j"] && (current_row s <? len - 1)
   then modify (with_current_row (current_row s + 1))
   else if key =? curses.KEY_PPAGE
   then modify (with_current_row (Z.max 0 (current_row s - max_rows)))
   else if key =? curses.KEY_NPAGE
   then modify (with_current_row (Z.min (len - 1) (current_row s + max_rows)))
   else if is_char key "g" && (0 <? current_row s)
   then modify (λ s, with_current_row 0 (with_scroll_offset 0 s))
   else if is_char key "G"
   then modify (with_current_row (len - 1))
   else if is_char key " "
   then
     if current_row s <? len then
       entry ← subscript (py_index visible_files (current_row s)) IndexError;
       modify (λ s, with_selected (toggle entry.1 (selected s)) s)
     else mret tt
   else if is_char key "a"
   then modify (with_selected (list_to_set (map fst visible_files)))
   else if is_char key "A"
   then modify (with_selected ∅)
   else if key_in key [curses.KEY_ENTER; 10]
   then _start_conversion_session false
   else if key =? curses.KEY_F5
   then load_files ev
   else if (is_char key "F" || is_char key "f") && negb (bool_decide (failed_indices s = ∅))
   then modify (λ s, with_scroll_offset 0 (with_current_row 0
                       (with_show_only_failed (negb (show_only_failed s)) s)))
   else if is_char key "B" || is_char key "b"
   then mret tt
   else if is_char key "Q" || is_char key "q"
   then set_quality
   else if is_char key "E" || is_char key "e"
   then set_effort
   else if is_char key "R" || is_char key "r"
   then modify (λ s, with_recursive (negb (recursive s)) s);; load_files ev
   else if is_char key "O" || is_char key "o"
   then set_output_dir ev
   else if is_char key "D" || is_char key "d"
   then modify (λ s, with_delete_originals (negb (delete_originals s)) s)
   else mret tt);;
  modify (λ s, if current_row s <? scroll_offset s
               then with_scroll_offset (current_row s) s else s);;
  modify (λ s, if scroll_offset s + max_rows <=? current_row s
               then with_scroll_offset (current_row s - max_rows + 1) s else s).

(** ** The main loop *)

(** What the worker thread, the file system and the clock have done since
    the previous iteration of the loop. *)
Record tick := mkTick {
  pulled : nat;
  arrived : list Update;
  disk_now : fs;
  now : Z
}.

Definition apply_tick (t : tick) : M unit := λ w,
  (Ret tt,
   {| self := with_status_queue (status_queue (self w) ++ arrived t)
                (with_conversion_queue (drop (pulled t) (conversion_queue (self w))) (self w));
      disk := disk_now t; tty := tty w; clock := now t; spawned := spawned w |}).

(** The keys read by [getch] without delay until it answers [-1]. *)
Fixpoint pending_keys (input : list Z) : list Z * list Z :=
  match input with
  | [] => ([], [])
  | key :: rest =>
      if key =? -1 then ([], rest)
      else let '(keys, rest') := pending_keys rest in (key :: keys, rest')
  end.

Definition read_keys : M (list Z) := λ w,
  let '(keys, rest) := pending_keys (tty w) in (Ret keys, set_tty rest w).

Definition nav_keys : list Z :=
  [curses.KEY_UP; ord "k"; curses.KEY_DOWN; ord "j";
   curses.KEY_PPAGE; curses.KEY_NPAGE; ord "g"; ord "G"].

(** How a statement ends: the next statement follows, or the enclosing
    loop or the method is left. *)
Inductive flow :=
  | Next
  | Break
  | Return.

(** One key of the loop: the quit test, then [handle_input]. *)
Definition process_key (ev : env) (key : Z) : M flow :=
  converting ← gets is_converting;
  if key_in key [27; ord "q"] && negb converting then mret Return
  else
    quit ←
      (if key_in key [27; ord "q"] && converting
       then ConfirmationDialog_run "Still converting. Quit anyway?"
       else mret false);
    if (quit : bool) then mret Return
    else
      visible_files_before_input ← get_visible_files;
      handle_input ev key visible_files_before_input;;
      mret Next.

Fixpoint process_keys (ev : env) (keys : list Z) : M flow :=
  match keys with
  | [] => mret Next
  | key :: rest =>
      f ← process_key ev key;
      match f with
      | Next => process_keys ev rest
      | _ => mret f
      end
  end.

(** The body of [while True] in [run]. *)
Definition run_iteration (ev : env) (t : tick) : M flow :=
  apply_tick t;;
  keys ← read_keys;
  let non_nav_keys := filter (λ key, key ∉ nav_keys) keys in
  let last_nav_key := last (filter (λ key, key ∈ nav_keys) keys) in
  f ← process_keys ev non_nav_keys;
  match f with
  | Next =>
      f ← process_keys ev (option_list last_nav_key);
      match f with
      | Next =>
          _process_status_queue;;
          visible_files ← get_visible_files;
          modify (λ s, if Z.of_nat (length visible_files) <=? current_row s
                       then with_current_row
                              (Z.max 0 (Z.of_nat (length visible_files) - 1)) s
                       else s);;
          mret Next
      | _ => mret f
      end
  | _ => mret f
  end.

(** [while True: body], one tick of the environment for each iteration;
    with no tick left the loop is still running. *)
Fixpoint while_true (body : tick → M flow) (ticks : list tick) : M flow :=
  match ticks with
  | [] => λ w, (Wait, w)
  | t :: rest =>
      f ← body t;
      match f with
      | Next => while_true body rest
      | _ => mret f
      end
  end.

(** The statements of [run] after the loop. *)
Definition shutdown : M unit :=
  modify (with_stop_thread true);;
  alive ← gets conversion_thread;
  if (alive : bool) then modify (λ s, with_thread_joined true (with_conversion_thread false s))
  else mret tt.

Definition run (ev : env) (ticks : list tick) : M unit :=
  f ← while_true (run_iteration ev) ticks;
  match f with
  | Return => mret tt
  | _ => shutdown
  end.

(** The state set up by [__init__]; [which] is [shutil.which]. *)
Definition initial_state (initial_dir cwd : path) (which : string → option string)
    : JxlConverterTUI :=
  {| initial_dir := initial_dir; files := []; selected := ∅; statuses := ∅;
     failed_indices := ∅; current_row := 0; scroll_offset := 0;
     quality := 90; effort := 7; recursive := false; delete_originals := false;
     show_only_failed := false; output_dir := Some (cwd ++ ["converted"]);
     conversion_queue := []; status_queue := []; conversion_thread := false;
     thread_joined := false; is_converting := false; stop_thread := false;
     total_bytes_before := 0; total_bytes_after := 0; conversions_success := 0;
     conversions_failed := 0; start_time := 0;
     cjxl_cmd := which "cjxl";
     imagemagick_cmd := match which "magick" with
                        | Some p => if bool_decide (p = "") then which "convert" else Some p
                        | None => which "convert"
                        end |}.

Definition __init__ (ev : env) (initial_dir cwd : path) (which : string → option string)
    : M unit :=
  modify (λ _, initial_state initial_dir cwd which);;
  load_files ev.

(** ** Specification vocabulary *)

(** The file name of the [n]-th candidate. *)
Definition candidate_name (stem : string) (n : nat) : string :=
  match n with
  | O => stem +:+ ".jxl"
  | S _ => stem +:+ "-" +:+ pretty n +:+ ".jxl"
  end.




(** The two forms of an encoder invocation named by the specification. *)
Definition lossless_form (cmd : list string) : Prop :=
  ∃ exe input output e,
    cmd = [exe; input; output; "--effort"; e; "--lossless_jpeg"; "1"; "--quiet"].

Definition quality_form (cmd : list string) : Prop :=
  ∃ exe input output e q,
    cmd = [exe; input; output; "--effort"; e; "--lossless_jpeg"; "0"; "-q"; q; "--quiet"].

(** A text that is not empty and whose last character is no white space. *)
Fixpoint ends_visible (s : string) : bool :=
  match s with
  | EmptyString => false
  | String c EmptyString => negb (is_space c)
  | String _ r => ends_visible r
  end.

(** A computation keeps a property of the object, however it ends. *)
Definition preserves (P : JxlConverterTUI → Prop) {A} (m : M A) : Prop :=
  ∀ w, P (self w) → P (self (m w).2).

(** The ranges of the two encoder settings. *)
Definition in_range (s : JxlConverterTUI) : Prop :=
  1 ≤ quality s ≤ 100 ∧ 1 ≤ effort s ≤ 9.

(** Every value a computation returns satisfies [Q]. *)
Definition yields {A} (Q : A → Prop) (m : M A) : Prop :=
  ∀ w a w', m w = (Ret a, w') → Q a.


(** ** Concrete inputs *)

Definition demo_state (fl : list path) (sel : gset nat) (out : option path) (rec : bool)
    : JxlConverterTUI :=
  {| initial_dir := ["in"]; files := fl; selected := sel;
     statuses := list_to_map (imap (λ i _, (i, pending_record)) fl);
     failed_indices := ∅; current_row := 0; scroll_offset := 0;
     quality := 90; effort := 7; recursive := rec; delete_originals := false;
     show_only_failed := false; output_dir := out;
     conversion_queue := []; status_queue := []; conversion_thread := false;
     thread_joined := false; is_converting := false; stop_thread := false;
     total_bytes_before := 0; total_bytes_after := 0; conversions_success := 0;
     conversions_failed := 0; start_time := 0;
     cjxl_cmd := Some "/usr/bin/cjxl"; imagemagick_cmd := Some "/usr/bin/magick" |}.

Definition demo_world (s : JxlConverterTUI) (d : fs) : world :=
  {| self := s; disk := d; tty := []; clock := 1000; spawned := [] |}.

(** Two files named [photo.png] in different directories, one output
    directory. *)
Definition photo_disk : fs :=
  {[ [] := Dir true; ["out"] := Dir true; ["in"] := Dir true;
     ["in"; "a"] := Dir true; ["in"; "b"] := Dir true;
     ["in"; "a"; "photo.png"] := File 100; ["in"; "b"; "photo.png"] := File 200 ]}.

Definition photo_world : world :=
  demo_world
    (demo_state [["in"; "a"; "photo.png"]; ["in"; "b"; "photo.png"]] {[ 0%nat; 1%nat ]}
       (Some ["out"]) false)
    photo_disk.

(** A mirrored output tree whose root is not writable: the directory of the
    first file exists, the one of the second cannot be created. *)
Definition denied_disk : fs :=
  {[ [] := Dir true; ["out"] := Dir false; ["in"] := Dir true;
     ["in"; "sub"] := Dir true;
     ["in"; "a.png"] := File 100; ["in"; "sub"; "b.png"] := File 200 ]}.

Definition denied_world : world :=
  demo_world
    (demo_state [["in"; "a.png"]; ["in"; "sub"; "b.png"]] {[ 0%nat; 1%nat ]}
       (Some ["out"]) true)
    denied_disk.

(** The scenario of the specification: [a.jpg] of 500KB, quality 90,
    effort 7; the lossless attempt fails, the quality encode writes an
    [a.jxl] of 300KB. *)
Definition scenario_disk : fs :=
  {[ [] := Dir true; ["tmp"] := Dir true; ["out"] := Dir true; ["in"] := Dir true;
     ["in"; "a.jpg"] := File 512000 ]}.

Definition scenario_world : world :=
  demo_world (demo_state [["in"; "a.jpg"]] {[ 0%nat ]} (Some ["out"]) false) scenario_disk.

Definition scenario_encoder : process := λ cmd d,
  if bool_decide ("--lossless_jpeg" ∈ cmd) then Exited 1 "lossless transcode failed" d
  else Exited 0 "" (<[ ["out"; "a.jxl"] := File 307200 ]> d).

Definition scenario : M unit :=
  _start_conversion_session false;;
  worker_iteration scenario_encoder ["tmp"];;
  _process_status_queue.

(** A sanitize retry of [a.jpg]: the sanitizer writes its intermediate
    file, then the encoder cannot be started. *)
Definition retry_world : world :=
  demo_world
    (with_conversion_queue [mkTask 0 ["out"; "a.jxl"] true]
       (demo_state [["in"; "a.jpg"]] {[ 0%nat ]} (Some ["out"]) false))
    scenario_disk.

Definition sanitizer_only : process := λ cmd d,
  match cmd with
  | "/usr/bin/magick" :: _ => Exited 0 "" (<[ ["tmp"; "sanitized_a.jpg.png"] := File 4000 ]> d)
  | _ => NotStarted FileNotFoundError
  end.

(** A fresh task for [b.png] and an encoder that fails printing one empty
    line. *)
Definition blank_world : world :=
  demo_world
    (with_conversion_queue [mkTask 0 ["out"; "b.jxl"] false]
       (demo_state [["in"; "b.png"]] {[ 0%nat ]} (Some ["out"]) false))
    scenario_disk.

Definition blank_encoder : process := λ cmd d, Exited 1 (String "010" "") d.

(** An environment without child processes and without files to find. *)
Definition quiet_env : env :=
  {| run_process := λ _ _, NotStarted FileNotFoundError;
     tmpdir := ["tmp"];
     glob := λ _ _ _, Ok [];
     resolve := λ _, Ok ["out"];
     max_rows := 20 |}.

(** A batch is being converted; the user presses [q] and confirms with
    [y]. *)
Definition quitting_world : world :=
  set_tty [113; -1; 121] (_start_conversion_session false photo_world).2.

Definition one_tick : list tick := [mkTick 0 [] photo_disk 2000].





(** The batch of [photo_world] just started, and the batch of the scenario
    after the worker has handled its only task. *)
Definition photo_started : world := (_start_conversion_session false photo_world).2.


(** ** The screen *)

(** A text handed to the screen: the code points of a Python [str].  The
    ellipsis of the file list is U+2026, outside the range of [string]. *)
Abbreviation text := (list Z).

Fixpoint codes (s : string) : text :=
  match s with
  | EmptyString => []
  | String c r => Z.of_N (N_of_ascii c) :: codes r
  end.

(** [s[:k]] *)
Definition slice_to {A} (l : list A) (k : Z) : list A :=
  if 0 <=? k then take (Z.to_nat k) l
  else take (Z.to_nat (Z.of_nat (length l) + k)) l.

(** [s[j:]] *)
Definition slice_from {A} (l : list A) (j : Z) : list A :=
  if 0 <=? j then drop (Z.to_nat j) l
  else drop (Z.to_nat (Z.of_nat (length l) + j)) l.

(** [s.ljust(width)] *)
Definition ljust (s : text) (width : Z) : text :=
  s ++ replicate (Z.to_nat (width - Z.of_nat (length s))) 32.

(** [" " * n] *)
Definition blanks (n : Z) : text := replicate (Z.to_nat n) 32.

(** [(s[:width-2] + '…') if len(s) > width-1 else s], the text of a cell
    of the file list. *)
Definition clip (s : text) (width : Z) : text :=
  if width - 1 <? Z.of_nat (length s) then slice_to s (width - 2) ++ [8230] else s.

(** [path_str[j:]] on a [string] *)
Definition string_slice_from (s : string) (j : Z) : string :=
  let n := Z.of_nat (String.length s) in
  let start := if 0 <=? j then Z.min j n else Z.max 0 (n + j) in
  String.substring (Z.to_nat start) (Z.to_nat (n - start)) s.

(** [_abbreviate_path] for an absolute path: its [parts] are the root
    ["/"] followed by the components, and [os.path.join] of the root, the
    dots and the last component is ["/.../<last>"]. *)
Definition _abbreviate_path (p : path) (max_len : Z) : string :=
  let path_str := Path.str p in
  if Z.of_nat (String.length path_str) <=? max_len then path_str
  else if Z.of_nat (1 + length p) <=? 2 then "..." +:+ string_slice_from path_str (- (max_len - 3))
  else
    let first := "/" in
    let last := Path.name p in
    let chrome_len :=
      Z.of_nat (String.length first) + Z.of_nat (String.length last) + 1 * 2 + 3 in
    if max_len <? chrome_len then "..." +:+ string_slice_from path_str (- (max_len - 3))
    else first +:+ "..." +:+ "/" +:+ last.

(** [_get_layout] for a terminal of [w] columns. *)
Record layout := mkLayout {
  orig_w : Z;
  preview_x : Z;
  preview_w : Z;
  status_x : Z;
  status_w : Z;
  info_x : Z;
  info_w : Z
}.

Definition _get_layout (w : Z) : layout :=
  let info_w := 24 in
  let status_w := 12 in
  let sep_len := 3 in
  let info_x := Z.max (w - info_w) 0 in
  let status_x := Z.max (info_x - sep_len - status_w) 0 in
  let orig_x := 2 in
  let middle_area_w := Z.max (status_x - sep_len - orig_x) 0 in
  let orig_w := middle_area_w * 2 / 5 in
  let preview_w := middle_area_w - orig_w in
  let preview_x := orig_x + orig_w + sep_len in
  {| orig_w := Z.max 0 orig_w; preview_x := preview_x; preview_w := Z.max 0 preview_w;
     status_x := status_x; status_w := Z.max 0 status_w;
     info_x := info_x; info_w := Z.max 0 info_w |}.

(** The attributes of a text: reverse video, bold, and the colour pair
    (0 for none). *)
Record attr := mkAttr {
  a_reverse : bool;
  a_bold : bool;
  a_pair : Z
}.

(** A call of [stdscr.addstr(y, x, s, attr)]. *)
Record call := mkCall {
  c_y : Z;
  c_x : Z;
  c_text : text;
  c_attr : attr
}.

(** Whether a call of [addstr] succeeds; otherwise it raises
    [curses.error]. *)
Definition screen := call → bool.

(** The calls of a [try] block made of calls of [addstr] only, up to the
    first one that raises. *)
Fixpoint attempt (ok : screen) (calls : list call) : list call :=
  match calls with
  | [] => []
  | c :: rest => if ok c then c :: attempt ok rest else [c]
  end.

(** [p.with_suffix(suffix)] *)
Definition with_suffix (p : path) (suffix : string) : result path :=
  if bool_decide (Path.name p = "") then Raise ValueError
  else Ok (Path.parent p ++ [Path.stem p +:+ suffix]).

(** The text of a status, as stored in [self.statuses]. *)
Definition status_name (st : Status) : string :=
  match st with
  | PENDING => "PENDING"
  | QUEUED => "QUEUED"
  | SANITIZING => "SANITIZING"
  | CONVERTING => "CONVERTING"
  | SUCCESS => "SUCCESS"
  | FAILED => "FAILED"
  end.

(** [color_map.get(status_text, 4)] *)
Definition status_color (status_text : string) : Z :=
  if bool_decide (status_text ∈ ["PENDING"; "SKIPPED"; "IGNORED"]) then 5
  else if bool_decide (status_text = "SELECTED") then 3
  else if bool_decide (status_text = "QUEUED") then 8
  else if bool_decide (status_text ∈ ["CONVERTING"; "SANITIZING"]) then 7
  else if bool_decide (status_text = "SUCCESS") then 2
  else 4.

(** The body of the loop of [draw_file_list] for the row [y]: the calls
    made, the last of them being the one that raised [curses.error] if
    one did. *)
Definition draw_row (ok : screen) (lay : layout) (s : JxlConverterTUI) (w y : Z)
    (highlighted : bool) (original_idx : nat) (file_path : path) : result (list call) :=
  let status_info := statuses s !! original_idx in
  let attr := mkAttr highlighted false 0 in
  let c1 := mkCall y 0 (blanks (w - 1)) attr in
  if negb (ok c1) then Ok [c1]
  else
    let display_orig := clip (codes (Path.name file_path)) (orig_w lay) in
    let c2 := mkCall y 2 (ljust display_orig (orig_w lay)) attr in
    if negb (ok c2) then Ok [c1; c2]
    else
      let select_char := if bool_decide (original_idx ∈ selected s) then "*" else " " in
      default_target ← with_suffix file_path ".jxl";
      let target_path := default default_target (status_info ≫= r_target_path) in
      let new_name := select_char +:+ " " +:+ Path.name target_path in
      let preview_attr :=
        mkAttr highlighted false (if bool_decide (original_idx ∈ selected s) then 3 else 0) in
      let display_new := clip (codes new_name) (preview_w lay) in
      let c3 := mkCall y (preview_x lay) (ljust display_new (preview_w lay)) preview_attr in
      if negb (ok c3) then Ok [c1; c2; c3]
      else
        let status_text := from_option (λ r, status_name (r_status r)) "ERROR" status_info in
        let status_text :=
          if bool_decide (original_idx ∈ selected s) && bool_decide (status_text = "PENDING")
          then "SELECTED" else status_text in
        let status_attr := mkAttr highlighted false (status_color status_text) in
        let c4 := mkCall y (status_x lay) (ljust (codes status_text) (status_w lay))
                    status_attr in
        if negb (ok c4) then Ok [c1; c2; c3; c4]
        else
          let info_text := from_option r_info_str "" status_info in
          let display_info := clip (codes info_text) (info_w lay) in
          let c5 := mkCall y (info_x lay) (ljust display_info (info_w lay)) status_attr in
          Ok [c1; c2; c3; c4; c5].

(** The loop [for i in range(max_rows)] of [draw_file_list], from row
    [i] on, with [fuel] iterations left. *)
Fixpoint draw_rows (ok : screen) (lay : layout) (s : JxlConverterTUI) (w : Z)
    (visible_files : list (nat * path)) (i : Z) (fuel : nat) : result (list call) :=
  match fuel with
  | O => Ok []
  | S fuel' =>
      let y := 2 + i in
      if Z.of_nat (length visible_files) <=? i + scroll_offset s then Ok []
      else
        match py_index visible_files (i + scroll_offset s) with
        | None => Raise IndexError
        | Some (original_idx, file_path) =>
            row ← draw_row ok lay s w y (bool_decide (i + scroll_offset s = current_row s))
                     original_idx file_path;
            rest ← draw_rows ok lay s w visible_files (i + 1) fuel';
            Ok (row ++ rest)
        end
  end.

(** [draw_file_list(h, w, visible_files)] on a terminal of [h] lines and
    [w] columns: the calls of [addstr] it makes. *)
Definition draw_file_list (ok : screen) (s : JxlConverterTUI) (h w : Z)
    (visible_files : list (nat * path)) : result (list call) :=
  let lay := _get_layout w in
  let header_attr := mkAttr false true 2 in
  let header :=
    attempt ok
      [mkCall 1 0 (blanks (w - 1)) header_attr;
       mkCall 1 2 (codes "Original") header_attr;
       mkCall 1 (preview_x lay) (codes "Target JXL (*=Selected)") header_attr;
       mkCall 1 (status_x lay) (codes "Status") header_attr;
       mkCall 1 (info_x lay) (codes "Info / Savings") header_attr] in
  let max_rows := h - 5 in
  rows ← draw_rows ok lay s w visible_files 0 (Z.to_nat max_rows);
  Ok (header ++ rows).

(** [_draw_key_helper(y, x, key, text, is_active)]: the calls made and
    the column returned. *)
Definition _draw_key_helper (ok : screen) (y x : Z) (key text : string) (is_active : bool)
    : list call * Z :=
  let key_attr := if is_active then mkAttr false true 6 else mkAttr false false 2 in
  let text_attr := if is_active then mkAttr false true 3 else mkAttr false false 5 in
  (attempt ok
     [mkCall y x (codes ("(" +:+ key +:+ ")")) key_attr;
      mkCall y (x + Z.of_nat (String.length key) + 2) (codes text) text_attr],
   x + Z.of_nat (String.length ("(" +:+ key +:+ ") " +:+ text)) + 2).

(** The toggles of the footer; [debug_enabled] is the attribute of that
    name. *)
Definition footer_toggles (s : JxlConverterTUI) (debug_enabled : bool)
    : list (string * string * bool) :=
  [("Q", "Qual:" +:+ pretty (quality s), false);
   ("E", "Eff:" +:+ pretty (effort s), false);
   ("R", "Recur", recursive s);
   ("D", "DelOrig", delete_originals s);
   ("O", "Out Dir", bool_decide (output_dir s ≠ None));
   ("B", "Bug Log", debug_enabled)]
  ++ (if bool_decide (failed_indices s = ∅) then []
      else [("F", "Filter Failed", show_only_failed s)]).

(** The loop of [draw_footer] over the toggles, from column [x] on. *)
Fixpoint draw_toggles (ok : screen) (w y x : Z) (toggles : list (string * string * bool))
    : list call :=
  match toggles with
  | [] => []
  | (key, text, is_active) :: rest =>
      if w <? x + Z.of_nat (String.length key) + Z.of_nat (String.length text) + 5 then []
      else
        let '(calls, x') := _draw_key_helper ok y x key text is_active in
        calls ++ draw_toggles ok w y x' rest
  end.

(** ** Vocabulary and inputs of the further properties *)

(** [p.unlink(missing_ok=True)] would succeed on [d]. *)
Definition removable (d : fs) (p : path) : bool :=
  match d !! p with
  | None => true
  | Some (File _) => Fs.parent_writable d p
  | Some (Dir _) => false
  end.

(** A sanitizer that writes its intermediate file and an encoder that
    fails with a message of two lines. *)
Definition failing_after_sanitize : process := λ cmd d,
  if bool_decide (head cmd = Some "/usr/bin/magick")
  then Exited 0 "" (<[ ["tmp"; "sanitized_a.jpg.png"] := File 4000 ]> d)
  else Exited 1 "warning: odd header
error: cannot decode
" d.

(** The indices in use are indices of [self.files]: the keys of
    [self.statuses] are exactly the positions of the list, and the
    selected and the failed indices are among them. *)
Definition indexed (s : JxlConverterTUI) : Prop :=
  (∀ i, is_Some (statuses s !! i) ↔ (i < length (files s))%nat)
  ∧ (∀ i, i ∈ selected s → (i < length (files s))%nat)
  ∧ (∀ i, i ∈ failed_indices s → (i < length (files s))%nat).

(** The entries of a list of visible files are entries of [self.files]. *)
Definition listed (s : JxlConverterTUI) (visible_files : list (nat * path)) : Prop :=
  Forall (λ entry, files s !! entry.1 = Some entry.2) visible_files.

(** The list of visible files of [photo_world], and an inventory without
    files. *)
Definition photo_visible : list (nat * path) :=
  [(0%nat, ["in"; "a"; "photo.png"]); (1%nat, ["in"; "b"; "photo.png"])].

Definition empty_world : world := demo_world (demo_state [] ∅ (Some ["out"]) false) photo_disk.

(** A call of [addstr] that lies on line [y] and within [w] columns. *)
Definition on_line (w y : Z) (c : call) : Prop :=
  c_y c = y ∧ 0 ≤ c_x c ∧ c_x c + Z.of_nat (length (c_text c)) ≤ w.

(** The columns a toggle of the footer takes, and those of a list of
    toggles. *)
Definition toggle_width (t : string * string * bool) : Z :=
  Z.of_nat (String.length t.1.1) + Z.of_nat (String.length t.1.2) + 5.

Definition toggles_width (toggles : list (string * string * bool)) : Z :=
  foldr (λ t acc, toggle_width t + acc) 0 toggles.

(** What the aggregator adds up for one message whose index is a key of
    [self.statuses]. *)
Definition tally (update : Update) (s : JxlConverterTUI) : JxlConverterTUI :=
  match u_status update with
  | SUCCESS =>
      let b_before := default 0 (u_size_before update) in
      let b_after := default 0 (u_size_after update) in
      let s := with_conversions_success (conversions_success s + 1) s in
      if negb (b_before =? 0) && negb (b_after =? 0)
      then with_total_bytes_after (total_bytes_after s + b_after)
             (with_total_bytes_before (total_bytes_before s + b_before) s)
      else s
  | FAILED =>
      with_failed_indices ({[ u_idx update ]} ∪ failed_indices s)
        (with_conversions_failed (conversions_failed s + 1) s)
  | _ => s
  end.

(** The messages of a list that carry the status [st] and an index among
    [known]. *)
Definition with_status (st : Status) (known : gset nat) (pending : list Update)
    : list Update :=
  filter (λ update, u_status update = st ∧ u_idx update ∈ known) pending.

(** The status of the last message for [idx], or [st] if there is none. *)
Definition latest_status (idx : nat) (st : Status) (pending : list Update) : Status :=
  foldl (λ st update, if bool_decide (u_idx update = idx) then u_status update else st)
    st pending.

(** The batch of [photo_world] with four messages waiting: the first file
    is being converted and succeeds, the second fails, and one message is
    for an index that is no key of [self.statuses]. *)
Definition stale_messages : world :=
  set_self
    (with_status_queue
       [mkUpdate 0 CONVERTING None None None;
        mkUpdate 0 SUCCESS None (Some 100) (Some 60);
        mkUpdate 7 FAILED (Some "gone") None None;
        mkUpdate 1 FAILED (Some "bad header") None None]
       (self photo_started))
    photo_started.

(** ** Strings and paths *)

Lemma string_app_length (s t : string) :
  String.length (s +:+ t) = (String.length s + String.length t)%nat.
Proof. induction s as [|c s IH]; simpl; [done | by rewrite IH]. Qed.

Lemma string_app_inj_r (t s1 s2 : string) : s1 +:+ t = s2 +:+ t → s1 = s2.
Proof.
  revert s2. induction s1 as [|c s1 IH]; intros [|c2 s2] H.
  - done.
  - apply (f_equal String.length) in H. rewrite !string_app_length in H. simpl in H. lia.
  - apply (f_equal String.length) in H. rewrite !string_app_length in H. simpl in H. lia.
  - change (String ?a ?x +:+ t) with (String a (x +:+ t)) in H.
    injection H as -> H. f_equal. by apply IH.
Qed.

Lemma string_app_nil_r (s : string) : s +:+ "" = s.
Proof.
  induction s as [|c s IH]; [done|].
  change (String c s +:+ "") with (String c (s +:+ "")). by rewrite IH.
Qed.

Lemma string_app_assoc (s t u : string) : (s +:+ t) +:+ u = s +:+ t +:+ u.
Proof.
  induction s as [|c s IH]; [done|].
  change (String c s +:+ t) with (String c (s +:+ t)).
  change (String c ?x +:+ ?y) with (String c (x +:+ y)). by rewrite IH.
Qed.

Lemma str_parts_snoc (p : path) (c : string) :
  Path.str_parts (p ++ [c]) = Path.str_parts p +:+ "/" +:+ c.
Proof.
  induction p as [|a p IH]; simpl.
  - by rewrite string_app_nil_r.
  - by rewrite IH, !string_app_assoc.
Qed.

Lemma str_snoc (p : path) (c : string) :
  Path.str (p ++ [c]) = Path.str_parts p +:+ "/" +:+ c.
Proof. rewrite <- str_parts_snoc. by destruct p. Qed.

Lemma candidate_eq dir stem n : candidate dir stem n = dir ++ [candidate_name stem n].
Proof. by destruct n. Qed.

Lemma candidate_name_inj stem : Inj (=) (=) (candidate_name stem).
Proof.
  intros [|n] [|m] H; unfold candidate_name in H;
    apply (inj (String.append stem)) in H; try done.
  change ("-" +:+ ?x) with (String "-" x) in H.
  injection H as H. apply string_app_inj_r in H. by apply (inj pretty) in H.
Qed.

Lemma candidate_inj dir stem : Inj (=) (=) (candidate dir stem).
Proof.
  intros n m H. rewrite !candidate_eq in H.
  apply app_inv_head in H. injection H as H. by apply candidate_name_inj in H.
Qed.

Lemma candidate_str_inj dir stem n m :
  Path.str (candidate dir stem n) = Path.str (candidate dir stem m) → n = m.
Proof.
  rewrite !candidate_eq, !str_snoc. intros H.
  apply (inj (String.append _)) in H. apply (inj (String.append _)) in H.
  by apply candidate_name_inj in H.
Qed.

(** ** The resolver *)

Lemma taken_false d (E : gset string) p :
  taken d E p = false ↔ (Path.str p ∉ E) ∧ d !! p = None.
Proof.
  unfold taken, Fs.exists_. rewrite orb_false_iff, !bool_decide_eq_false.
  by rewrite <- eq_None_not_Some.
Qed.

Lemma taken_true d (E : gset string) p :
  taken d E p = true ↔ Path.str p ∈ E ∨ is_Some (d !! p).
Proof.
  unfold taken, Fs.exists_. by rewrite orb_true_iff, !bool_decide_eq_true.
Qed.

(** Pigeonhole: the candidates are pairwise different, so at most
    [size E + size d] of them are taken. *)
Lemma free_candidate dir stem (m : nat) : ∀ (E : gset string) (d : fs) (k : nat),
  (size E + size d ≤ m)%nat →
  ∃ j, (k ≤ j ≤ k + m)%nat ∧ taken d E (candidate dir stem j) = false.
Proof.
  induction m as [|m IH]; intros E d k Hm.
  - exists k. split; [lia|]. apply taken_false.
    assert (size E = 0%nat) as HE by lia. assert (size d = 0%nat) as Hd by lia.
    apply size_empty_inv in HE. apply map_size_empty_inv in Hd. subst d.
    split; [set_solver | apply lookup_empty].
  - destruct (taken d E (candidate dir stem k)) eqn:Hk; [|exists k; split; [lia | done]].
    apply taken_true in Hk as [Hk|Hk].
    + destruct (IH (E ∖ {[Path.str (candidate dir stem k)]}) d (S k)) as (j & Hj & Hfree).
      { assert (size (E ∖ {[Path.str (candidate dir stem k)]}) = size E - 1)%nat.
        { rewrite size_difference by set_solver. by rewrite size_singleton. }
        assert (size E ≠ 0)%nat
          by (intros H0; apply size_empty_inv in H0; set_solver).
        lia. }
      exists j. split; [lia|]. apply taken_false in Hfree as [Hnot Hd].
      apply taken_false. split; [|done]. intros Hin. apply Hnot.
      apply elem_of_difference. split; [done|]. rewrite elem_of_singleton.
      intros Heq. apply candidate_str_inj in Heq. lia.
    + destruct Hk as [x Hx].
      destruct (IH E (delete (candidate dir stem k) d) (S k)) as (j & Hj & Hfree).
      { pose proof (map_size_delete_Some _ _ (mk_is_Some _ _ Hx)) as Hs.
        assert (size d ≠ 0)%nat.
        { intros H0. apply map_size_empty_inv in H0. subst d. by rewrite lookup_empty in Hx. }
        lia. }
      exists j. split; [lia|]. apply taken_false in Hfree as [Hnot Hd].
      apply taken_false. split; [done|].
      rewrite lookup_delete_ne in Hd; [done|].
      intros Heq. apply candidate_inj in Heq. lia.
Qed.

Lemma probe_spec dir stem d (E : gset string) (fuel : nat) : ∀ k : nat,
  (∃ j, (k ≤ j < k + fuel)%nat ∧ taken d E (candidate dir stem j) = false) →
  ∃ n, (k ≤ n)%nat
     ∧ probe d E dir stem fuel (candidate dir stem k) (S k) = candidate dir stem n
     ∧ taken d E (candidate dir stem n) = false
     ∧ ∀ i, (k ≤ i < n)%nat → taken d E (candidate dir stem i) = true.
Proof.
  induction fuel as [|fuel IH]; intros k (j & Hj & Hfree); [lia|].
  simpl. destruct (taken d E (candidate dir stem k)) eqn:Hk.
  - destruct (IH (S k)) as (n & Hn & Hp & Hf & Hall).
    { exists j. split; [|done]. destruct (decide (j = k)) as [->|]; [congruence | lia]. }
    exists n. split; [lia|]. split; [exact Hp|]. split; [done|].
    intros i Hi. destruct (decide (i = k)) as [->|]; [done | apply Hall; lia].
  - exists k. split; [lia|]. split; [done|]. split; [done|]. intros; lia.
Qed.





Lemma resolver_spec in_path (E : gset string) w d' :
  Fs.mkdir (disk w) (target_dir_of (self w) in_path) = Ok d' →
  ∃ n, _get_unique_target_path in_path E w
         = (Ret (candidate (target_dir_of (self w) in_path) (Path.stem in_path) n),
            set_disk d' w)
     ∧ taken d' E (candidate (target_dir_of (self w) in_path) (Path.stem in_path) n) = false
     ∧ ∀ i, (i < n)%nat →
         taken d' E (candidate (target_dir_of (self w) in_path) (Path.stem in_path) i) = true.
Proof.
  intros Hmk.
  destruct (probe_spec (target_dir_of (self w) in_path) (Path.stem in_path) d' E
              (S (size E + size d')) 0) as (n & _ & Hp & Hf & Hall).
  { destruct (free_candidate (target_dir_of (self w) in_path) (Path.stem in_path)
                (size E + size d') E d' 0) as (j & Hj & Hfree); [lia|].
    exists j. split; [lia | done]. }
  exists n. split; [|split; [done | intros; apply Hall; lia]].
  unfold _get_unique_target_path, mbind, M_bind, gets, on_disk, get_disk, mret, M_ret.
  simpl. rewrite Hmk. simpl. by rewrite <- Hp.
Qed.

Lemma resolver_raises in_path (E : gset string) w e :
  Fs.mkdir (disk w) (target_dir_of (self w) in_path) = Raise e →
  _get_unique_target_path in_path E w = (Exc e, w).
Proof.
  intros Hmk.
  unfold _get_unique_target_path, mbind, M_bind, gets, on_disk, get_disk, mret, M_ret.
  simpl. by rewrite Hmk.
Qed.

(** ** Reasoning about computations in [M] *)

Lemma bind_Ret {A B} (m : M A) (f : A → M B) w b w' :
  (m ≫= f) w = (Ret b, w') → ∃ a w1, m w = (Ret a, w1) ∧ f a w1 = (Ret b, w').
Proof.
  unfold mbind, M_bind. destruct (m w) as [[a| |] w1]; [eauto | done | done].
Qed.

Lemma bind_Ret_intro {A B} (m : M A) (f : A → M B) w a w1 :
  m w = (Ret a, w1) → (m ≫= f) w = f a w1.
Proof. unfold mbind, M_bind. by intros ->. Qed.

Lemma bind_Exc_intro {A B} (m : M A) (f : A → M B) w e w1 :
  m w = (Exc e, w1) → (m ≫= f) w = (Exc e, w1).
Proof. unfold mbind, M_bind. by intros ->. Qed.

Lemma gets_Ret {A} (f : JxlConverterTUI → A) w a w' :
  gets f w = (Ret a, w') → a = f (self w) ∧ w' = w.
Proof. unfold gets. naive_solver. Qed.

Lemma modify_Ret f w u w' :
  modify f w = (Ret u, w') → w' = set_self (f (self w)) w.
Proof. unfold modify. naive_solver. Qed.

Lemma subscript_Ret {A} (o : option A) e w a w' :
  subscript o e w = (Ret a, w') → o = Some a ∧ w' = w.
Proof. destruct o; unfold subscript, mret, M_ret, raise; naive_solver. Qed.

Lemma with_record_Ret idx f w w' :
  with_record idx f w = (Ret tt, w') →
  ∃ r, statuses (self w) !! idx = Some r
     ∧ w' = set_self (with_statuses (<[idx := f r]> (statuses (self w))) (self w)) w.
Proof.
  unfold with_record. intros (st & w1 & [-> ->]%gets_Ret & H)%bind_Ret.
  apply bind_Ret in H as (r & w2 & [H2 ->]%subscript_Ret & H).
  apply modify_Ret in H as ->. eauto.
Qed.

(** ** The batch builder *)


Lemma build_tasks_frame b idxs : ∀ tasks (E : gset string) w r w',
  build_tasks b idxs tasks E w = (Ret r, w') →
  ∃ st' d', w' = set_disk d' (set_self (with_statuses st' (self w)) w).
Proof.
  induction idxs as [|idx rest IH]; intros tasks E w r w' H; simpl in H.
  - unfold mret, M_ret in H. injection H as <- <-.
    exists (statuses (self w)), (disk w). by destruct w as [[] ? ? ? ?].
  - apply bind_Ret in H as (fl & w1 & [-> ->]%gets_Ret & H).
    apply bind_Ret in H as (input_path & w1 & [Hin ->]%subscript_Ret & H).
    apply bind_Ret in H as (target_path & w2 & H2 & H).
    destruct (Fs.mkdir (disk w) (target_dir_of (self w) input_path)) as [d'|e] eqn:Hmk;
      [|by rewrite (resolver_raises _ _ _ _ Hmk) in H2].
    destruct (resolver_spec input_path E w d' Hmk) as (n & Hres & _).
    rewrite Hres in H2. injection H2 as <- <-.
    apply bind_Ret in H as ([] & w3 & (r0 & Hr & ->)%with_record_Ret & H).
    apply IH in H as (st' & d2 & ->). by exists st', d2.
Qed.





(** ** C1: target paths are unique *)



(** The scenario of the specification: the second [photo.png] gets
    [photo-1.jxl]. *)
Example photo_targets :
  map t_target_path (conversion_queue (self (_start_conversion_session false photo_world).2))
  = [["out"; "photo.jxl"]; ["out"; "photo-1.jxl"]].
Proof. vm_compute. reflexivity. Qed.

(** ** C7: a directory that cannot be created *)

Lemma bind_assoc {A B C} (m : M A) (f : A → M B) (g : B → M C) w :
  ((m ≫= f) ≫= g) w = (m ≫= (λ a, f a ≫= g)) w.
Proof. unfold mbind, M_bind. by destruct (m w) as [[a|e|] w1]. Qed.

Lemma bind_ext {A B} (m : M A) (f g : A → M B) w :
  (∀ a w1, f a w1 = g a w1) → (m ≫= f) w = (m ≫= g) w.
Proof. intros H. unfold mbind, M_bind. by destruct (m w) as [[a|e|] w1]. Qed.

Lemma build_tasks_app b pre rest : ∀ tasks (E : gset string) w,
  build_tasks b (pre ++ rest) tasks E w
  = (build_tasks b pre tasks E ≫= λ r, build_tasks b rest r.1 r.2) w.
Proof.
  induction pre as [|idx pre IH]; intros tasks E w; simpl; [done|].
  rewrite bind_assoc. apply bind_ext. intros fl w1.
  rewrite bind_assoc. apply bind_ext. intros input_path w2.
  rewrite bind_assoc. apply bind_ext. intros target_path w3.
  rewrite bind_assoc. apply bind_ext. intros [] w4. apply IH.
Qed.

(** C7 (amended). When the target directory of a selected file cannot be
    created, the error of the resolver leaves the batch build as a whole:
    [_start_conversion_session] raises it, no task is enqueued, not even
    for the files resolved before, and no batch becomes active. *)
Theorem C7_mkdir_failure_aborts_batch
    is_sanitize_run w w0 pre idx rest built w1 in_path e :
  is_converting (self w) = false →
  selected (self w) ≠ ∅ →
  missing (cjxl_cmd (self w)) = false →
  (if delete_originals (self w) && negb is_sanitize_run
   then ConfirmationDialog_run "Delete originals is ON. Proceed? (y/n)"
   else mret true) w = (Ret true, w0) →
  merge_sort (≤)%nat (elements (selected (self w))) = pre ++ idx :: rest →
  build_tasks is_sanitize_run pre [] ∅ w0 = (Ret built, w1) →
  files (self w1) !! idx = Some in_path →
  Fs.mkdir (disk w1) (target_dir_of (self w1) in_path) = Raise e →
  _start_conversion_session is_sanitize_run w = (Exc e, w1)
  ∧ conversion_queue (self w1) = conversion_queue (self w)
  ∧ is_converting (self w1) = false.
Proof.
  intros Hconv Hsel Hcjxl Hdlg Hsort Hpre Hfile Hmk.
  assert (self w0 = self w) as Hs0.
  { destruct (delete_originals (self w) && negb is_sanitize_run).
    - unfold ConfirmationDialog_run in Hdlg.
      destruct (ConfirmationDialog_loop (tty w)) as [o r]. by injection Hdlg as -> <-.
    - unfold mret, M_ret in Hdlg. by injection Hdlg as <-. }
  destruct (build_tasks_frame _ _ _ _ _ _ _ Hpre) as (st' & d' & Hw1).
  split; [|split; [by rewrite Hw1, <- Hs0 | by rewrite Hw1; simpl; rewrite Hs0]].
  unfold _start_conversion_session.
  erewrite bind_Ret_intro by reflexivity. unfold id.
  rewrite Hconv. rewrite bool_decide_eq_false_2 by done. rewrite Hcjxl.
  erewrite bind_Ret_intro by exact Hdlg. simpl.
  apply bind_Exc_intro. rewrite Hsort, build_tasks_app.
  erewrite bind_Ret_intro by exact Hpre. simpl.
  erewrite bind_Ret_intro by reflexivity.
  rewrite Hfile. erewrite bind_Ret_intro by reflexivity.
  apply bind_Exc_intro. by apply resolver_raises.
Qed.

Lemma C7_witness :
  _start_conversion_session false denied_world
    = (Exc PermissionError, (build_tasks false [0%nat] [] ∅ denied_world).2)
  ∧ conversion_queue (self (build_tasks false [0%nat] [] ∅ denied_world).2)
    = conversion_queue (self denied_world)
  ∧ is_converting (self (build_tasks false [0%nat] [] ∅ denied_world).2) = false.
Proof.
  apply (C7_mkdir_failure_aborts_batch false denied_world denied_world
           [0%nat] 1%nat [] ([mkTask 0 ["out"; "a.jxl"] false], {[ "/out/a.jxl" ]})
           _ ["in"; "sub"; "b.png"] PermissionError);
    try (vm_compute; reflexivity); try done.
Defined.

(** C7, as stated, fails: the directory of the first file exists and the
    one of the second cannot be created, yet no task is enqueued for the
    first file either: the call raises. *)
Lemma C7_counterexample :
  Fs.mkdir denied_disk (target_dir_of (self denied_world) ["in"; "a.png"]) = Ok denied_disk
  ∧ Fs.mkdir denied_disk (target_dir_of (self denied_world) ["in"; "sub"; "b.png"])
    = Raise PermissionError
  ∧ (_start_conversion_session false denied_world).1 = Exc PermissionError
  ∧ conversion_queue (self (_start_conversion_session false denied_world).2) = [].
Proof. vm_compute. repeat split; reflexivity. Qed.

(** ** Rounding to 53 bits *)

Lemma round_half_even_exact q d : 0 < d → round_half_even (q * d) d = q.
Proof.
  intros Hd. unfold round_half_even.
  rewrite Z.div_mul, Z.mod_mul by lia.
  destruct (2 * 0 <? d) eqn:E; [done|]. apply Z.ltb_ge in E. lia.
Qed.

Lemma round_half_even_bounds lo hi n d :
  0 < d → lo * d ≤ n → n < hi * d → lo ≤ round_half_even n d ≤ hi.
Proof.
  intros Hd Hlo Hhi. unfold round_half_even.
  assert (lo ≤ n / d) by (apply Z.div_le_lower_bound; lia).
  assert (n / d < hi) by (apply Z.div_lt_upper_bound; lia).
  repeat case_match; lia.
Qed.

Lemma pow2_pos k : 0 < 2 ^ k ∨ k < 0.
Proof. destruct (Z_lt_le_dec k 0); [by right | left; by apply Z.pow_pos_nonneg]. Qed.

(** Dividing a positive integer by a power of two: the result is
    normalised, its exponent is at least [log2 z - k - 52], and the division
    is exact when [z] has at most 53 bits. *)
Lemma round53_pow2 z k :
  0 < z → 0 ≤ k →
  ∃ m e, round53 z (2 ^ k) = mkFloat m e
       ∧ 2 ^ 52 ≤ m < 2 ^ 53
       ∧ Z.log2 z - k - 52 ≤ e
       ∧ (z < 2 ^ 53 → e = Z.log2 z - k - 52 ∧ m = z * 2 ^ (52 - Z.log2 z)).
Proof.
  intros Hz Hk.
  pose proof (Z.log2_spec z Hz) as [Hlo Hhi].
  pose proof (Z.log2_nonneg z) as Hla.
  set (la := Z.log2 z) in *.
  assert (0 < 2 ^ k) as Hpk by (by apply Z.pow_pos_nonneg).
  unfold round53.
  destruct (z =? 0) eqn:E0; [apply Z.eqb_eq in E0; lia|]. clear E0.
  rewrite Z.abs_eq by lia. rewrite Z.sgn_pos by lia. rewrite Z.log2_pow2 by lia.
  fold la.
  (* the first quotient has 54 bits *)
  assert (let '(n0, d0) := scaled z (2 ^ k) (la - k - 53) in (n0 / d0 <? 2 ^ 53) = false) as H0.
  { unfold scaled. destruct (0 <=? la - k - 53) eqn:Es.
    - apply Z.leb_le in Es. apply Z.ltb_ge.
      rewrite <- Z.pow_add_r by lia. replace (k + (la - k - 53)) with (la - 53) by lia.
      apply Z.div_le_lower_bound; [apply Z.pow_pos_nonneg; lia|].
      rewrite <- Z.pow_add_r by lia. by replace (la - 53 + 53) with la by lia.
    - apply Z.leb_gt in Es. apply Z.ltb_ge.
      apply Z.div_le_lower_bound; [done|].
      replace (- (la - k - 53)) with (53 + k - la) by lia.
      rewrite <- Z.pow_add_r by lia.
      replace (2 ^ (k + 53)) with (2 ^ la * 2 ^ (53 + k - la))
        by (rewrite <- Z.pow_add_r by lia; f_equal; lia).
      apply Z.mul_le_mono_nonneg_r; [apply Z.pow_nonneg; lia | done]. }
  destruct (scaled z (2 ^ k) (la - k - 53)) as [n0 d0]. rewrite H0. clear H0 n0 d0.
  replace (la - k - 53 + 1) with (la - k - 52) by lia.
  (* the mantissa *)
  assert (let '(n, d) := scaled z (2 ^ k) (la - k - 52) in
          2 ^ 52 ≤ round_half_even n d ≤ 2 ^ 53
          ∧ (z < 2 ^ 53 → round_half_even n d = z * 2 ^ (52 - la))) as H1.
  { unfold scaled. destruct (0 <=? la - k - 52) eqn:Es.
    - apply Z.leb_le in Es.
      rewrite <- Z.pow_add_r by lia. replace (k + (la - k - 52)) with (la - 52) by lia.
      split.
      + apply round_half_even_bounds; [apply Z.pow_pos_nonneg; lia| |];
          rewrite <- Z.pow_add_r by lia.
        * by replace (52 + (la - 52)) with la by lia.
        * by replace (53 + (la - 52)) with (Z.succ la) by lia.
      + intros Hsmall.
        assert (la < 53) by (apply Z.log2_lt_pow2; lia).
        replace la with 52 by lia. simpl. unfold round_half_even.
        rewrite Z.div_1_r, Z.mod_1_r. simpl. lia.
    - apply Z.leb_gt in Es.
      replace (- (la - k - 52)) with (52 + k - la) by lia.
      split.
      + apply round_half_even_bounds; [done| |].
        * replace (2 ^ 52 * 2 ^ k) with (2 ^ la * 2 ^ (52 + k - la))
            by (rewrite <- !Z.pow_add_r by lia; f_equal; lia).
          apply Z.mul_le_mono_nonneg_r; [apply Z.pow_nonneg; lia | done].
        * replace (2 ^ 53 * 2 ^ k) with (2 ^ Z.succ la * 2 ^ (52 + k - la))
            by (rewrite <- !Z.pow_add_r by lia; f_equal; lia).
          apply Z.mul_lt_mono_pos_r; [apply Z.pow_pos_nonneg; lia | done].
      + intros Hsmall.
        assert (la < 53) by (apply Z.log2_lt_pow2; lia).
        replace (z * 2 ^ (52 + k - la)) with (z * 2 ^ (52 - la) * 2 ^ k).
        * by apply round_half_even_exact.
        * rewrite <- Z.mul_assoc, <- Z.pow_add_r by lia. do 2 f_equal. lia. }
  destruct (scaled z (2 ^ k) (la - k - 52)) as [n d].
  destruct H1 as [Hm Hexact].
  destruct (round_half_even n d =? 2 ^ 53) eqn:Em.
  - apply Z.eqb_eq in Em. exists (2 ^ 52), (la - k - 52 + 1).
    split; [f_equal; lia|]. split; [lia|]. split; [lia|].
    intros Hsmall. specialize (Hexact Hsmall).
    assert (la < 53) by (apply Z.log2_lt_pow2; lia).
    assert (z * 2 ^ (52 - la) < 2 ^ 53); [|lia].
    replace (2 ^ 53) with (2 ^ Z.succ la * 2 ^ (52 - la))
      by (rewrite <- Z.pow_add_r by lia; f_equal; lia).
    apply Z.mul_lt_mono_pos_r; [apply Z.pow_pos_nonneg; lia | done].
  - apply Z.eqb_neq in Em. exists (round_half_even n d), (la - k - 52).
    split; [f_equal; lia|]. split; [lia|]. split; [lia|]. intros Hsmall. split; [done | auto].
Qed.

(** ** C10: the units of [_format_bytes] *)

Lemma size_power_labels : size power_labels = 5%nat.
Proof. reflexivity. Qed.

Lemma float_of_int_1024 : float_of_int 1024 = mkFloat (2 ^ 52) (-42).
Proof. reflexivity. Qed.

(** A normalised float divided by 1024: the exponent drops by ten. *)
Lemma num_div_1024 m e :
  2 ^ 52 ≤ m < 2 ^ 53 →
  num_div (Flt (mkFloat m e)) 1024 = Flt (mkFloat m (e - 10)).
Proof.
  intros Hm. unfold num_div, fdiv. rewrite float_of_int_1024.
  cbn [fm fe]. change (Z.sgn (2 ^ 52)) with 1. change (Z.abs (2 ^ 52)) with (2 ^ 52).
  rewrite Z.mul_1_r.
  destruct (round53_pow2 m 52) as (m' & e' & -> & _ & _ & Hexact); [lia..|].
  destruct Hexact as [-> ->]; [lia|].
  assert (Z.log2 m = 52) as -> by (apply Z.log2_unique; lia).
  unfold fshift. cbn [fm fe]. f_equal. f_equal; lia.
Qed.

(** A normalised float is at least 1024 exactly when its exponent is at
    least -42. *)
Lemma num_ge_1024 m e :
  2 ^ 52 ≤ m < 2 ^ 53 →
  num_ge (Flt (mkFloat m e)) (Int 1024) = bool_decide (-42 ≤ e).
Proof.
  intros Hm. unfold num_ge, num_compare, fcompare. cbn [fm fe].
  destruct (Z_le_gt_dec 0 e) as [He|He].
  - rewrite Z.min_r by lia. rewrite Z.sub_0_r. rewrite bool_decide_eq_true_2 by lia.
    assert (1 ≤ 2 ^ e) by (apply (Z.pow_le_mono_r 2 0 e); lia).
    destruct (m * 2 ^ e ?= 1024 * 2 ^ (0 - 0)) eqn:E; try done.
    rewrite Z.compare_lt_iff in E. change (2 ^ (0 - 0)) with 1 in E.
    assert (m * 1 ≤ m * 2 ^ e) by (apply Z.mul_le_mono_nonneg_l; lia). lia.
  - rewrite Z.min_l by lia. rewrite Z.sub_diag. change (2 ^ 0) with 1.
    rewrite Z.mul_1_r. replace (0 - e) with (- e) by lia.
    case_bool_decide as Hb.
    + assert (2 ^ (- e) ≤ 2 ^ 42) by (apply Z.pow_le_mono_r; lia).
      destruct (m ?= 1024 * 2 ^ (- e)) eqn:E; try done.
      rewrite Z.compare_lt_iff in E. lia.
    + assert (2 ^ 43 ≤ 2 ^ (- e)) by (apply Z.pow_le_mono_r; lia).
      destruct (m ?= 1024 * 2 ^ (- e)) eqn:E; try done.
      * rewrite Z.compare_eq_iff in E. lia.
      * rewrite Z.compare_gt_iff in E. lia.
Qed.

Lemma format_bytes_loop_S fuel v n :
  format_bytes_loop (S fuel) v n
  = if num_ge v (Int 1024) && bool_decide (n < size power_labels)%nat
    then format_bytes_loop fuel (num_div v 1024) (S n)
    else (v, n).
Proof. reflexivity. Qed.

Lemma num_div_int z : num_div (Int z) 1024 = Flt (round53 z (2 ^ 10)).
Proof. reflexivity. Qed.


(** From a float that falls below 1024 within the remaining iterations
    the loop stops with a counter below [len(power_labels)]. *)
Lemma loop_stops fuel : ∀ n m e,
  2 ^ 52 ≤ m < 2 ^ 53 → (n + fuel = 5)%nat → (1 ≤ fuel)%nat →
  e - 10 * (Z.of_nat fuel - 1) ≤ -43 →
  ∃ v, ((format_bytes_loop fuel (Flt (mkFloat m e)) n).1 = v)
     ∧ ((format_bytes_loop fuel (Flt (mkFloat m e)) n).2 ≤ 4)%nat.
Proof.
  induction fuel as [|fuel IH]; intros n m e Hm Hn Hf He; [lia|].
  rewrite format_bytes_loop_S, num_ge_1024, size_power_labels by done.
  case_bool_decide as Hge; cbn [andb].
  - rewrite bool_decide_eq_true_2 by lia. rewrite num_div_1024 by done.
    apply IH; [done | lia | lia | lia].
  - eexists. split; [done|]. simpl. lia.
Qed.

Lemma power_labels_lookup n :
  (n ≤ 4)%nat → ∃ label, power_labels !! n = Some label ∧ label ∈ [""; "K"; "M"; "G"; "T"].
Proof.
  intros Hn. do 5 (destruct n as [|n]; [eexists; split; [reflexivity|set_solver]|]). lia.
Qed.

(** Below [1024^5] the loop stops with a counter of at most 4. *)
Lemma loop_below z :
  0 < z < 1024 ^ 5 →
  ∃ v n, format_bytes_loop (size power_labels) (Int z) 0 = (v, n) ∧ (n ≤ 4)%nat.
Proof.
  intros [Hpos Hz].
  rewrite size_power_labels, format_bytes_loop_S, size_power_labels.
  destruct (num_ge (Int z) (Int 1024)) eqn:Hge; cbn [andb];
    [|eexists _, _; split; [done|lia]].
  rewrite bool_decide_eq_true_2 by lia. rewrite num_div_int.
  destruct (round53_pow2 z 10) as (m & e & -> & Hm & _ & Hexact); [lia..|].
  destruct Hexact as [-> _]; [lia|].
  assert (Z.log2 z < 50) by (apply Z.log2_lt_pow2; lia).
  destruct (loop_stops 4 1 m (Z.log2 z - 10 - 52)) as (v & Hv & Hn); [done|lia|lia|lia|].
  destruct (format_bytes_loop 4 _ 1) as [v' n']. simpl in *. by eexists _, _.
Qed.

(** Below [1024^5] [_format_bytes] returns. *)
Lemma format_bytes_returns z :
  z < 1024 ^ 5 → ∃ formatted, _format_bytes (Int z) = Ok formatted.
Proof.
  intros Hz. unfold _format_bytes, num_le, num_compare.
  destruct (z ?= 0) eqn:E; [by eexists | by eexists |].
  rewrite Z.compare_gt_iff in E.
  destruct (loop_below z) as (v & n & -> & Hn); [lia|].
  destruct (power_labels_lookup n Hn) as (label & -> & _). by eexists.
Qed.



Example format_bytes_examples :
  _format_bytes (Int 1023) = Ok "1023.0B"
  ∧ _format_bytes (Int 1024) = Ok "1.0KB"
  ∧ _format_bytes (Int 204800) = Ok "200.0KB"
  ∧ _format_bytes (Int (1024 ^ 5 - 1)) = Ok "1024.0TB".
Proof. vm_compute. repeat split; reflexivity. Qed.

(** ** C5: the text of a successful conversion *)

Lemma with_record_intro idx f w r :
  statuses (self w) !! idx = Some r →
  with_record idx f w
  = (Ret tt, set_self (with_statuses (<[idx := f r]> (statuses (self w))) (self w)) w).
Proof.
  intros Hr. unfold with_record, mbind, M_bind, gets, subscript, modify. simpl.
  by rewrite Hr.
Qed.

(** C5 (amended). The aggregator, applying a SUCCESS message whose sizes
    are both non-zero (with savings below [1024^5] bytes), sets [info_str]
    to the formatted savings followed by the percentage of [size_before]
    with one decimal; for a 500KB input (512000 bytes) converted to a
    300KB output (307200 bytes) the text is ["200.0KB saved (40.0%)"]. *)
Theorem C5_success_info :
  (∀ update w r b a,
     statuses (self w) !! u_idx update = Some r →
     u_status update = SUCCESS →
     u_size_before update = Some b →
     u_size_after update = Some a →
     b ≠ 0 → a ≠ 0 → b - a < 1024 ^ 5 →
     ∃ w' r' formatted,
       apply_update update w = (Ret tt, w')
       ∧ statuses (self w') !! u_idx update = Some r'
       ∧ _format_bytes (Int (b - a)) = Ok formatted
       ∧ r_info_str r'
         = formatted +:+ " saved ("
           +:+ format_1f (if 0 <? b then num_mul (num_div (Int (b - a)) b) 100 else Int 0)
           +:+ "%)")
  ∧ savings_text 512000 307200 = Ok "200.0KB saved (40.0%)".
Proof.
  split; [|by vm_compute].
  intros update w r b a Hr Hst Hb Ha Hb0 Ha0 Hsav.
  assert (∃ formatted, _format_bytes (Int (b - a)) = Ok formatted) as [formatted Hf].
  { by apply format_bytes_returns. }
  destruct update as [idx st msg sb sa]. cbn [u_idx u_status u_size_before u_size_after] in *.
  subst st sb sa.
  unfold apply_update. cbn [u_idx u_status u_size_before u_size_after default].
  erewrite bind_Ret_intro by reflexivity.
  rewrite bool_decide_eq_true_2 by (by rewrite Hr).
  erewrite bind_Ret_intro by (by apply with_record_intro).
  unfold id. rewrite bind_assoc. erewrite bind_Ret_intro by reflexivity.
  rewrite (proj2 (Z.eqb_neq b 0) Hb0), (proj2 (Z.eqb_neq a 0) Ha0). cbn [negb andb].
  rewrite bind_assoc. erewrite bind_Ret_intro by reflexivity.
  unfold savings_text. rewrite Hf. cbn [mbind result_bind of_result].
  erewrite bind_Ret_intro by reflexivity.
  eexists _, _, formatted.
  split; [apply with_record_intro; cbn; apply lookup_insert_eq|].
  split; [cbn; apply lookup_insert_eq|]. split; [done|]. reflexivity.
Qed.

Lemma C5_witness :
  (∃ w' r' formatted,
     apply_update (mkUpdate 0 SUCCESS None (Some 512000) (Some 307200)) scenario_world
       = (Ret tt, w')
     ∧ statuses (self w') !! 0%nat = Some r'
     ∧ _format_bytes (Int (512000 - 307200)) = Ok formatted
     ∧ r_info_str r'
       = formatted +:+ " saved ("
         +:+ format_1f (if 0 <? 512000
                        then num_mul (num_div (Int (512000 - 307200)) 512000) 100
                        else Int 0)
         +:+ "%)")
  ∧ savings_text 512000 307200 = Ok "200.0KB saved (40.0%)".
Proof.
  split; [|exact (proj2 C5_success_info)].
  apply (proj1 C5_success_info (mkUpdate 0 SUCCESS None (Some 512000) (Some 307200))
           scenario_world pending_record 512000 307200);
    try reflexivity; try lia.
Defined.

(** C5, as stated, fails on its example.  In the scenario of the
    specification the record ends as SUCCESS with the text
    ["200.0KB saved (40.0%)"]; reading KB as 1000 bytes gives
    ["195.3KB saved (40.0%)"]; neither is ["195.3KB saved (39.1%)"]. *)
Lemma C5_counterexample :
  (scenario scenario_world).1 = Ret tt
  ∧ r_status <$> statuses (self (scenario scenario_world).2) !! 0%nat = Some SUCCESS
  ∧ r_info_str <$> statuses (self (scenario scenario_world).2) !! 0%nat
    = Some "200.0KB saved (40.0%)"
  ∧ r_info_str <$> statuses (self (scenario scenario_world).2) !! 0%nat
    ≠ Some "195.3KB saved (39.1%)"
  ∧ savings_text 500000 300000 = Ok "195.3KB saved (40.0%)".
Proof. vm_compute. repeat split; try reflexivity. discriminate. Qed.

(** ** C3: the encoder invocations *)

(** C3 (what the code does).  The invocations of one task: for a JPEG
    input that is not a sanitize retry the lossless form, followed, when
    the lossless run ends with a non-zero code, by
    [encoder <input> <output> --effort <e> -q <quality> --quiet]; for every
    other task the quality form with [--lossless_jpeg 0].  The fallback has
    neither of the two forms of the specification. *)
Theorem C3_encoder_invocations run source target_path input_path use_sanitize w exe :
  cjxl_cmd (self w) = Some exe →
  let cmd := [exe; Path.str source; Path.str target_path;
              "--effort"; pretty (effort (self w))] in
  let lossless_cmd := cmd ++ ["--lossless_jpeg"; "1"; "--quiet"] in
  let fallback_cmd := cmd ++ ["-q"; pretty (quality (self w)); "--quiet"] in
  let quality_cmd :=
    cmd ++ ["--lossless_jpeg"; "0"; "-q"; pretty (quality (self w)); "--quiet"] in
  spawned (encode_step run source target_path input_path use_sanitize w).2
  = spawned w ++
    (if is_jpeg input_path && negb use_sanitize then
       match run lossless_cmd (disk w) with
       | Exited rc _ _ => if rc =? 0 then [lossless_cmd] else [lossless_cmd; fallback_cmd]
       | NotStarted _ => [lossless_cmd]
       end
     else [quality_cmd])
  ∧ lossless_form lossless_cmd
  ∧ quality_form quality_cmd
  ∧ ¬ lossless_form fallback_cmd
  ∧ ¬ quality_form fallback_cmd.
Proof.
  intros Hexe cmd lossless_cmd fallback_cmd quality_cmd.
  split; [|split; [|split; [|split]]].
  - unfold encode_step. erewrite bind_Ret_intro by reflexivity. unfold id.
    rewrite Hexe. erewrite bind_Ret_intro by reflexivity.
    fold cmd. fold lossless_cmd fallback_cmd quality_cmd.
    destruct (is_jpeg input_path && negb use_sanitize).
    + unfold mbind, M_bind, subprocess_run.
      destruct (run lossless_cmd (disk w)) as [rc err d|e] eqn:Hrun; [|done].
      cbn [fst snd]. destruct (rc =? 0); cbn [negb].
      * simpl. done.
      * cbn [self set_spawned set_disk disk]. 
        destruct (run fallback_cmd d) as [rc2 err2 d2|e2]; simpl;
          by rewrite <- app_assoc.
    + unfold subprocess_run. by destruct (run quality_cmd (disk w)).
  - by eexists _, _, _, _.
  - by eexists _, _, _, _, _.
  - intros (a & b & c & d & H). discriminate H.
  - intros (a & b & c & d & q & H). discriminate H.
Qed.

Lemma C3_witness :
  spawned (encode_step scenario_encoder ["in"; "a.jpg"] ["out"; "a.jxl"] ["in"; "a.jpg"]
             false scenario_world).2
  = [["/usr/bin/cjxl"; "/in/a.jpg"; "/out/a.jxl"; "--effort"; "7";
      "--lossless_jpeg"; "1"; "--quiet"];
     ["/usr/bin/cjxl"; "/in/a.jpg"; "/out/a.jxl"; "--effort"; "7"; "-q"; "90"; "--quiet"]]
  ∧ ¬ lossless_form
        ["/usr/bin/cjxl"; "/in/a.jpg"; "/out/a.jxl"; "--effort"; "7"; "-q"; "90"; "--quiet"]
  ∧ ¬ quality_form
        ["/usr/bin/cjxl"; "/in/a.jpg"; "/out/a.jxl"; "--effort"; "7"; "-q"; "90"; "--quiet"].
Proof.
  destruct (C3_encoder_invocations scenario_encoder ["in"; "a.jpg"] ["out"; "a.jxl"]
              ["in"; "a.jpg"] false scenario_world "/usr/bin/cjxl" eq_refl)
    as (H & _ & _ & Hl & Hq).
  split; [|split; [exact Hl | exact Hq]].
  rewrite H. vm_compute. reflexivity.
Defined.

(** ** The worker *)

(** Symbolic execution of the worker: its steps are unfolded down to the
    state and the calls of the environment. *)
Ltac unfold_worker :=
  unfold worker_iteration, process_task, sanitize_step, encode_step, subprocess_run,
    _update_status, command, subscript, try_except, mbind, M_bind, mret, M_ret, gets,
    modify, get_disk, on_disk, of_result, raise, copystat.

(** ** C4: the temporary file of a sanitize task *)

Lemma try_except_Exc {A} (body : M A) handler w e w' :
  body w = (Exc e, w') → try_except body handler w = handler e w'.
Proof. unfold try_except. by intros ->. Qed.

Lemma try_except_Ret {A} (body : M A) handler w a w' :
  body w = (Ret a, w') → try_except body handler w = (Ret a, w').
Proof. unfold try_except. by intros ->. Qed.

(** C4 (what the code does on the path the claim misses).  For a sanitize
    task whose intermediate file was written, an encoder that cannot be
    started makes [subprocess.run] raise between the sanitize step and the
    [unlink]: the handler of the worker reports the crash and the
    intermediate file stays on disk. *)
Theorem C4_temp_file_left
    run tmp task rest w input_path magick exe err d1 size e :
  conversion_queue (self w) = task :: rest →
  t_sanitize task = true →
  files (self w) !! t_idx task = Some input_path →
  imagemagick_cmd (self w) = Some magick →
  magick ≠ "" →
  cjxl_cmd (self w) = Some exe →
  let temp_png := tmp ++ ["sanitized_" +:+ Path.name input_path +:+ ".png"] in
  run [magick; Path.str input_path; "-strip"; Path.str temp_png] (disk w)
    = Exited 0 err d1 →
  d1 !! temp_png = Some (File size) →
  size ≠ 0 →
  run [exe; Path.str temp_png; Path.str (t_target_path task); "--effort";
       pretty (effort (self w)); "--lossless_jpeg"; "0"; "-q";
       pretty (quality (self w)); "--quiet"] d1 = NotStarted e →
  ∃ w', worker_iteration run tmp w = (Ret tt, w')
      ∧ disk w' !! temp_png = Some (File size)
      ∧ status_queue (self w')
        = status_queue (self w)
          ++ [mkUpdate (t_idx task) SANITIZING None None None;
              mkUpdate (t_idx task) CONVERTING None None None;
              mkUpdate (t_idx task) FAILED (Some ("Worker crash: " +:+ exn_name e))
                None None].
Proof.
  intros Hq Hsan Hfile Hmagick Hne Hcjxl temp_png Hrun1 Htemp Hsize Hrun2.
  unfold_worker. subst temp_png. simpl in *.
  rewrite Hq. simpl. rewrite Hfile, Hsan. simpl. rewrite Hmagick. simpl.
  rewrite bool_decide_eq_false_2 by done. simpl. rewrite Hrun1. simpl.
  unfold Fs.exists_, Fs.stat_size. rewrite Htemp.
  rewrite bool_decide_eq_true_2 by done. simpl.
  rewrite (proj2 (Z.eqb_neq size 0) Hsize). simpl.
  rewrite Hcjxl. simpl. rewrite andb_false_r. simpl. rewrite Hrun2. simpl.
  eexists. split; [reflexivity|]. simpl. split; [done|]. by rewrite <- !app_assoc.
Qed.

Lemma C4_witness :
  ∃ w', worker_iteration sanitizer_only ["tmp"] retry_world = (Ret tt, w')
      ∧ disk w' !! ["tmp"; "sanitized_a.jpg.png"] = Some (File 4000)
      ∧ status_queue (self w')
        = status_queue (self retry_world)
          ++ [mkUpdate 0 SANITIZING None None None;
              mkUpdate 0 CONVERTING None None None;
              mkUpdate 0 FAILED (Some "Worker crash: FileNotFoundError") None None].
Proof.
  apply (C4_temp_file_left sanitizer_only ["tmp"] (mkTask 0 ["out"; "a.jxl"] true) []
           retry_world ["in"; "a.jpg"] "/usr/bin/magick" "/usr/bin/cjxl" ""
           (<[ ["tmp"; "sanitized_a.jpg.png"] := File 4000 ]> scenario_disk) 4000
           FileNotFoundError);
    try reflexivity; try done.
Defined.

(** ** C6: the message of a failed encode *)

Lemma linebreak_is_space c : is_linebreak c = true → is_space c = true.
Proof.
  destruct c as [[] [] [] [] [] [] [] []]; vm_compute; intros H; done.
Qed.

Lemma cr_is_space c : Ascii.eqb c "013" = true → is_space c = true.
Proof. intros ->%Ascii.eqb_eq. reflexivity. Qed.

Lemma rstrip_ends_visible s : rstrip s = "" ∨ ends_visible (rstrip s) = true.
Proof.
  induction s as [|c r IH]; [by left|]. simpl.
  destruct (rstrip r) as [|c' r'] eqn:E.
  - destruct (is_space c) eqn:Ec; [by left | right; simpl; by rewrite Ec].
  - right. destruct IH as [?|IH]; [done|]. exact IH.
Qed.

Lemma last_cons_Some {A} (x : A) l y : last l = Some y → last (x :: l) = Some y.
Proof. destruct l; [done|]. by rewrite last_cons_cons. Qed.

Lemma splitlines_from_step line c r :
  splitlines_from line (String c r)
  = if Ascii.eqb c "013" then
      match r with
      | String "010" r' => line :: splitlines_from "" r'
      | _ => line :: splitlines_from "" r
      end
    else if is_linebreak c then line :: splitlines_from "" r
    else splitlines_from (line +:+ String c "") r.
Proof. reflexivity. Qed.

Lemma splitlines_from_last s : ∀ line,
  ends_visible s = true →
  ∃ l, last (splitlines_from line s) = Some l ∧ l ≠ "".
Proof.
  induction s as [|c r IH]; intros line Hs; [done|].
  rewrite splitlines_from_step.
  destruct r as [|c2 r2].
  - simpl in Hs. apply negb_true_iff in Hs.
    assert (Ascii.eqb c "013" = false) as Hcr.
    { destruct (Ascii.eqb c "013") eqn:E; [|done]. apply cr_is_space in E. congruence. }
    assert (is_linebreak c = false) as Hlb.
    { destruct (is_linebreak c) eqn:E; [|done]. apply linebreak_is_space in E. congruence. }
    rewrite Hcr, Hlb. simpl.
    assert (line +:+ String c "" ≠ "") as Hne by (by destruct line).
    rewrite bool_decide_eq_false_2 by done. eauto.
  - assert (ends_visible (String c2 r2) = true) as Hr by exact Hs.
    destruct (IH "" Hr) as (l & Hl & Hne).
    destruct (Ascii.eqb c "013").
    + destruct (decide (c2 = "010"%char)) as [->|Hc2].
      * destruct r2 as [|c3 r3]; [done|].
        rewrite splitlines_from_step in Hl.
        change (Ascii.eqb "010" "013") with false in Hl.
        change (is_linebreak "010") with true in Hl. cbn iota in Hl.
        exists l. split; [|done]. apply last_cons_Some.
        destruct (splitlines_from "" (String c3 r3)) as [|x xs] eqn:E.
        -- simpl in Hl. by injection Hl as <-.
        -- by rewrite last_cons_cons in Hl.
      * exists l. split; [|done].
        assert (match String c2 r2 with
                | String "010" r' => line :: splitlines_from "" r'
                | _ => line :: splitlines_from "" (String c2 r2)
                end = line :: splitlines_from "" (String c2 r2)) as ->.
        { destruct c2 as [[] [] [] [] [] [] [] []]; done. }
        by apply last_cons_Some.
    + destruct (is_linebreak c).
      * exists l. split; [|done]. by apply last_cons_Some.
      * apply IH. exact Hr.
Qed.

(** The message computed from the captured error text: the fallback for
    an empty text, the last line of the stripped text (never empty) for a
    text with a visible character, and an [IndexError] for a text of
    white space only. *)
Lemma error_message_spec stderr :
  (stderr = "" → error_message stderr = Ok "cjxl error")
  ∧ (stderr ≠ "" → strip stderr = "" → error_message stderr = Raise IndexError)
  ∧ (strip stderr ≠ "" →
     ∃ line, error_message stderr = Ok line ∧ line ≠ ""
           ∧ last (splitlines (strip stderr)) = Some line).
Proof.
  unfold error_message. split; [|split].
  - intros ->. done.
  - intros Hne Hblank. rewrite bool_decide_eq_false_2 by done. by rewrite Hblank.
  - intros Hvis.
    assert (stderr ≠ "") as Hne by (intros ->; done).
    rewrite bool_decide_eq_false_2 by done.
    destruct (rstrip_ends_visible (lstrip stderr)) as [H|H]; [done|].
    destruct (splitlines_from_last (strip stderr) "" H) as (l & Hl & Hl').
    unfold splitlines. rewrite Hl. eauto.
Qed.

(** C6 (what the code does on the input the claim misses).  When the
    encode step fails and the captured error text is not empty but holds
    white space only, indexing the empty list of lines raises
    [IndexError]: the message recorded is that of the crash handler of the
    worker, and the partial output is not removed. *)
Theorem C6_blank_stderr_crash run tmp task rest w input_path exe rc stderr d1 :
  conversion_queue (self w) = task :: rest →
  t_sanitize task = false →
  files (self w) !! t_idx task = Some input_path →
  is_jpeg input_path = false →
  cjxl_cmd (self w) = Some exe →
  run [exe; Path.str input_path; Path.str (t_target_path task); "--effort";
       pretty (effort (self w)); "--lossless_jpeg"; "0"; "-q";
       pretty (quality (self w)); "--quiet"] (disk w) = Exited rc stderr d1 →
  rc ≠ 0 ∨ d1 !! t_target_path task = None →
  stderr ≠ "" →
  strip stderr = "" →
  ∃ w', worker_iteration run tmp w = (Ret tt, w')
      ∧ disk w' = d1
      ∧ status_queue (self w')
        = status_queue (self w)
          ++ [mkUpdate (t_idx task) CONVERTING None None None;
              mkUpdate (t_idx task) FAILED (Some "Worker crash: IndexError") None None].
Proof.
  intros Hq Hsan Hfile Hjpeg Hcjxl Hrun Hfail Hne Hblank.
  assert ((rc =? 0) && Fs.exists_ d1 (t_target_path task) = false) as Hcond.
  { destruct Hfail as [Hrc|Hmiss].
    - by rewrite (proj2 (Z.eqb_neq rc 0) Hrc).
    - unfold Fs.exists_. rewrite Hmiss.
      rewrite bool_decide_eq_false_2 by (by intros [? ?]). apply andb_false_r. }
  pose proof (proj1 (proj2 (error_message_spec stderr)) Hne Hblank) as Hmsg.
  unfold_worker. simpl in *.
  rewrite Hq. simpl. rewrite Hfile, Hsan. simpl. rewrite Hcjxl. simpl.
  rewrite Hjpeg. simpl. rewrite Hrun. simpl. rewrite Hcond. rewrite Hmsg. simpl.
  eexists. split; [reflexivity|]. simpl. split; [done|]. by rewrite <- !app_assoc.
Qed.

Lemma C6_witness :
  ∃ w', worker_iteration blank_encoder ["tmp"] blank_world = (Ret tt, w')
      ∧ disk w' = scenario_disk
      ∧ status_queue (self w')
        = status_queue (self blank_world)
          ++ [mkUpdate 0 CONVERTING None None None;
              mkUpdate 0 FAILED (Some "Worker crash: IndexError") None None].
Proof.
  apply (C6_blank_stderr_crash blank_encoder ["tmp"] (mkTask 0 ["out"; "b.jxl"] false) []
           blank_world ["in"; "b.png"] "/usr/bin/cjxl" 1 (String "010" "") scenario_disk);
    try reflexivity; try done.
  by left.
Defined.

(** ** Invariants of the interface thread *)

Lemma preserves_ret P {A} (a : A) : preserves P (mret a).
Proof. by intros w. Qed.

Lemma preserves_bind P {A B} (m : M A) (f : A → M B) :
  preserves P m → (∀ a, preserves P (f a)) → preserves P (m ≫= f).
Proof.
  intros Hm Hf w Hw. unfold mbind, M_bind. specialize (Hm w Hw).
  destruct (m w) as [[a|e|] w1]; simpl in *; [by apply Hf | done | done].
Qed.

Lemma preserves_try P {A} (m : M A) h :
  preserves P m → (∀ e, preserves P (h e)) → preserves P (try_except m h).
Proof.
  intros Hm Hh w Hw. unfold try_except. specialize (Hm w Hw).
  destruct (m w) as [[a|e|] w1]; simpl in *; [done | by apply Hh | done].
Qed.

Lemma preserves_modify P f : (∀ s, P s → P (f s)) → preserves P (modify f).
Proof. intros H w Hw. by apply H. Qed.

(** The steps that leave the object alone. *)
Lemma preserves_unchanged P {A} (m : M A) :
  (∀ w, self (m w).2 = self w) → preserves P m.
Proof. intros H w Hw. by rewrite H. Qed.

Lemma preserves_gets P {A} (f : JxlConverterTUI → A) : preserves P (gets f).
Proof. by apply preserves_unchanged. Qed.
Lemma preserves_raise P {A} e : preserves P (raise (A:=A) e).
Proof. by apply preserves_unchanged. Qed.
Lemma preserves_subscript P {A} (o : option A) e : preserves P (subscript o e).
Proof. destruct o; [apply preserves_ret | apply preserves_raise]. Qed.
Lemma preserves_of_result P {A} (r : result A) : preserves P (of_result r).
Proof. destruct r; [apply preserves_ret | apply preserves_raise]. Qed.
Lemma preserves_get_disk P : preserves P get_disk.
Proof. by apply preserves_unchanged. Qed.
Lemma preserves_on_disk P f : preserves P (on_disk f).
Proof. apply preserves_unchanged. intros w. unfold on_disk. by destruct (f (disk w)). Qed.
Lemma preserves_time P : preserves P time.
Proof. by apply preserves_unchanged. Qed.
Lemma preserves_confirm P q : preserves P (ConfirmationDialog_run q).
Proof.
  apply preserves_unchanged. intros w. unfold ConfirmationDialog_run.
  by destruct (ConfirmationDialog_loop (tty w)).
Qed.
Lemma preserves_input P p i : preserves P (InputDialog_run p i).
Proof.
  apply preserves_unchanged. intros w. unfold InputDialog_run.
  by destruct (InputDialog_loop i (tty w)).
Qed.
Lemma preserves_read_keys P : preserves P read_keys.
Proof.
  apply preserves_unchanged. intros w. unfold read_keys. by destruct (pending_keys (tty w)).
Qed.
Lemma preserves_subprocess P run cmd : preserves P (subprocess_run run cmd).
Proof.
  apply preserves_unchanged. intros w. unfold subprocess_run. by destruct (run cmd (disk w)).
Qed.

(** The structural rules, applied as far as they go; [other] is the
    tactic for the steps that change the object. *)
Ltac pres_step other :=
  lazymatch goal with
  | |- preserves _ (mret _) => apply preserves_ret
  | |- preserves _ (_ ≫= _) => apply preserves_bind; [|intros ?]
  | |- preserves _ (gets _) => apply preserves_gets
  | |- preserves _ (raise _) => apply preserves_raise
  | |- preserves _ (subscript _ _) => apply preserves_subscript
  | |- preserves _ (of_result _) => apply preserves_of_result
  | |- preserves _ get_disk => apply preserves_get_disk
  | |- preserves _ (on_disk _) => apply preserves_on_disk
  | |- preserves _ time => apply preserves_time
  | |- preserves _ (ConfirmationDialog_run _) => apply preserves_confirm
  | |- preserves _ (InputDialog_run _ _) => apply preserves_input
  | |- preserves _ read_keys => apply preserves_read_keys
  | |- preserves _ (subprocess_run _ _) => apply preserves_subprocess
  | |- preserves _ (try_except _ _) => apply preserves_try; [|intros ?]
  | |- preserves _ (modify _) => other
  | |- preserves _ (if ?b then _ else _) => destruct b
  | |- preserves _ (match ?x with _ => _ end) => destruct x
  end.
Ltac pres_with other := cbv zeta; repeat (pres_step other; cbv zeta).

Section Invariant.

Variable P : JxlConverterTUI → Prop.

(** [P] looks at the settings and at the shutdown flags only, it admits a
    new setting within its range, and it admits clearing the stop flag. *)
Hypothesis P_ext : ∀ s s',
  quality s' = quality s → effort s' = effort s →
  stop_thread s' = stop_thread s → thread_joined s' = thread_joined s →
  P s → P s'.
Hypothesis P_quality : ∀ v s, 1 ≤ v ≤ 100 → P s → P (with_quality v s).
Hypothesis P_effort : ∀ v s, 1 ≤ v ≤ 9 → P s → P (with_effort v s).
Hypothesis P_clear : ∀ s, P s → P (with_stop_thread false s).

(** A step that changes attributes outside the view of [P]. *)
Ltac other := apply preserves_modify; intros ? ?; by eapply P_ext; [..|eassumption].
Ltac pres := pres_with ltac:(other).

Lemma preserves_apply_tick t : preserves P (apply_tick t).
Proof. intros w Hw. by eapply P_ext; [..|exact Hw]. Qed.

Lemma preserves_with_record idx f : preserves P (with_record idx f).
Proof. unfold with_record. pres. Qed.

Lemma preserves_resolver in_path E : preserves P (_get_unique_target_path in_path E).
Proof. unfold _get_unique_target_path. pres. Qed.

Lemma preserves_build_tasks b idxs : ∀ tasks E, preserves P (build_tasks b idxs tasks E).
Proof.
  induction idxs as [|idx rest IH]; intros tasks E; simpl; pres.
  - apply preserves_resolver.
  - apply preserves_with_record.
  - apply IH.
Qed.

Lemma preserves_enqueue_tasks tasks : preserves P (enqueue_tasks tasks).
Proof.
  induction tasks as [|task rest IH]; simpl; pres.
  - apply preserves_with_record.
  - apply IH.
Qed.

Lemma preserves_start b : preserves P (_start_conversion_session b).
Proof.
  unfold _start_conversion_session.
  pres; try apply preserves_build_tasks; try apply preserves_enqueue_tasks.
  all: apply preserves_modify; intros s' Hs'.
  all: apply (P_ext (with_stop_thread false s')); [done..|]; by apply P_clear.
Qed.

Lemma preserves_load_files ev : preserves P (load_files ev).
Proof. unfold load_files. pres. Qed.

Lemma preserves_visible : preserves P get_visible_files.
Proof. unfold get_visible_files. pres. Qed.

(** The value accepted by [set_quality] and [set_effort] is a number read
    from the text, within the bounds. *)
Lemma accepted_cases new_val lo hi w :
  accepted new_val lo hi w = (Ret None, w)
  ∨ (∃ e, accepted new_val lo hi w = (Exc e, w))
  ∨ (∃ text v, new_val = Some text ∧ int text = Ok v ∧ lo ≤ v ≤ hi
               ∧ accepted new_val lo hi w = (Ret (Some v), w)).
Proof.
  unfold accepted. destruct new_val as [text|]; [|by left].
  destruct (negb (bool_decide (text = "")) && isdigit text); [|by left].
  destruct (int text) as [v|e] eqn:Hint; [|right; left; by exists e].
  unfold mbind, M_bind. simpl.
  destruct (lo <=? v) eqn:Hlo; [|by left].
  destruct (v <=? hi) eqn:Hhi; [|by left].
  right. right. exists text, v. repeat split; [done|lia|lia].
Qed.

Lemma preserves_set_quality : preserves P set_quality.
Proof.
  intros w Hw. unfold set_quality.
  unfold mbind at 1, M_bind at 1. unfold gets at 1.
  unfold mbind at 1, M_bind at 1.
  pose proof (preserves_input P "Quality (1-100)" (pretty (quality (self w))) w Hw) as H1.
  destruct (InputDialog_run _ _ w) as [[new_val|e|] w1]; simpl in H1; [|done|done].
  unfold mbind, M_bind.
  destruct (accepted_cases new_val 1 100 w1) as [->|[[e ->]|(text & v & _ & _ & Hv & ->)]];
    simpl; [done | done | by apply P_quality].
Qed.

Lemma preserves_set_effort : preserves P set_effort.
Proof.
  intros w Hw. unfold set_effort.
  unfold mbind at 1, M_bind at 1. unfold gets at 1.
  unfold mbind at 1, M_bind at 1.
  pose proof (preserves_input P "Effort (1-9)" (pretty (effort (self w))) w Hw) as H1.
  destruct (InputDialog_run _ _ w) as [[new_val|e|] w1]; simpl in H1; [|done|done].
  unfold mbind, M_bind.
  destruct (accepted_cases new_val 1 9 w1) as [->|[[e ->]|(text & v & _ & _ & Hv & ->)]];
    simpl; [done | done | by apply P_effort].
Qed.

Lemma preserves_set_output_dir ev : preserves P (set_output_dir ev).
Proof. unfold set_output_dir. pres. Qed.

Lemma preserves_handle_input ev key visible : preserves P (handle_input ev key visible).
Proof.
  unfold handle_input.
  pres; try apply preserves_start; try apply preserves_load_files;
    try apply preserves_set_quality; try apply preserves_set_effort;
    try apply preserves_set_output_dir.
  all: apply preserves_modify; intros s' Hs'; case_match; [|done].
  all: by eapply P_ext; [..|exact Hs'].
Qed.

Lemma preserves_apply_update update : preserves P (apply_update update).
Proof. unfold apply_update. pres; apply preserves_with_record. Qed.

Lemma preserves_drain pending : preserves P (drain_status_queue pending).
Proof.
  induction pending as [|update rest IH]; simpl; pres; [apply preserves_apply_update | apply IH].
Qed.

Lemma preserves_prompt : preserves P _prompt_for_sanitize.
Proof. unfold _prompt_for_sanitize. pres. apply preserves_start. Qed.

Lemma preserves_process_status_queue : preserves P _process_status_queue.
Proof.
  unfold _process_status_queue. pres; try apply preserves_drain; apply preserves_prompt.
Qed.

Lemma preserves_process_key ev key : preserves P (process_key ev key).
Proof.
  unfold process_key. pres; try apply preserves_visible; apply preserves_handle_input.
Qed.

Lemma preserves_process_keys ev keys : preserves P (process_keys ev keys).
Proof.
  induction keys as [|key rest IH]; simpl; pres; try apply preserves_process_key; apply IH.
Qed.

Lemma preserves_run_iteration ev t : preserves P (run_iteration ev t).
Proof.
  unfold run_iteration. apply preserves_bind; [apply preserves_apply_tick|intros ?].
  pres; try apply preserves_process_keys; try apply preserves_process_status_queue;
    try apply preserves_visible.
  all: apply preserves_modify; intros s' Hs'; case_match; [|done].
  all: by eapply P_ext; [..|exact Hs'].
Qed.

Lemma preserves_while_true ev ticks : preserves P (while_true (run_iteration ev) ticks).
Proof.
  induction ticks as [|t rest IH]; simpl; [by intros w|].
  pres; [apply preserves_run_iteration | apply IH].
Qed.

(** The worker, too, keeps [P]. *)
Lemma preserves_worker_iteration run tmp : preserves P (worker_iteration run tmp).
Proof.
  unfold worker_iteration, process_task, sanitize_step, encode_step, _update_status,
    command, copystat.
  pres.
Qed.

End Invariant.

(** ** C8: leaving the main loop *)

Lemma yields_ret {A} (Q : A → Prop) a : Q a → yields Q (mret a).
Proof. intros Ha w a' w' H. unfold mret, M_ret in H. by simplify_eq. Qed.

Lemma yields_bind {A B} (Q : B → Prop) (m : M A) (f : A → M B) :
  (∀ a, yields Q (f a)) → yields Q (m ≫= f).
Proof. intros Hf w b w' (a & w1 & _ & H)%bind_Ret. by eapply Hf. Qed.

(** The body of the loop has no [break]. *)
Lemma process_key_flow ev key : yields (λ f, f ≠ Break) (process_key ev key).
Proof.
  unfold process_key. apply yields_bind. intros converting.
  destruct (key_in key [27; ord "q"] && negb converting); [by apply yields_ret|].
  apply yields_bind. intros [|]; [by apply yields_ret|].
  apply yields_bind. intros visible. apply yields_bind. intros []. by apply yields_ret.
Qed.

Lemma process_keys_flow ev keys : yields (λ f, f ≠ Break) (process_keys ev keys).
Proof.
  induction keys as [|key rest IH]; simpl; [by apply yields_ret|].
  intros w f w' (f1 & w1 & H1 & H)%bind_Ret.
  destruct f1; [by eapply IH | | by injection H as <- _].
  by apply process_key_flow in H1.
Qed.

Lemma run_iteration_flow ev t : yields (λ f, f ≠ Break) (run_iteration ev t).
Proof.
  unfold run_iteration. apply yields_bind. intros []. apply yields_bind. intros keys.
  intros w f w' (f1 & w1 & H1 & H)%bind_Ret.
  apply process_keys_flow in H1.
  destruct f1; [|done|by injection H as <- _].
  apply bind_Ret in H as (f2 & w2 & H2 & H).
  apply process_keys_flow in H2.
  destruct f2; [|done|by injection H as <- _].
  apply bind_Ret in H as ([] & w3 & _ & H).
  apply bind_Ret in H as (visible & w4 & _ & H).
  apply bind_Ret in H as ([] & w5 & _ & H).
  by injection H as <- _.
Qed.

(** [while True] is left by [return] only. *)
Lemma while_true_flow ev ticks : yields (λ f, f = Return) (while_true (run_iteration ev) ticks).
Proof.
  induction ticks as [|t rest IH]; simpl; [by intros w f w' H|].
  intros w f w' (f1 & w1 & H1 & H)%bind_Ret.
  apply run_iteration_flow in H1.
  destruct f1; [by eapply IH | done | by injection H as <- _].
Qed.

Lemma run_Ret ev ticks w w' :
  run ev ticks w = (Ret tt, w') → while_true (run_iteration ev) ticks w = (Ret Return, w').
Proof.
  unfold run. intros (f & w1 & H1 & H)%bind_Ret.
  pose proof (while_true_flow _ _ _ _ _ H1) as ->.
  unfold mret, M_ret in H. by injection H as <-.
Qed.

Lemma preserves_run P ev ticks :
  preserves P (while_true (run_iteration ev) ticks) → preserves P (run ev ticks).
Proof.
  intros Hloop w Hw. specialize (Hloop w Hw). unfold run, mbind, M_bind.
  destruct (while_true (run_iteration ev) ticks w) as [[f|e|] w1] eqn:H1; [|done|done].
  by apply while_true_flow in H1 as ->.
Qed.

(** C8 (what the code does).  Whenever [run] returns, it has left the
    loop by a [return] inside it, so the statements after the loop were not
    executed: the stop flag, if it was clear, is still clear, and the
    worker thread has not been joined. *)
Theorem C8_run_skips_shutdown ev ticks w w' :
  run ev ticks w = (Ret tt, w') →
  stop_thread (self w) = false →
  while_true (run_iteration ev) ticks w = (Ret Return, w')
  ∧ stop_thread (self w') = false
  ∧ thread_joined (self w') = thread_joined (self w).
Proof.
  intros Hrun Hstop. apply run_Ret in Hrun. split; [done|].
  pose proof (preserves_while_true
                (λ s, stop_thread s = false ∧ thread_joined s = thread_joined (self w))) as H.
  specialize (H ltac:(intros s s' _ _ H1 H2 [? ?]; split; congruence)
                ltac:(done) ltac:(done) ltac:(by intros s [_ ?])
                ev ticks w (conj Hstop eq_refl)).
  by rewrite Hrun in H.
Qed.

Lemma C8_witness :
  while_true (run_iteration quiet_env) one_tick quitting_world
    = (Ret Return, (run quiet_env one_tick quitting_world).2)
  ∧ stop_thread (self (run quiet_env one_tick quitting_world).2) = false
  ∧ thread_joined (self (run quiet_env one_tick quitting_world).2)
    = thread_joined (self quitting_world).
Proof.
  apply (C8_run_skips_shutdown quiet_env one_tick quitting_world); vm_compute; reflexivity.
Defined.

(** The batch of two tasks is still queued, the worker thread is alive and
    was never told to stop. *)
Example quit_while_converting :
  (run quiet_env one_tick quitting_world).1 = Ret tt
  ∧ length (conversion_queue (self (run quiet_env one_tick quitting_world).2)) = 2%nat
  ∧ conversion_thread (self (run quiet_env one_tick quitting_world).2) = true
  ∧ stop_thread (self (run quiet_env one_tick quitting_world).2) = false
  ∧ thread_joined (self (run quiet_env one_tick quitting_world).2) = false.
Proof. vm_compute. repeat split; reflexivity. Qed.

(** ** C9: quality and effort stay within their ranges *)








(** The user replaces 90 by 75, then types 750: the first text is taken,
    the second is refused. *)
Example set_quality_examples :
  quality (self (set_quality (set_tty [263; 263; 55; 53; 10] photo_world)).2) = 75
  ∧ quality (self (set_quality (set_tty [48; 10] photo_world)).2) = 90
  ∧ quality (self (set_quality (set_tty [263; 263; 10] photo_world)).2) = 90
  ∧ quality (self (set_quality (set_tty [27] photo_world)).2) = 90.
Proof. vm_compute. repeat split; reflexivity. Qed.

(** ** C2: when a batch is active *)






(** * Further properties of the code *)

(** ** The worker *)

Lemma unlink_removed missing_ok d p d' : Fs.unlink missing_ok d p = Ok d' → d' !! p = None.
Proof.
  unfold Fs.unlink. destruct (d !! p) as [[sz|wr]|] eqn:Hp; [|done|].
  - destruct (Fs.parent_writable d p); [|done]. intros [= <-]. apply lookup_delete_eq.
  - destruct missing_ok; [|done]. by intros [= <-].
Qed.

Lemma unlink_lookup_ne missing_ok d p d' q :
  Fs.unlink missing_ok d p = Ok d' → q ≠ p → d' !! q = d !! q.
Proof.
  unfold Fs.unlink. intros H Hne. destruct (d !! p) as [[sz|wr]|] eqn:Hp; [|done|].
  - destruct (Fs.parent_writable d p); [|done]. injection H as <-.
    by apply lookup_delete_ne.
  - destruct missing_ok; [|done]. by injection H as <-.
Qed.

Lemma unlink_absent missing_ok d p d' q :
  Fs.unlink missing_ok d p = Ok d' → d !! q = None → d' !! q = None.
Proof.
  intros H Hq. destruct (decide (q = p)) as [->|Hne]; [by eapply unlink_removed|].
  by rewrite (unlink_lookup_ne _ _ _ _ _ H Hne).
Qed.

(** The paths of one iteration of the worker. *)
Ltac worker_paths Hq :=
  unfold_worker; unfold_worker; simpl; rewrite Hq; simpl;
  repeat (case_match; simpl in *; rewrite ?andb_false_r in *; simplify_eq).






(** X3.  A sanitize task leaves no intermediate file behind on any path
    on which the child processes start: if the file the sanitizer leaves
    can be removed, and so can what the encoder leaves of it, the
    intermediate file does not exist after the task, whether the sanitize
    step failed, the encoder failed or the conversion succeeded. *)
Theorem sanitize_cleanup run tmp task rest w input_path magick exe rc err d1 :
  conversion_queue (self w) = task :: rest →
  t_sanitize task = true →
  files (self w) !! t_idx task = Some input_path →
  imagemagick_cmd (self w) = Some magick →
  magick ≠ "" →
  cjxl_cmd (self w) = Some exe →
  let temp_png := tmp ++ ["sanitized_" +:+ Path.name input_path +:+ ".png"] in
  let quality_cmd :=
    [exe; Path.str temp_png; Path.str (t_target_path task); "--effort";
     pretty (effort (self w)); "--lossless_jpeg"; "0"; "-q";
     pretty (quality (self w)); "--quiet"] in
  run [magick; Path.str input_path; "-strip"; Path.str temp_png] (disk w)
    = Exited rc err d1 →
  removable d1 temp_png = true →
  (∀ e, run quality_cmd d1 ≠ NotStarted e) →
  (∀ rc2 err2 d2, run quality_cmd d1 = Exited rc2 err2 d2 → removable d2 temp_png = true) →
  disk (worker_iteration run tmp w).2 !! temp_png = None.
Proof.
  intros Hq Hsan Hfile Hmagick Hne Hcjxl temp_png quality_cmd Hrun1 Hrm1 Hstart Hrm2.
  assert (∀ d, removable d temp_png = true → ∃ d', Fs.unlink true d temp_png = Ok d') as Hrm.
  { intros d. unfold removable, Fs.unlink.
    destruct (d !! temp_png) as [[sz|wr]|]; [intros ->| |]; by eauto. }
  subst temp_png quality_cmd.
  unfold_worker. unfold_worker. simpl. rewrite Hq. simpl. rewrite Hfile, Hsan. simpl.
  rewrite Hmagick. simpl. rewrite bool_decide_eq_false_2 by done. simpl.
  rewrite Hrun1. simpl.
  destruct (Hrm d1 Hrm1) as [d1' Hu1].
  destruct (negb (rc =? 0) || _ || _) eqn:Hcond; simpl.
  - rewrite Hu1. simpl. by eapply unlink_removed.
  - rewrite Hcjxl. simpl. rewrite andb_false_r. simpl.
    destruct (run _ d1) as [rc2 err2 d2|e]; [|by destruct (Hstart e)].
    simpl. destruct (Hrm d2 (Hrm2 _ _ _ eq_refl)) as [d2' Hu2]. rewrite Hu2. simpl.
    pose proof (unlink_removed _ _ _ _ Hu2) as Hgone.
    repeat (case_match; simpl in *; simplify_eq); try done;
      by eapply unlink_absent.
Qed.

Lemma sanitize_cleanup_witness :
  disk (worker_iteration failing_after_sanitize ["tmp"] retry_world).2
    !! ["tmp"; "sanitized_a.jpg.png"] = None.
Proof.
  apply (sanitize_cleanup failing_after_sanitize ["tmp"] (mkTask 0 ["out"; "a.jxl"] true) []
           retry_world ["in"; "a.jpg"] "/usr/bin/magick" "/usr/bin/cjxl" 0 ""
           (<[ ["tmp"; "sanitized_a.jpg.png"] := File 4000 ]> scenario_disk));
    try reflexivity; try done.
  intros rc2 err2 d2 [= _ _ <-]. reflexivity.
Defined.



(** The text recorded for the error text of [failing_after_sanitize]. *)
Example failed_encode_message :
  last (splitlines (strip "warning: odd header
error: cannot decode
")) = Some "error: cannot decode".
Proof. reflexivity. Qed.

(** X5.  SUCCESS is reported only for an output that exists: if a message
    added by the worker for a task is SUCCESS, it is the last message of the
    task, it carries both sizes, and after the task the output is on disk
    with the size reported. *)
Theorem success_means_output run tmp task rest w input_path w' ups u :
  conversion_queue (self w) = task :: rest →
  files (self w) !! t_idx task = Some input_path →
  t_target_path task ≠ input_path →
  worker_iteration run tmp w = (Ret tt, w') →
  status_queue (self w') = status_queue (self w) ++ ups →
  u ∈ ups →
  u_status u = SUCCESS →
  ∃ size_before size_after,
    u = mkUpdate (t_idx task) SUCCESS None (Some size_before) (Some size_after)
    ∧ last ups = Some u
    ∧ Fs.stat_size (disk w') (t_target_path task) = Ok size_after.
Proof.
  intros Hq Hfile Htarget. revert w' ups u.
  assert (∀ b d d' p q, Fs.unlink b d p = Ok d' → q ≠ p →
            Fs.stat_size d' q = Fs.stat_size d q) as Hstat.
  { intros b d d' p q Hu Hne. unfold Fs.stat_size.
    by rewrite (unlink_lookup_ne _ _ _ _ q Hu). }
  worker_paths Hq; try done;
    intros w' ups u [= <-] Hups Hin Hst; simpl in Hups;
    rewrite <- ?app_assoc in Hups; apply app_inv_head in Hups; subst ups;
    simpl in Hin;
    repeat (apply elem_of_cons in Hin as [->|Hin]); try (by apply elem_of_nil in Hin);
    try discriminate;
    eexists _, _; (split; [reflexivity|]); (split; [reflexivity|]); simpl;
    first [ done | by erewrite Hstat by (done || congruence) ].
Qed.

Lemma success_means_output_witness :
  ∃ size_before size_after,
    mkUpdate 0 SUCCESS None (Some 512000) (Some 307200)
    = mkUpdate 0 SUCCESS None (Some size_before) (Some size_after)
    ∧ last [mkUpdate 0 CONVERTING None None None;
            mkUpdate 0 SUCCESS None (Some 512000) (Some 307200)]
      = Some (mkUpdate 0 SUCCESS None (Some 512000) (Some 307200))
    ∧ Fs.stat_size
        (disk (worker_iteration scenario_encoder ["tmp"]
                 (_start_conversion_session false scenario_world).2).2)
        ["out"; "a.jxl"] = Ok size_after.
Proof.
  apply (success_means_output scenario_encoder ["tmp"] (mkTask 0 ["out"; "a.jxl"] false) []
           (_start_conversion_session false scenario_world).2 ["in"; "a.jpg"]
           (worker_iteration scenario_encoder ["tmp"]
              (_start_conversion_session false scenario_world).2).2
           [mkUpdate 0 CONVERTING None None None;
            mkUpdate 0 SUCCESS None (Some 512000) (Some 307200)]
           (mkUpdate 0 SUCCESS None (Some 512000) (Some 307200)));
    try (vm_compute; reflexivity); try done.
  set_solver.
Defined.

(** ** The indices of the inventory *)

Lemma indexed_ext s s' :
  files s' = files s → dom (statuses s') = dom (statuses s) →
  selected s' = selected s → failed_indices s' = failed_indices s →
  indexed s → indexed s'.
Proof.
  intros Hf Hst Hsel Hfail (H1 & H2 & H3). unfold indexed.
  rewrite Hf, Hsel, Hfail. split; [|done].
  intros i. rewrite <- H1, <- !elem_of_dom. by rewrite Hst.
Qed.

(** A step that changes none of the four attributes. *)
Ltac indexed_other :=
  apply preserves_modify; intros ? ?; by eapply indexed_ext; [..|eassumption].
Ltac indexed_pres := pres_with ltac:(indexed_other).

Lemma indexed_with_record idx f : preserves indexed (with_record idx f).
Proof.
  intros w Hw. unfold with_record, mbind, M_bind, gets, subscript, modify. simpl.
  destruct (statuses (self w) !! idx) as [r|] eqn:Hr; simpl; [|done].
  eapply indexed_ext; [..|exact Hw]; try done.
  simpl. apply dom_insert_lookup_L. by rewrite Hr.
Qed.

Lemma indexed_resolver in_path E : preserves indexed (_get_unique_target_path in_path E).
Proof. unfold _get_unique_target_path. indexed_pres. Qed.

Lemma indexed_build_tasks b idxs : ∀ tasks E, preserves indexed (build_tasks b idxs tasks E).
Proof.
  induction idxs as [|idx rest IH]; intros tasks E; simpl; indexed_pres.
  - apply indexed_resolver.
  - apply indexed_with_record.
  - apply IH.
Qed.

Lemma indexed_enqueue_tasks tasks : preserves indexed (enqueue_tasks tasks).
Proof.
  induction tasks as [|task rest IH]; simpl.
  apply preserves_ret.
  apply preserves_bind; [indexed_other|intros ?].
  apply preserves_bind; [apply indexed_with_record|intros ?].
  apply preserves_bind; [|intros ?; apply IH].
  apply preserves_modify. intros s (H1 & H2 & H3). split; [done|]. split; [done|].
  simpl. intros i [Hi _]%elem_of_difference. by apply H3.
Qed.

Lemma indexed_start b : preserves indexed (_start_conversion_session b).
Proof.
  unfold _start_conversion_session.
  indexed_pres; try apply indexed_build_tasks; apply indexed_enqueue_tasks.
Qed.

Lemma indexed_load_files ev : preserves indexed (load_files ev).
Proof.
  unfold load_files. intros w _. unfold mbind, M_bind, modify, gets, get_disk. simpl.
  destruct (glob ev _ _ _) as [matches|e]; simpl.
  - split; [|split; simpl; set_solver]. simpl. intros i.
    set (found := merge_sort name_le _). clearbody found.
    rewrite <- elem_of_dom, dom_list_to_map_L, fmap_imap.
    unfold compose. simpl. rewrite elem_of_list_to_set.
    rewrite <- lookup_lt_is_Some. split.
    + intros (j & ? & <- & Hj)%elem_of_lookup_imap. by eauto.
    + intros [p Hp]. apply elem_of_lookup_imap. by exists i, p.
  - split; [|split; simpl; set_solver]. simpl. intros i.
    rewrite lookup_empty. split; [by intros [? ?] | lia].
Qed.

Lemma indexed_apply_update update : preserves indexed (apply_update update).
Proof.
  intros w Hw. unfold apply_update.
  unfold mbind at 1, M_bind at 1, gets at 1.
  case_bool_decide as Hknown; [|done].
  set (P := λ s, indexed s ∧ is_Some (statuses s !! u_idx update)).
  assert (∀ idx f, preserves P (with_record idx f)) as Hrec.
  { intros idx f w1 [Hw1 Hk1]. split; [by apply indexed_with_record|].
    unfold with_record, mbind, M_bind, gets, subscript, modify. simpl.
    destruct (statuses (self w1) !! idx) as [r|] eqn:Hr; simpl; [|done].
    destruct (decide (u_idx update = idx)) as [->|Hne].
    - by rewrite lookup_insert_eq.
    - by rewrite lookup_insert_ne. }
  match goal with |- indexed (self (?m w).2) => assert (preserves P m) as H end.
  { pres_with ltac:(idtac); try apply Hrec.
    all: apply preserves_modify; intros s [Hs Hk]; (split; [|done]).
    all: try by (eapply indexed_ext; [..|exact Hs]).
    destruct Hs as (H1 & H2 & H3). split; [done|]. split; [done|]. simpl.
    intros i [->%elem_of_singleton|Hi]%elem_of_union; [by apply H1 | by apply H3]. }
  by apply H.
Qed.

Lemma indexed_drain pending : preserves indexed (drain_status_queue pending).
Proof.
  induction pending as [|update rest IH]; simpl; indexed_pres;
    [apply indexed_apply_update | apply IH].
Qed.

Lemma indexed_prompt : preserves indexed _prompt_for_sanitize.
Proof.
  unfold _prompt_for_sanitize. indexed_pres; try apply indexed_start.
  apply preserves_modify. intros s (H1 & H2 & H3). by split.
Qed.

Lemma indexed_process_status_queue : preserves indexed _process_status_queue.
Proof.
  unfold _process_status_queue. indexed_pres; try apply indexed_drain; apply indexed_prompt.
Qed.

Lemma indexed_set_quality : preserves indexed set_quality.
Proof. unfold set_quality, accepted. indexed_pres. Qed.

Lemma indexed_set_effort : preserves indexed set_effort.
Proof. unfold set_effort, accepted. indexed_pres. Qed.

Lemma indexed_set_output_dir ev : preserves indexed (set_output_dir ev).
Proof. unfold set_output_dir. indexed_pres. Qed.

(** The list of visible files is computed without an error and consists
    of entries of [self.files]. *)
Lemma visible_listed w :
  indexed (self w) → ∃ l, get_visible_files w = (Ret l, w) ∧ listed (self w) l.
Proof.
  intros (_ & _ & H3). unfold get_visible_files, mbind, M_bind, gets. simpl.
  destruct (show_only_failed (self w)).
  - assert (∀ idxs, Forall (λ i, i < length (files (self w)))%nat idxs →
              ∃ l, mapM (λ i, pair i <$> files (self w) !! i) idxs = Some l
                   ∧ listed (self w) l) as Hmap.
    { induction idxs as [|i idxs IH]; intros Hall.
      - exists []. split; [done | constructor].
      - apply Forall_cons in Hall as [Hi Hall].
        destruct (IH Hall) as (l & Hl & Hlisted).
        apply lookup_lt_is_Some in Hi as [p Hp].
        exists ((i, p) :: l). split; [|by constructor].
        cbn. rewrite Hp. cbn. by rewrite Hl. }
    destruct (Hmap (merge_sort (≤)%nat (elements (failed_indices (self w))))) as (l & -> & Hl).
    { apply Forall_forall. intros i Hi. apply H3.
      apply elem_of_elements. by rewrite <- merge_sort_Permutation. }
    by exists l.
  - eexists. split; [done|]. apply Forall_forall.
    intros [i p] (j & q & [= -> ->] & Hj)%elem_of_lookup_imap. done.
Qed.

Lemma indexed_visible : preserves indexed get_visible_files.
Proof. intros w Hw. by destruct (visible_listed w Hw) as (l & -> & _). Qed.

Lemma bind_at P {A B} (m : M A) (f : A → M B) w :
  P (self (m w).2) → (∀ a, preserves P (f a)) → P (self ((m ≫= f) w).2).
Proof.
  intros Hm Hf. unfold mbind, M_bind.
  destruct (m w) as [[a|e|] w1]; simpl in *; [by apply Hf | done | done].
Qed.

Lemma py_index_elem_of {A} (l : list A) i x : py_index l i = Some x → x ∈ l.
Proof.
  unfold py_index. repeat case_match; try done; apply list_elem_of_lookup_2.
Qed.

Lemma indexed_handle_input ev key visible_files w :
  indexed (self w) → listed (self w) visible_files →
  indexed (self (handle_input ev key visible_files w).2).
Proof.
  intros Hw Hvis. unfold handle_input. cbv zeta.
  unfold mbind at 1, M_bind at 1, gets at 1. unfold id. cbv beta iota.
  apply bind_at; [|intros ?; indexed_pres].
  assert (∀ f, files (f (self w)) = files (self w) →
               dom (statuses (f (self w))) = dom (statuses (self w)) →
               selected (f (self w)) = selected (self w) →
               failed_indices (f (self w)) = failed_indices (self w) →
               indexed (self (modify f w).2)) as Hmod.
  { intros f ? ? ? ?. simpl. by eapply indexed_ext; [..|exact Hw]. }
  repeat match goal with
  | |- indexed (self ((if ?c then _ else _) w).2) =>
      destruct c eqn:?;
      [first [ by apply Hmod
             | by apply indexed_start
             | by apply indexed_load_files
             | by apply indexed_set_quality
             | by apply indexed_set_effort
             | by apply indexed_set_output_dir
             | by (apply bind_at; [by apply Hmod | intros ?; apply indexed_load_files])
             | idtac ] | ]
  end; try done.
  - destruct (py_index visible_files (current_row (self w))) as [entry|] eqn:He; [|done].
    apply py_index_elem_of in He.
    assert (entry.1 < length (files (self w)))%nat as Hlt.
    { eapply lookup_lt_Some, (proj1 (Forall_forall _ _) Hvis entry He). }
    destruct Hw as (H1 & H2 & H3). split; [done|]. split; [|done].
    simpl. intros i. unfold toggle. case_bool_decide.
    + intros [Hi _]%elem_of_difference. by apply H2.
    + intros [->%elem_of_singleton|Hi]%elem_of_union; [done | by apply H2].
  - destruct Hw as (H1 & H2 & H3). split; [done|]. split; [|done].
    simpl. intros i ([j p] & -> & Hin)%elem_of_list_to_set%list_elem_of_fmap.
    eapply lookup_lt_Some, (proj1 (Forall_forall _ _) Hvis _ Hin).
  - destruct Hw as (H1 & H2 & H3). split; [done|]. split; [|done].
    simpl. intros i Hi. by apply elem_of_empty in Hi.
  - apply preserves_modify. intros s Hs. case_match; [|done].
    by eapply indexed_ext; [..|exact Hs].
  - apply preserves_modify. intros s Hs. case_match; [|done].
    by eapply indexed_ext; [..|exact Hs].
Qed.

Lemma indexed_process_key ev key : preserves indexed (process_key ev key).
Proof.
  unfold process_key.
  apply preserves_bind; [apply preserves_gets|intros converting].
  destruct (key_in key [27; ord "q"] && negb converting); [apply preserves_ret|].
  apply preserves_bind; [indexed_pres|intros quit].
  destruct quit; [apply preserves_ret|].
  intros w Hw. unfold mbind at 1, M_bind at 1.
  destruct (visible_listed w Hw) as (l & -> & Hl).
  apply bind_at; [by apply indexed_handle_input | intros ?; apply preserves_ret].
Qed.

Lemma indexed_process_keys ev keys : preserves indexed (process_keys ev keys).
Proof.
  induction keys as [|key rest IH]; simpl; indexed_pres;
    try apply indexed_process_key; apply IH.
Qed.

Lemma indexed_run_iteration ev t : preserves indexed (run_iteration ev t).
Proof.
  unfold run_iteration. apply preserves_bind; [|intros ?].
  { intros w Hw. by eapply indexed_ext; [..|exact Hw]. }
  indexed_pres; try apply indexed_process_keys; try apply indexed_process_status_queue;
    try apply indexed_visible.
  all: apply preserves_modify; intros s' Hs'; case_match; [|done].
  all: by eapply indexed_ext; [..|exact Hs'].
Qed.

Lemma indexed_while_true ev ticks : preserves indexed (while_true (run_iteration ev) ticks).
Proof.
  induction ticks as [|t rest IH]; simpl; [by intros w|].
  indexed_pres; [apply indexed_run_iteration | apply IH].
Qed.

(** X6.  The indices in use stay indices of the inventory: after
    [__init__] the keys of [self.statuses] are the positions of
    [self.files], and [run] keeps this and keeps the selected and the
    failed indices among them, whatever the keys typed and whatever the
    worker reports; in such a state [get_visible_files] returns, with
    entries of [self.files] only. *)
Theorem inventory_indices_consistent :
  (∀ ev dir cwd which w, indexed (self (__init__ ev dir cwd which w).2))
  ∧ (∀ ev ticks w, indexed (self w) → indexed (self (run ev ticks w).2))
  ∧ (∀ run tmp w, indexed (self w) → indexed (self (worker_iteration run tmp w).2))
  ∧ (∀ w, indexed (self w) →
       ∃ l, get_visible_files w = (Ret l, w)
            ∧ Forall (λ entry, files (self w) !! entry.1 = Some entry.2) l).
Proof.
  split; [|split; [|split]].
  - intros ev dir cwd which w. unfold __init__, mbind, M_bind, modify.
    apply indexed_load_files. simpl.
    split; [|split]; simpl; intros i; [|by intros ?%elem_of_empty..].
    rewrite lookup_empty. split; [by intros [? ?] | lia].
  - intros ev ticks w Hw. apply preserves_run; [|done]. apply indexed_while_true.
  - intros run tmp. change (preserves indexed (worker_iteration run tmp)).
    unfold worker_iteration, process_task, sanitize_step, encode_step,
      _update_status, command, copystat.
    indexed_pres.
  - apply visible_listed.
Qed.

(** ** Navigation *)

(** X7.  After every key that [handle_input] has handled, the cursor is
    inside the window of rows shown, provided the terminal leaves room for
    at least one row. *)
Theorem scroll_follows_cursor ev key visible_files w w' :
  handle_input ev key visible_files w = (Ret tt, w') →
  0 < max_rows ev →
  scroll_offset (self w') ≤ current_row (self w')
  ∧ current_row (self w') < scroll_offset (self w') + max_rows ev.
Proof.
  unfold handle_input. cbv zeta.
  intros (s & w0 & _ & H)%bind_Ret Hrows.
  apply bind_Ret in H as ([] & w1 & _ & H).
  apply bind_Ret in H as ([] & w2 & ->%modify_Ret & ->%modify_Ret).
  simpl. destruct (current_row (self w1) <? scroll_offset (self w1)) eqn:E1; simpl.
  - destruct (current_row (self w1) + max_rows ev <=? current_row (self w1)) eqn:E2;
      simpl; lia.
  - apply Z.ltb_ge in E1.
    destruct (scroll_offset (self w1) + max_rows ev <=? current_row (self w1)) eqn:E2;
      simpl; [lia|]. apply Z.leb_gt in E2. lia.
Qed.

Lemma scroll_follows_cursor_witness :
  scroll_offset (self (handle_input quiet_env curses.KEY_NPAGE photo_visible photo_world).2)
  ≤ current_row (self (handle_input quiet_env curses.KEY_NPAGE photo_visible photo_world).2)
  ∧ current_row (self (handle_input quiet_env curses.KEY_NPAGE photo_visible photo_world).2)
    < scroll_offset (self (handle_input quiet_env curses.KEY_NPAGE photo_visible
                             photo_world).2)
      + max_rows quiet_env.
Proof.
  apply (scroll_follows_cursor quiet_env curses.KEY_NPAGE photo_visible photo_world).
  - vm_compute. reflexivity.
  - reflexivity.
Defined.




(** On an empty list of visible files the keys [G] and Page Down move
    the cursor to row -1, and the window of rows follows it there. *)
Lemma cursor_leaves_empty_list ev key w :
  key = ord "G" ∨ key = curses.KEY_NPAGE →
  0 < max_rows ev →
  current_row (self w) = 0 →
  scroll_offset (self w) = 0 →
  ∃ w', handle_input ev key [] w = (Ret tt, w')
      ∧ current_row (self w') = -1
      ∧ scroll_offset (self w') = -1
      ∧ files (self w') = files (self w)
      ∧ show_only_failed (self w') = show_only_failed (self w)
      ∧ failed_indices (self w') = failed_indices (self w)
      ∧ statuses (self w') = statuses (self w)
      ∧ status_queue (self w') = status_queue (self w)
      ∧ is_converting (self w') = is_converting (self w).
Proof.
  intros Hkey Hrows Hrow Hscroll.
  assert ((-1 + max_rows ev <=? -1) = false) as Hle by (apply Z.leb_gt; lia).
  assert ((-1) `min` (0 + max_rows ev) = -1) as Hmin by lia.
  destruct Hkey as [-> | ->];
    unfold handle_input, mbind, M_bind, gets, modify, id; simpl;
    change (Z.of_nat 0 - 1) with (-1); rewrite ?Hrow, ?Hmin; simpl;
    rewrite Hscroll; simpl; rewrite Hle; by eexists.
Qed.


(** ** The screen *)

Lemma substring_length s : ∀ n m,
  String.length (String.substring n m s) = (m `min` (String.length s - n))%nat.
Proof.
  induction s as [|c r IH]; intros [|n] [|m];
    cbn [String.substring String.length]; rewrite ?IH; lia.
Qed.

Lemma string_slice_from_length s j :
  Z.of_nat (String.length (string_slice_from s j))
  = if 0 <=? j then Z.max 0 (Z.of_nat (String.length s) - j)
    else Z.min (Z.of_nat (String.length s)) (- j).
Proof.
  unfold string_slice_from. rewrite substring_length.
  destruct (0 <=? j) eqn:E; [apply Z.leb_le in E | apply Z.leb_gt in E]; lia.
Qed.

(** X9.  [_abbreviate_path] keeps its promise for a bound of at least 4:
    the text returned is then at most [max_len] long, and it is the path
    itself when that fits.  For a bound below 4 a path that does not fit
    comes back longer than the bound. *)
Theorem abbreviate_path_length p max_len :
  (Z.of_nat (String.length (Path.str p)) ≤ max_len → _abbreviate_path p max_len = Path.str p)
  ∧ (4 ≤ max_len → Z.of_nat (String.length (_abbreviate_path p max_len)) ≤ max_len)
  ∧ (max_len < 4 → max_len < Z.of_nat (String.length (Path.str p)) →
     max_len < Z.of_nat (String.length (_abbreviate_path p max_len))).
Proof.
  unfold _abbreviate_path. cbv zeta.
  assert (∀ k, Z.of_nat (String.length ("..." +:+ string_slice_from (Path.str p) (- (k - 3))))
               = 3 + (if 0 <=? - (k - 3)
                      then Z.max 0 (Z.of_nat (String.length (Path.str p)) - - (k - 3))
                      else Z.min (Z.of_nat (String.length (Path.str p))) (- - (k - 3))))
    as Hdots.
  { intros k. rewrite string_app_length, Nat2Z.inj_add, string_slice_from_length. done. }
  assert (Z.of_nat (String.length ("/" +:+ "..." +:+ "/" +:+ Path.name p))
          = Z.of_nat (String.length (Path.name p)) + 5) as Hjoin.
  { rewrite !string_app_length. simpl. lia. }
  split; [|split].
  - intros Hfit. by rewrite (proj2 (Z.leb_le _ _) Hfit).
  - intros Hmax.
    destruct (Z.of_nat (String.length (Path.str p)) <=? max_len) eqn:E1;
      [by apply Z.leb_le in E1|]. apply Z.leb_gt in E1.
    assert ((0 <=? - (max_len - 3)) = false) as Hneg by (apply Z.leb_gt; lia).
    destruct (Z.of_nat (1 + length p) <=? 2); [rewrite Hdots, Hneg; lia|].
    destruct (max_len <? _) eqn:E3; [rewrite Hdots, Hneg; lia|].
    apply Z.ltb_ge in E3. rewrite Hjoin. simpl in E3. lia.
  - intros Hmax Hlong.
    rewrite (proj2 (Z.leb_gt _ _) Hlong).
    assert ((0 <=? - (max_len - 3)) = true) as Hpos by (apply Z.leb_le; lia).
    destruct (Z.of_nat (1 + length p) <=? 2); [rewrite Hdots, Hpos; lia|].
    destruct (max_len <? _) eqn:E3; [rewrite Hdots, Hpos; lia|].
    apply Z.ltb_ge in E3. simpl in E3. lia.
Qed.

(** The texts for a long path of three components. *)
Example abbreviate_path_examples :
  _abbreviate_path ["home"; "user"; "pictures"] 20 = "/home/user/pictures"
  ∧ _abbreviate_path ["home"; "user"; "pictures"] 15 = "/.../pictures"
  ∧ _abbreviate_path ["home"; "user"; "pictures"] 10 = "...ictures"
  ∧ _abbreviate_path ["home"; "user"; "pictures"] 3 = ".../home/user/pictures"
  ∧ _abbreviate_path ["home"; "user"; "pictures"] 1 = "...ome/user/pictures".
Proof. repeat split; reflexivity. Qed.

Lemma layout_cols w :
  44 ≤ w →
  let lay := _get_layout w in
  0 ≤ orig_w lay ∧ 0 ≤ preview_w lay
  ∧ status_w lay = 12 ∧ info_w lay = 24
  ∧ 2 + orig_w lay + 3 = preview_x lay
  ∧ preview_x lay + preview_w lay = status_x lay
  ∧ status_x lay + status_w lay + 3 = info_x lay
  ∧ info_x lay + info_w lay = w.
Proof.
  intros Hw. unfold _get_layout. cbv zeta.
  cbn [orig_w preview_x preview_w status_x status_w info_x info_w].
  rewrite (Z.max_l (w - 24) 0) by lia.
  rewrite (Z.max_l (w - 24 - 3 - 12) 0) by lia.
  rewrite (Z.max_l (w - 24 - 3 - 12 - 3 - 2) 0) by lia.
  assert (0 ≤ (w - 24 - 3 - 12 - 3 - 2) * 2 / 5 ≤ w - 24 - 3 - 12 - 3 - 2) as Hdiv.
  { split; [apply Z.div_pos; lia|]. apply Z.div_le_upper_bound; lia. }
  lia.
Qed.

(** From 49 columns on the two columns of names are at least two
    characters wide. *)
Lemma layout_name_cols w :
  49 ≤ w → 2 ≤ orig_w (_get_layout w) ∧ 2 ≤ preview_w (_get_layout w).
Proof.
  intros Hw. unfold _get_layout. cbv zeta. cbn [orig_w preview_w].
  rewrite (Z.max_l (w - 24) 0) by lia.
  rewrite (Z.max_l (w - 24 - 3 - 12) 0) by lia.
  rewrite (Z.max_l (w - 24 - 3 - 12 - 3 - 2) 0) by lia.
  assert (2 ≤ (w - 24 - 3 - 12 - 3 - 2) * 2 / 5) as H1.
  { apply Z.div_le_lower_bound; lia. }
  assert ((w - 24 - 3 - 12 - 3 - 2) * 2 / 5 ≤ w - 24 - 3 - 12 - 3 - 2 - 3) as H2.
  { apply Z.div_le_upper_bound; lia. }
  lia.
Qed.

(** X10.  On a terminal of at least 44 columns the columns of the file
    list tile the line: the name starts in column 2 and is followed by 3
    columns of separation, the column of the target ends where the status
    column begins, the status column is followed by 3 columns of
    separation, and the last column ends at the right edge. *)
Theorem layout_tiles_line w :
  44 ≤ w →
  let lay := _get_layout w in
  0 ≤ orig_w lay ∧ 0 ≤ preview_w lay
  ∧ status_w lay = 12 ∧ info_w lay = 24
  ∧ 2 + orig_w lay + 3 = preview_x lay
  ∧ preview_x lay + preview_w lay = status_x lay
  ∧ status_x lay + status_w lay + 3 = info_x lay
  ∧ info_x lay + info_w lay = w.
Proof. apply layout_cols. Qed.

Lemma layout_tiles_line_witness :
  0 ≤ orig_w (_get_layout 80) ∧ 0 ≤ preview_w (_get_layout 80)
  ∧ status_w (_get_layout 80) = 12 ∧ info_w (_get_layout 80) = 24
  ∧ 2 + orig_w (_get_layout 80) + 3 = preview_x (_get_layout 80)
  ∧ preview_x (_get_layout 80) + preview_w (_get_layout 80) = status_x (_get_layout 80)
  ∧ status_x (_get_layout 80) + status_w (_get_layout 80) + 3 = info_x (_get_layout 80)
  ∧ info_x (_get_layout 80) + info_w (_get_layout 80) = 80.
Proof. apply (layout_tiles_line 80). lia. Defined.

(** ** The file list on screen *)

Lemma codes_length s : length (codes s) = String.length s.
Proof. induction s as [|c r IH]; simpl; [done | by rewrite IH]. Qed.

Lemma slice_to_length {A} (l : list A) k :
  Z.of_nat (length (slice_to l k))
  = if 0 <=? k then Z.min k (Z.of_nat (length l))
    else Z.max 0 (Z.of_nat (length l) + k).
Proof.
  unfold slice_to.
  destruct (0 <=? k) eqn:E; [apply Z.leb_le in E | apply Z.leb_gt in E];
    rewrite length_take; lia.
Qed.

Lemma ljust_length s width :
  Z.of_nat (length (ljust s width)) = Z.max width (Z.of_nat (length s)).
Proof. unfold ljust. rewrite length_app, length_replicate. lia. Qed.

Lemma blanks_length n : Z.of_nat (length (blanks n)) = Z.max 0 n.
Proof. unfold blanks. rewrite length_replicate. lia. Qed.

(** A cell of a column of at least two characters fills the column
    exactly. *)
Lemma cell_fills_column s width :
  2 ≤ width → Z.of_nat (length (ljust (clip s width) width)) = width.
Proof.
  intros Hw. rewrite ljust_length. unfold clip.
  destruct (width - 1 <? Z.of_nat (length s)) eqn:E;
    [apply Z.ltb_lt in E | apply Z.ltb_ge in E]; [|lia].
  rewrite length_app, Nat2Z.inj_add, slice_to_length.
  rewrite (proj2 (Z.leb_le 0 (width - 2))) by lia. simpl. lia.
Qed.

Lemma py_index_Some {A} (l : list A) i :
  0 ≤ i < Z.of_nat (length l) → ∃ x, py_index l i = Some x ∧ x ∈ l.
Proof.
  intros Hi. unfold py_index. rewrite (proj2 (Z.leb_le 0 i)) by lia.
  destruct (lookup_lt_is_Some_2 l (Z.to_nat i)) as [x Hx]; [lia|].
  exists x. split; [done|]. by eapply list_elem_of_lookup_2.
Qed.

Lemma attempt_Forall ok (P : call → Prop) calls : Forall P calls → Forall P (attempt ok calls).
Proof.
  induction 1 as [|c rest Hc Hrest IH]; simpl; [done|].
  destruct (ok c); by repeat constructor.
Qed.

Lemma status_text_length s original_idx :
  let status_text := from_option (λ r, status_name (r_status r)) "ERROR"
                       (statuses s !! original_idx) in
  (String.length
     (if bool_decide (original_idx ∈ selected s) && bool_decide (status_text = "PENDING")
      then "SELECTED" else status_text) ≤ 12)%nat.
Proof.
  cbv zeta. destruct (_ && _); [simpl; lia|].
  destruct (statuses s !! original_idx) as [[[] ? ? ? ? ?]|]; simpl; lia.
Qed.

Lemma draw_row_on_line ok s w y highlighted original_idx file_path :
  49 ≤ w →
  Path.name file_path ≠ "" →
  ∃ cells, draw_row ok (_get_layout w) s w y highlighted original_idx file_path = Ok cells
         ∧ Forall (on_line w y) cells.
Proof.
  intros Hw Hname.
  destruct (layout_cols w) as (Ho & Hp & Hs & Hi & Hpx & Hsx & Hix & Hend); [lia|].
  destruct (layout_name_cols w Hw) as [Ho2 Hp2].
  pose proof (status_text_length s original_idx) as Hst. cbv zeta in Hst.
  unfold draw_row, with_suffix. cbv zeta.
  rewrite (bool_decide_eq_false_2 (Path.name file_path = "")) by done.
  cbn [mbind result_bind].
  set (c1 := mkCall y 0 _ _). set (c2 := mkCall y 2 _ _).
  set (c3 := mkCall y (preview_x _) _ _). set (c4 := mkCall y (status_x _) _ _).
  set (c5 := mkCall y (info_x _) _ _).
  assert (on_line w y c1) as H1.
  { unfold on_line, c1. cbn [c_y c_x c_text]. rewrite blanks_length. lia. }
  assert (on_line w y c2) as H2.
  { unfold on_line, c2. cbn [c_y c_x c_text]. rewrite cell_fills_column by done. lia. }
  assert (on_line w y c3) as H3.
  { unfold on_line, c3. cbn [c_y c_x c_text]. rewrite cell_fills_column by done. lia. }
  assert (on_line w y c4) as H4.
  { unfold on_line, c4. cbn [c_y c_x c_text]. rewrite ljust_length, codes_length. lia. }
  assert (on_line w y c5) as H5.
  { unfold on_line, c5. cbn [c_y c_x c_text]. rewrite cell_fills_column by lia. lia. }
  assert (∀ cells, Forall (on_line w y) cells →
            ∃ cells', @Ok (list call) cells = Ok cells' ∧ Forall (on_line w y) cells') as Hfin
    by (intros cells ?; by exists cells).
  destruct (ok c1); simpl; [|apply Hfin; repeat (apply Forall_cons_2; [assumption|]); apply Forall_nil_2].
  destruct (ok c2); simpl; [|apply Hfin; repeat (apply Forall_cons_2; [assumption|]); apply Forall_nil_2].
  destruct (ok c3); simpl; [|apply Hfin; repeat (apply Forall_cons_2; [assumption|]); apply Forall_nil_2].
  destruct (ok c4); simpl; apply Hfin; repeat (apply Forall_cons_2; [assumption|]); apply Forall_nil_2.
Qed.

Lemma draw_rows_on_lines ok s w visible_files :
  49 ≤ w →
  0 ≤ scroll_offset s →
  Forall (λ entry, Path.name entry.2 ≠ "") visible_files →
  ∀ fuel i, 0 ≤ i →
    ∃ calls, draw_rows ok (_get_layout w) s w visible_files i fuel = Ok calls
           ∧ Forall (λ c, ∃ y, 2 + i ≤ y < 2 + i + Z.of_nat fuel ∧ on_line w y c) calls.
Proof.
  intros Hw Hscroll Hnames. induction fuel as [|fuel IH]; intros i Hi.
  - exists []. by split.
  - cbn [draw_rows]. cbv zeta.
    destruct (Z.of_nat (length visible_files) <=? i + scroll_offset s) eqn:E;
      [exists []; by split|]. apply Z.leb_gt in E.
    destruct (py_index_Some visible_files (i + scroll_offset s)) as ([idx p] & -> & Hin);
      [lia|].
    destruct (draw_row_on_line ok s w (2 + i)
                (bool_decide (i + scroll_offset s = current_row s)) idx p Hw)
      as (cells & -> & Hcells).
    { apply (proj1 (Forall_forall _ _) Hnames _ Hin). }
    destruct (IH (i + 1)) as (rest & -> & Hrest); [lia|].
    cbn [mbind result_bind]. eexists. split; [done|].
    apply Forall_app. split.
    + eapply Forall_impl; [exact Hcells|]. intros c Hc. exists (2 + i). split; [lia|done].
    + eapply Forall_impl; [exact Hrest|]. intros c (y & Hy & Hc). exists y. split; [lia|done].
Qed.

(** X11.  With a window of rows that starts at a row that is not
    negative, on a terminal of at least 49 columns, [draw_file_list]
    raises nothing and everything it writes lies within the columns of
    the terminal, on the header line of the list or on one of the
    [h - 5] lines below it: never on the title line, the status bar or
    the footer. *)
Theorem draw_file_list_in_window ok s h w visible_files :
  49 ≤ w →
  0 ≤ scroll_offset s →
  Forall (λ entry, Path.name entry.2 ≠ "") visible_files →
  ∃ calls,
    draw_file_list ok s h w visible_files = Ok calls
    ∧ Forall (λ c, ∃ y, (y = 1 ∨ 2 ≤ y ≤ h - 4) ∧ on_line w y c) calls.
Proof.
  intros Hw Hscroll Hnames. unfold draw_file_list. cbv zeta.
  destruct (draw_rows_on_lines ok s w visible_files Hw Hscroll Hnames
              (Z.to_nat (h - 5)) 0) as (rows & -> & Hrows); [lia|].
  cbn [mbind result_bind]. eexists. split; [done|].
  destruct (layout_cols w) as (Ho & Hp & Hs & Hi & Hpx & Hsx & Hix & Hend); [lia|].
  apply Forall_app. split.
  - apply attempt_Forall.
    repeat apply Forall_cons_2; try apply Forall_nil_2;
      (exists 1; split; [by left|]); unfold on_line; cbn [c_y c_x c_text];
      rewrite ?blanks_length, ?codes_length; simpl String.length; lia.
  - eapply Forall_impl; [exact Hrows|]. intros c (y & Hy & Hc). exists y.
    split; [right; lia | done].
Qed.

Lemma draw_file_list_in_window_witness :
  ∃ calls,
    draw_file_list (λ _, true) (self photo_world) 24 80 photo_visible = Ok calls
    ∧ Forall (λ c, ∃ y, (y = 1 ∨ 2 ≤ y ≤ 24 - 4) ∧ on_line 80 y c) calls.
Proof.
  apply (draw_file_list_in_window (λ _, true) (self photo_world) 24 80 photo_visible).
  - lia.
  - reflexivity.
  - by repeat constructor.
Defined.

Lemma draw_rows_raises ok lay s w visible_files fuel :
  Z.of_nat (length visible_files) + scroll_offset s < 0 →
  draw_rows ok lay s w visible_files 0 (S fuel) = Raise IndexError.
Proof.
  intros Hneg. cbn [draw_rows]. cbv zeta.
  rewrite (proj2 (Z.leb_gt _ _)) by lia.
  unfold py_index. rewrite (proj2 (Z.leb_gt 0 _)) by lia.
  by rewrite (proj2 (Z.leb_gt 0 _)) by lia.
Qed.

(** What is written for the two files of [photo_world] on a terminal of
    24 lines and 80 columns: line, column and length of each text. *)
Example draw_file_list_rows :
  match draw_file_list (λ _, true) (self photo_world) 24 80 photo_visible with
  | Ok calls => map (λ c, (c_y c, c_x c, length (c_text c))) calls
  | Raise _ => []
  end
  = [(1, 0, 79%nat); (1, 2, 8%nat); (1, 19, 23%nat); (1, 41, 6%nat); (1, 56, 14%nat);
     (2, 0, 79%nat); (2, 2, 14%nat); (2, 19, 22%nat); (2, 41, 12%nat); (2, 56, 24%nat);
     (3, 0, 79%nat); (3, 2, 14%nat); (3, 19, 22%nat); (3, 41, 12%nat); (3, 56, 24%nat)].
Proof. vm_compute. reflexivity. Qed.

(** X12.  With no file to show, the keys [G] and Page Down end in an
    [IndexError]: the iteration of the main loop that handles the key
    leaves the cursor and the window of rows at row -1, and
    [draw_file_list], called next with the empty list, indexes it at
    -1. *)
Theorem end_key_on_empty_list ev t w key rest ok cols :
  key = ord "G" ∨ key = curses.KEY_NPAGE →
  tty w = key :: -1 :: rest →
  arrived t = [] →
  files (self w) = [] →
  show_only_failed (self w) = false →
  is_converting (self w) = false →
  status_queue (self w) = [] →
  current_row (self w) = 0 →
  scroll_offset (self w) = 0 →
  0 < max_rows ev →
  ∃ w', run_iteration ev t w = (Ret Next, w')
      ∧ current_row (self w') = -1
      ∧ scroll_offset (self w') = -1
      ∧ get_visible_files w' = (Ret [], w')
      ∧ draw_file_list ok (self w') (max_rows ev + 5) cols [] = Raise IndexError.
Proof.
  intros Hkey Htty Harr Hfiles Hfilter Hconv Hsq Hrow Hscroll Hrows.
  set (w0 := set_tty rest (apply_tick t w).2).
  assert (key ≠ -1 ∧ key ∈ nav_keys ∧ key_in key [27; ord "q"] = false) as (Hk1 & Hk2 & Hk3).
  { destruct Hkey as [-> | ->]; (split; [done|]); split; try done;
      unfold nav_keys; set_solver. }
  destruct (cursor_leaves_empty_list ev key w0 Hkey Hrows)
    as (w1 & Hinput & Hrow1 & Hscroll1 & Hf1 & Hfl1 & Hfail1 & Hst1 & Hsq1 & Hc1);
    [done..|].
  assert (files (self w1) = []) as Hfiles1 by (by rewrite Hf1).
  assert (show_only_failed (self w1) = false) as Hfilter1 by (by rewrite Hfl1).
  assert (∀ w2, files (self w2) = [] → show_only_failed (self w2) = false →
                get_visible_files w2 = (Ret [], w2)) as Hvis.
  { intros w2 Hf2 Hs2. unfold get_visible_files, mbind, M_bind, gets. simpl.
    by rewrite Hs2, Hf2. }
  exists w1. split; [|split; [done|split; [done|split; [by apply Hvis|]]]].
  - unfold run_iteration.
    erewrite bind_Ret_intro by reflexivity.
    assert (read_keys (apply_tick t w).2 = (Ret [key], w0)) as Hread.
    { unfold read_keys. simpl. rewrite Htty. simpl.
      rewrite (proj2 (Z.eqb_neq key (-1)) Hk1). simpl. by destruct rest. }
    erewrite bind_Ret_intro by exact Hread. cbv zeta.
    assert (filter (λ key0 : Z, key0 ∉ nav_keys) [key] = []) as ->.
    { rewrite filter_cons. by destruct (decide (key ∉ nav_keys)). }
    assert (filter (λ key0 : Z, key0 ∈ nav_keys) [key] = [key]) as ->.
    { rewrite filter_cons. by destruct (decide (key ∈ nav_keys)). }
    cbn [last]. change (option_list (Some key)) with [key]. cbn [process_keys].
    erewrite bind_Ret_intro by reflexivity. cbv beta iota.
    assert (process_key ev key w0 = (Ret Next, w1)) as Hpk.
    { unfold process_key. erewrite bind_Ret_intro by reflexivity.
      rewrite Hk3. cbn [andb]. erewrite bind_Ret_intro by reflexivity. cbv beta iota.
      erewrite bind_Ret_intro by (by apply Hvis).
      by erewrite bind_Ret_intro by exact Hinput. }
    erewrite bind_Ret_intro; cycle 1.
    { erewrite bind_Ret_intro by exact Hpk. reflexivity. }
    cbv beta iota.
    assert (_process_status_queue w1 = (Ret tt, w1)) as Hpsq.
    { unfold _process_status_queue. erewrite bind_Ret_intro by reflexivity.
      rewrite Hsq1. subst w0. simpl. rewrite Hsq, Harr. simpl.
      erewrite bind_Ret_intro by reflexivity. erewrite bind_Ret_intro by reflexivity.
      unfold id. rewrite Hc1. simpl. rewrite Hconv. simpl.
      erewrite bind_Ret_intro by reflexivity. by erewrite bind_Ret_intro by reflexivity. }
    erewrite bind_Ret_intro by exact Hpsq.
    erewrite bind_Ret_intro by (by apply Hvis).
    unfold mbind, M_bind, modify, mret, M_ret. simpl. rewrite Hrow1. simpl.
    by destruct w1.
  - unfold draw_file_list. cbv zeta.
    destruct (Z.to_nat (max_rows ev + 5 - 5)) as [|fuel] eqn:Hfuel; [lia|].
    rewrite draw_rows_raises; [done|]. simpl. lia.
Qed.

Lemma end_key_on_empty_list_witness :
  ∃ w', run_iteration quiet_env (mkTick 0 [] photo_disk 2000)
          (set_tty [ord "G"; -1] empty_world) = (Ret Next, w')
      ∧ current_row (self w') = -1
      ∧ scroll_offset (self w') = -1
      ∧ get_visible_files w' = (Ret [], w')
      ∧ draw_file_list (λ _, true) (self w') (max_rows quiet_env + 5) 80 [] = Raise IndexError.
Proof.
  apply (end_key_on_empty_list quiet_env (mkTick 0 [] photo_disk 2000)
           (set_tty [ord "G"; -1] empty_world) (ord "G") [] (λ _, true) 80);
    [by left | reflexivity..].
Defined.

(** ** The footer *)

Lemma pretty_length_small z :
  1 ≤ z ≤ 100 → (1 ≤ String.length (pretty z) ≤ 3)%nat.
Proof.
  intros Hz.
  assert (∃ n : nat, z = Z.of_nat n ∧ (n ≤ 100)%nat) as (n & -> & Hn)
    by (exists (Z.to_nat z); lia).
  do 101 (destruct n as [|n]; [vm_compute; lia|]). lia.
Qed.

Lemma pretty_length_digit z : 1 ≤ z ≤ 9 → String.length (pretty z) = 1%nat.
Proof.
  intros Hz.
  assert (∃ n : nat, z = Z.of_nat n ∧ (n ≤ 9)%nat) as (n & -> & Hn)
    by (exists (Z.to_nat z); lia).
  do 10 (destruct n as [|n]; [vm_compute; (done || lia)|]). lia.
Qed.

Lemma key_text_length key text :
  Z.of_nat (String.length ("(" +:+ key +:+ ") " +:+ text))
  = Z.of_nat (String.length key) + Z.of_nat (String.length text) + 3.
Proof. rewrite !string_app_length. simpl. lia. Qed.

Lemma key_label_length key :
  Z.of_nat (String.length ("(" +:+ key +:+ ")")) = Z.of_nat (String.length key) + 2.
Proof. rewrite !string_app_length. simpl. lia. Qed.

Lemma draw_toggles_fit ok w y toggles : ∀ x,
  Forall (λ c, c_y c = y ∧ x ≤ c_x c ∧ c_x c + Z.of_nat (length (c_text c)) ≤ w - 3)
    (draw_toggles ok w y x toggles).
Proof.
  induction toggles as [|[[key text] is_active] rest IH]; intros x;
    cbn [draw_toggles]; [done|].
  destruct (w <? _) eqn:E; [done|]. apply Z.ltb_ge in E.
  unfold _draw_key_helper. cbv beta iota zeta.
  apply Forall_app. split.
  - apply attempt_Forall. repeat apply Forall_cons_2; try apply Forall_nil_2;
      cbn [c_y c_x c_text]; rewrite codes_length, ?key_label_length; lia.
  - eapply Forall_impl; [apply IH|]. intros c (? & Hx & ?).
    rewrite key_text_length in Hx. lia.
Qed.

Lemma attempt_elem_of ok c calls : c ∈ attempt ok calls → c ∈ calls.
Proof.
  induction calls as [|c' rest IH]; simpl; [done|].
  destruct (ok c').
  - intros [->|Hc]%elem_of_cons; apply elem_of_cons; [by left | right; by apply IH].
  - intros ->%list_elem_of_singleton. apply elem_of_cons. by left.
Qed.

Lemma attempt_head ok c calls : c ∈ attempt ok (c :: calls).
Proof. simpl. destruct (ok c); apply elem_of_cons; by left. Qed.

Lemma toggles_width_nonneg toggles : 0 ≤ toggles_width toggles.
Proof.
  induction toggles as [|t rest IH]; simpl; [done|]. unfold toggle_width. lia.
Qed.

Lemma toggles_width_app pre post :
  toggles_width (pre ++ post) = toggles_width pre + toggles_width post.
Proof. induction pre as [|t pre IH]; simpl; [done|]. rewrite IH. lia. Qed.

(** A toggle is drawn exactly when it and all the toggles before it fit
    side by side. *)
Lemma draw_toggles_drawn ok w y toggles : ∀ x c,
  c ∈ draw_toggles ok w y x toggles →
  ∃ pre key text is_active post,
    toggles = pre ++ (key, text, is_active) :: post
    ∧ (c_text c = codes ("(" +:+ key +:+ ")") ∨ c_text c = codes text)
    ∧ x + toggles_width (pre ++ [(key, text, is_active)]) ≤ w.
Proof.
  induction toggles as [|[[key text] is_active] rest IH]; intros x c;
    cbn [draw_toggles]; [by intros ?%elem_of_nil|].
  destruct (w <? _) eqn:E; [by intros ?%elem_of_nil|]. apply Z.ltb_ge in E.
  unfold _draw_key_helper. cbv beta iota zeta.
  intros [Hc|Hc]%elem_of_app.
  - apply attempt_elem_of in Hc. exists [], key, text, is_active, rest.
    split; [done|]. split.
    + apply elem_of_cons in Hc as [->|Hc]; [by left|].
      apply list_elem_of_singleton in Hc as ->. by right.
    + simpl. unfold toggle_width. simpl. lia.
  - apply IH in Hc as (pre & k & t & a & post & -> & Htext & Hfit).
    exists ((key, text, is_active) :: pre), k, t, a, post.
    split; [done|]. split; [done|].
    rewrite key_text_length in Hfit. simpl. unfold toggle_width at 1. simpl. lia.
Qed.

Lemma draw_toggles_shows ok w y pre key text is_active post : ∀ x,
  x + toggles_width (pre ++ [(key, text, is_active)]) ≤ w →
  codes ("(" +:+ key +:+ ")")
  ∈ map c_text (draw_toggles ok w y x (pre ++ (key, text, is_active) :: post)).
Proof.
  induction pre as [|[[k t] a] pre IH]; intros x Hfit; simpl in Hfit;
    cbn [app draw_toggles].
  - unfold toggle_width in Hfit. simpl in Hfit.
    rewrite (proj2 (Z.ltb_ge _ _)) by lia.
    unfold _draw_key_helper. cbv beta iota zeta. rewrite map_app.
    apply elem_of_app. left. apply list_elem_of_fmap.
    eexists. split; [|apply attempt_head]. done.
  - pose proof (toggles_width_nonneg (pre ++ [(key, text, is_active)])).
    unfold toggle_width in Hfit at 1. simpl in Hfit.
    rewrite (proj2 (Z.ltb_ge _ _)) by lia.
    unfold _draw_key_helper. cbv beta iota zeta. rewrite map_app.
    apply elem_of_app. right. apply IH. rewrite key_text_length. lia.
Qed.

(** X13.  The toggles of the footer never reach the last three columns of
    the line.  With the settings within their ranges, a terminal of at
    least 80 columns shows the six toggles that are always there, and a
    terminal of less than 94 columns never shows the toggle of the filter
    of failed files. *)
Theorem footer_toggles_shown ok w y s debug_enabled :
  in_range s →
  let calls := draw_toggles ok w y 2 (footer_toggles s debug_enabled) in
  Forall (λ c, c_y c = y ∧ 2 ≤ c_x c ∧ c_x c + Z.of_nat (length (c_text c)) ≤ w - 3) calls
  ∧ (80 ≤ w →
     Forall (λ key, codes ("(" +:+ key +:+ ")") ∈ map c_text calls)
       ["Q"; "E"; "R"; "D"; "O"; "B"])
  ∧ (w < 94 → codes "(F)" ∉ map c_text calls).
Proof.
  intros [Hq He] calls. subst calls.
  pose proof (pretty_length_small (quality s) Hq) as Hlq.
  pose proof (pretty_length_digit (effort s) He) as Hle.
  split; [apply draw_toggles_fit|]. split.
  - intros Hw. unfold footer_toggles.
    set (tail := if bool_decide (failed_indices s = ∅) then [] else _).
    set (tQ := ("Q", "Qual:" +:+ pretty (quality s), false)).
    set (tE := ("E", "Eff:" +:+ pretty (effort s), false)).
    set (tR := ("R", "Recur", recursive s)).
    set (tD := ("D", "DelOrig", delete_originals s)).
    set (tO := ("O", "Out Dir", bool_decide (output_dir s ≠ None))).
    set (tB := ("B", "Bug Log", debug_enabled)).
    repeat apply Forall_cons_2; try apply Forall_nil_2.
    + apply (draw_toggles_shows ok w y [] _ _ _ (tE :: tR :: tD :: tO :: tB :: tail)).
      unfold toggles_width, toggle_width. simpl. rewrite string_app_length. simpl. lia.
    + apply (draw_toggles_shows ok w y [tQ] _ _ _ (tR :: tD :: tO :: tB :: tail)).
      unfold toggles_width, toggle_width. simpl. rewrite !string_app_length. simpl. lia.
    + apply (draw_toggles_shows ok w y [tQ; tE] _ _ _ (tD :: tO :: tB :: tail)).
      unfold toggles_width, toggle_width. simpl. rewrite !string_app_length. simpl. lia.
    + apply (draw_toggles_shows ok w y [tQ; tE; tR] _ _ _ (tO :: tB :: tail)).
      unfold toggles_width, toggle_width. simpl. rewrite !string_app_length. simpl. lia.
    + apply (draw_toggles_shows ok w y [tQ; tE; tR; tD] _ _ _ (tB :: tail)).
      unfold toggles_width, toggle_width. simpl. rewrite !string_app_length. simpl. lia.
    + apply (draw_toggles_shows ok w y [tQ; tE; tR; tD; tO] _ _ _ tail).
      unfold toggles_width, toggle_width. simpl. rewrite !string_app_length. simpl. lia.
  - intros Hw (c & Htext & Hc)%list_elem_of_fmap.
    apply draw_toggles_drawn in Hc as (pre & key & text & a & post & Heq & Hlabel & Hfit).
    rewrite <- Htext in Hlabel. clear Htext.
    unfold footer_toggles in Heq.
    destruct (bool_decide (failed_indices s = ∅));
      repeat (destruct pre as [|? pre]; simplify_eq/=);
      try (destruct Hlabel as [Hl|Hl]; discriminate Hl).
    unfold toggle_width in Hfit. simpl in Hfit.
    rewrite !string_app_length in Hfit. simpl in Hfit. lia.
Qed.

Lemma footer_toggles_shown_witness :
  Forall (λ c, c_y c = 22 ∧ 2 ≤ c_x c ∧ c_x c + Z.of_nat (length (c_text c)) ≤ 80 - 3)
    (draw_toggles (λ _, true) 80 22 2 (footer_toggles (self photo_world) false))
  ∧ (80 ≤ 80 →
     Forall (λ key, codes ("(" +:+ key +:+ ")")
                    ∈ map c_text (draw_toggles (λ _, true) 80 22 2
                                    (footer_toggles (self photo_world) false)))
       ["Q"; "E"; "R"; "D"; "O"; "B"])
  ∧ (80 < 94 →
     codes "(F)" ∉ map c_text (draw_toggles (λ _, true) 80 22 2
                                 (footer_toggles (self photo_world) false))).
Proof.
  apply (footer_toggles_shown (λ _, true) 80 22 (self photo_world) false).
  unfold in_range. simpl. lia.
Defined.

(** ** The aggregator *)

Lemma apply_update_Ret update w w' :
  apply_update update w = (Ret tt, w') →
  if bool_decide (is_Some (statuses (self w) !! u_idx update)) then
    ∃ st', w' = set_self (with_statuses st' (tally update (self w))) w
         ∧ dom st' = dom (statuses (self w))
         ∧ ∀ idx r, statuses (self w) !! idx = Some r →
             ∃ r', st' !! idx = Some r'
                 ∧ r_status r' = if bool_decide (u_idx update = idx) then u_status update
                                 else r_status r
  else w' = w.
Proof.
  unfold apply_update. intros (st & w0 & [-> ->]%gets_Ret & H)%bind_Ret.
  case_bool_decide as Hknown; [|unfold mret, M_ret in H; by injection H as <-].
  apply bind_Ret in H as ([] & w1 & (r0 & Hr0 & ->)%with_record_Ret & H).
  apply bind_Ret in H as (info_text & w2 & Hinfo & H).
  apply with_record_Ret in H as (r2 & Hr2 & ->).
  assert (∃ s2, w2 = set_self s2 w
                ∧ statuses s2 = <[u_idx update := merge_update update r0]> (statuses (self w))
                ∧ with_statuses (statuses (self w)) s2 = tally update (self w))
    as (s2 & -> & Hst2 & Htally).
  { unfold tally. destruct (u_status update) eqn:Hst; simpl in Hinfo;
      try (unfold mret, M_ret in Hinfo; injection Hinfo as _ <-; eexists; split; [done|];
           split; [done|]; by destruct (self w)).
    apply bind_Ret in Hinfo as ([] & w3 & ->%modify_Ret & Hinfo).
    destruct (negb _ && negb _).
    - apply bind_Ret in Hinfo as ([] & w4 & ->%modify_Ret & Hinfo).
      destruct (savings_text _ _); simpl in Hinfo; [|done].
      unfold mret, M_ret in Hinfo. injection Hinfo as _ <-.
      eexists; split; [done|]; split; [done|]; by destruct (self w).
    - unfold mret, M_ret in Hinfo. injection Hinfo as _ <-.
      eexists; split; [done|]; split; [done|]; by destruct (self w). }
  simpl in Hr2. rewrite Hst2, lookup_insert_eq in Hr2. injection Hr2 as <-.
  exists (<[u_idx update := set_r_info_str info_text (merge_update update r0)]>
            (<[u_idx update := merge_update update r0]> (statuses (self w)))).
  split; [|split].
  - simpl. rewrite Hst2, <- Htally. by destruct s2.
  - rewrite dom_insert_lookup_L by (by rewrite lookup_insert_eq).
    apply dom_insert_lookup_L. by rewrite Hr0.
  - intros idx r Hr. case_bool_decide as Hi.
    + subst idx. rewrite lookup_insert_eq. by eexists.
    + rewrite !lookup_insert_ne by done. by exists r.
Qed.

Lemma drain_Ret pending : ∀ w w',
  drain_status_queue pending w = (Ret tt, w') →
  let known := dom (statuses (self w)) in
  status_queue (self w') = match pending with [] => status_queue (self w) | _ => [] end
  ∧ conversions_success (self w')
    = conversions_success (self w) + Z.of_nat (length (with_status SUCCESS known pending))
  ∧ conversions_failed (self w')
    = conversions_failed (self w) + Z.of_nat (length (with_status FAILED known pending))
  ∧ failed_indices (self w')
    = failed_indices (self w) ∪ list_to_set (map u_idx (with_status FAILED known pending))
  ∧ dom (statuses (self w')) = known
  ∧ ∀ idx r, statuses (self w) !! idx = Some r →
      ∃ r', statuses (self w') !! idx = Some r'
          ∧ r_status r' = latest_status idx (r_status r) pending.
Proof.
  induction pending as [|update rest IH]; intros w w' H known; simpl in H.
  - unfold mret, M_ret in H. injection H as <-. unfold with_status. simpl.
    repeat split; try done; try lia; [set_solver|]. intros idx r Hr. by exists r.
  - apply bind_Ret in H as ([] & w1 & ->%modify_Ret & H).
    apply bind_Ret in H as ([] & w2 & Hupd%apply_update_Ret & H).
    apply IH in H as (Hq & Hs & Hf & Hfi & Hdom & Hrec). clear IH.
    simpl in Hupd. unfold with_status in *. rewrite !filter_cons. fold known in Hupd.
    assert (status_queue (self w') = []) as Hq'.
    { rewrite Hq. destruct rest; [|done].
      case_bool_decide; [destruct Hupd as (st' & -> & _)|subst w2]; simpl; [|done].
      unfold tally. by repeat case_match. }
    split; [done|]. clear Hq Hq'.
    case_bool_decide as Hknown.
    + destruct Hupd as (st' & -> & Hdom' & Hrec'). simpl in *.
      rewrite Hdom' in *. fold known in Hs, Hf, Hfi, Hdom |- *.
      apply elem_of_dom in Hknown.
      assert (∀ st, Decision (u_status update = st ∧ u_idx update ∈ known)) as Hdec by apply _.
      split; [|split; [|split; [|split; [done|]]]].
      * rewrite Hs. unfold tally.
        destruct (u_status update) eqn:Hst;
          repeat (case_decide as Hd; [try (by destruct Hd)|try (by destruct Hd; split)]);
          simpl; try lia; repeat case_match; simpl; lia.
      * rewrite Hf. unfold tally.
        destruct (u_status update) eqn:Hst;
          repeat (case_decide as Hd; [try (by destruct Hd)|try (by destruct Hd; split)]);
          simpl; try lia; repeat case_match; simpl; lia.
      * rewrite Hfi. unfold tally.
        destruct (u_status update) eqn:Hst;
          repeat (case_decide as Hd; [try (by destruct Hd)|try (by destruct Hd; split)]);
          simpl; repeat case_match; simpl; set_solver.
      * intros idx r Hr. destruct (Hrec' idx r Hr) as (r1 & Hr1 & Hst1).
        destruct (Hrec idx r1 Hr1) as (r' & Hr' & Hst').
        exists r'. split; [done|]. by rewrite Hst', Hst1.
    + subst w2. simpl in *. fold known in Hs, Hf, Hfi, Hdom |- *.
      assert (u_idx update ∉ known) as Hnot.
      { intros Hin. apply Hknown. by apply elem_of_dom. }
      repeat (case_decide as Hd; [by destruct Hd|]; clear Hd).
      split; [done|]. split; [done|]. split; [done|]. split; [done|].
      intros idx r Hr. destruct (Hrec idx r Hr) as (r' & Hr' & Hst').
      exists r'. split; [done|]. rewrite Hst'.
      rewrite bool_decide_eq_false_2; [done|]. intros <-. apply Hknown. by rewrite Hr.
Qed.

(** X14.  The bookkeeping of the aggregator.  Draining the status queue
    empties it; a message whose index is no key of [self.statuses] is
    dropped; of the others each SUCCESS is counted once as a success, each
    FAILED once as a failure and its index joins [failed_indices]; no key
    of [self.statuses] is added or removed, and every record ends with the
    status of the last message for its index. *)
Theorem aggregator_bookkeeping w w' :
  drain_status_queue (status_queue (self w)) w = (Ret tt, w') →
  let pending := status_queue (self w) in
  let known := dom (statuses (self w)) in
  status_queue (self w') = []
  ∧ conversions_success (self w')
    = conversions_success (self w) + Z.of_nat (length (with_status SUCCESS known pending))
  ∧ conversions_failed (self w')
    = conversions_failed (self w) + Z.of_nat (length (with_status FAILED known pending))
  ∧ failed_indices (self w')
    = failed_indices (self w) ∪ list_to_set (map u_idx (with_status FAILED known pending))
  ∧ dom (statuses (self w')) = known
  ∧ ∀ idx r, statuses (self w) !! idx = Some r →
      ∃ r', statuses (self w') !! idx = Some r'
          ∧ r_status r' = latest_status idx (r_status r) pending.
Proof.
  intros H pending known.
  destruct (drain_Ret _ _ _ H) as (Hq & Hrest). split; [|exact Hrest].
  rewrite Hq. by destruct (status_queue (self w)).
Qed.

Lemma aggregator_bookkeeping_witness :
  let w := (stale_messages : world) in
  let w' := (drain_status_queue (status_queue (self w)) w).2 in
  status_queue (self w') = []
  ∧ conversions_success (self w')
    = conversions_success (self w)
      + Z.of_nat (length (with_status SUCCESS (dom (statuses (self w)))
                            (status_queue (self w))))
  ∧ conversions_failed (self w')
    = conversions_failed (self w)
      + Z.of_nat (length (with_status FAILED (dom (statuses (self w)))
                            (status_queue (self w))))
  ∧ failed_indices (self w')
    = failed_indices (self w)
      ∪ list_to_set (map u_idx (with_status FAILED (dom (statuses (self w)))
                                  (status_queue (self w))))
  ∧ dom (statuses (self w')) = dom (statuses (self w))
  ∧ ∀ idx r, statuses (self w) !! idx = Some r →
      ∃ r', statuses (self w') !! idx = Some r'
          ∧ r_status r' = latest_status idx (r_status r) (status_queue (self w)).
Proof.
  apply (aggregator_bookkeeping stale_messages). vm_compute. reflexivity.
Defined.

(** The counts for [stale_messages]: one success, one failure, the message
    for the unknown index 7 dropped. *)
Example aggregator_counts :
  let w' := (drain_status_queue (status_queue (self stale_messages)) stale_messages).2 in
  conversions_success (self w') = 1
  ∧ conversions_failed (self w') = 1
  ∧ failed_indices (self w') = {[ 1%nat ]}
  ∧ r_status <$> statuses (self w') !! 0%nat = Some SUCCESS
  ∧ r_info_str <$> statuses (self w') !! 1%nat = Some "bad header".
Proof. vm_compute. repeat split; reflexivity. Qed.

(** ** Keys *)

Lemma pending_keys_app keys rest :
  -1 ∉ keys → pending_keys (keys ++ -1 :: rest) = (keys, rest).
Proof.
  induction keys as [|key keys IH]; intros Hnot; simpl; [done|].
  apply not_elem_of_cons in Hnot as [Hne Hnot].
  rewrite (proj2 (Z.eqb_neq key (-1))) by done. by rewrite IH.
Qed.

(** X15.  The keys typed between two iterations of the main loop are not
    handled in the order typed: the keys that do not navigate are handled
    first, in their order, and of the navigation keys only the last one is
    handled, after them.  Two bursts of keys with the same keys that do not
    navigate and the same last navigation key have the same effect. *)
Theorem keys_of_a_tick_coalesce ev t w keys keys' rest :
  -1 ∉ keys → -1 ∉ keys' →
  filter (λ key, key ∉ nav_keys) keys = filter (λ key, key ∉ nav_keys) keys' →
  last (filter (λ key, key ∈ nav_keys) keys) = last (filter (λ key, key ∈ nav_keys) keys') →
  run_iteration ev t (set_tty (keys ++ -1 :: rest) w)
  = run_iteration ev t (set_tty (keys' ++ -1 :: rest) w).
Proof.
  intros Hk Hk' Hother Hnav.
  assert (∀ keys, -1 ∉ keys →
            run_iteration ev t (set_tty (keys ++ -1 :: rest) w)
            = (let non_nav_keys := filter (λ key, key ∉ nav_keys) keys in
               let last_nav_key := last (filter (λ key, key ∈ nav_keys) keys) in
               f ← process_keys ev non_nav_keys;
               match f with
               | Next =>
                   f ← process_keys ev (option_list last_nav_key);
                   match f with
                   | Next =>
                       _process_status_queue;;
                       visible_files ← get_visible_files;
                       modify (λ s, if Z.of_nat (length visible_files) <=? current_row s
                                    then with_current_row
                                           (Z.max 0 (Z.of_nat (length visible_files) - 1)) s
                                    else s);;
                       mret Next
                   | _ => mret f
                   end
               | _ => mret f
               end) (set_tty rest (apply_tick t w).2)) as Hrun.
  { intros ks Hks. unfold run_iteration.
    erewrite bind_Ret_intro by reflexivity.
    erewrite bind_Ret_intro; [reflexivity|].
    unfold read_keys. simpl. by rewrite pending_keys_app. }
  rewrite !Hrun by done. cbv zeta. by rewrite Hother, Hnav.
Qed.

Lemma keys_of_a_tick_coalesce_witness :
  run_iteration quiet_env (mkTick 0 [] photo_disk 2000)
    (set_tty ([ord "j"; ord " "; ord "j"] ++ -1 :: []) photo_world)
  = run_iteration quiet_env (mkTick 0 [] photo_disk 2000)
      (set_tty ([ord " "; ord "j"] ++ -1 :: []) photo_world).
Proof.
  apply (keys_of_a_tick_coalesce quiet_env (mkTick 0 [] photo_disk 2000) photo_world
           [ord "j"; ord " "; ord "j"] [ord " "; ord "j"] []);
    first [ vm_compute; reflexivity
          | intros H; repeat (apply elem_of_cons in H as [H|H]; [vm_compute in H; discriminate H|]);
            by apply elem_of_nil in H ].
Defined.

(** ** Dialogs *)

(** X16.  [ConfirmationDialog.run] ignores every key that is not an
    answer: it returns at the first of [y], [Y], [n], [N] and ESC, with
    [True] for [y] and [Y] only, leaving the keys after it unread; and it
    keeps waiting as long as no answer is typed. *)
Theorem confirmation_waits_for_answer :
  (∀ ignored answer rest,
     Forall (λ key, key ∉ [121; 89; 110; 78; 27]) ignored →
     answer ∈ [121; 89; 110; 78; 27] →
     ConfirmationDialog_loop (ignored ++ answer :: rest)
     = (Ret (bool_decide (answer ∈ [121; 89])), rest))
  ∧ (∀ ignored,
       Forall (λ key, key ∉ [121; 89; 110; 78; 27]) ignored →
       ConfirmationDialog_loop ignored = (Wait, [])).
Proof.
  assert (∀ key, key ∉ [121; 89; 110; 78; 27] →
            key_in key [121; 89] = false ∧ key_in key [110; 78; 27] = false) as Hno.
  { intros key Hkey. unfold key_in.
    split; apply bool_decide_eq_false_2; intros Hin; apply Hkey;
      repeat (apply elem_of_cons in Hin as [->|Hin];
              [solve [repeat (apply elem_of_cons; first [by left | right])]|]);
      by apply elem_of_nil in Hin. }
  split.
  - intros ignored answer rest Hign Hans.
    induction Hign as [|key ignored Hkey _ IH]; simpl.
    + unfold key_in.
      repeat (apply elem_of_cons in Hans as [->|Hans]; [done|]).
      by apply elem_of_nil in Hans.
    + destruct (Hno key Hkey) as [-> ->]. exact IH.
  - intros ignored Hign. induction Hign as [|key ignored Hkey _ IH]; simpl; [done|].
    destruct (Hno key Hkey) as [-> ->]. exact IH.
Qed.

Lemma confirmation_waits_for_answer_witness :
  ConfirmationDialog_loop ([10; 32; 113] ++ 89 :: [110])
  = (Ret (bool_decide (89 ∈ [121; 89])), [110])
  ∧ ConfirmationDialog_loop [10; 32; 113] = (Wait, []).
Proof.
  split.
  - apply (proj1 confirmation_waits_for_answer [10; 32; 113] 89 [110]);
      [|solve [repeat (apply elem_of_cons; first [by left | right])]].
    repeat apply Forall_cons_2; try apply Forall_nil_2;
      intros H; repeat (apply elem_of_cons in H as [H|H]; [discriminate H|]);
      by apply elem_of_nil in H.
  - apply (proj2 confirmation_waits_for_answer [10; 32; 113]).
    repeat apply Forall_cons_2; try apply Forall_nil_2;
      intros H; repeat (apply elem_of_cons in H as [H|H]; [discriminate H|]);
      by apply elem_of_nil in H.
Defined.

Lemma drop_last_snoc text c : drop_last (text +:+ String c "") = text.
Proof.
  induction text as [|c' text IH]; [done|].
  change (String c' text +:+ String c "") with (String c' (text +:+ String c "")).
  cbn [drop_last]. rewrite IH. by destruct text.
Qed.

Lemma printable_key key :
  32 ≤ key ≤ 126 →
  bool_decide (key = curses.KEY_RESIZE) = false
  ∧ key_in key [10; curses.KEY_ENTER] = false
  ∧ bool_decide (key = 27) = false
  ∧ key_in key [curses.KEY_BACKSPACE; 127] = false
  ∧ bool_decide (32 ≤ key ≤ 126) = true.
Proof.
  intros Hkey. unfold key_in, curses.KEY_RESIZE, curses.KEY_ENTER, curses.KEY_BACKSPACE.
  repeat split; try (apply bool_decide_eq_false_2); try (by apply bool_decide_eq_true_2);
    try lia;
    intros Hin; repeat (apply elem_of_cons in Hin as [->|Hin]; [lia|]);
    by apply elem_of_nil in Hin.
Qed.

(** X17.  In [InputDialog.run] the printable keys are appended to the
    text and Enter returns it, leaving the following keys unread; a
    Backspace after a printable key undoes it, and a Backspace on an empty
    text does nothing. *)
Theorem input_dialog_edits :
  (∀ text typed rest,
     Forall (λ key, 32 ≤ key ≤ 126) typed →
     InputDialog_loop text (typed ++ 10 :: rest)
     = (Ret (Some (foldl (λ text key, text +:+ chr key) text typed)), rest))
  ∧ (∀ text key keys,
       32 ≤ key ≤ 126 →
       InputDialog_loop text (key :: curses.KEY_BACKSPACE :: keys)
       = InputDialog_loop text keys)
  ∧ (∀ keys, InputDialog_loop "" (curses.KEY_BACKSPACE :: keys) = InputDialog_loop "" keys).
Proof.
  split; [|split].
  - intros text typed rest Htyped. revert text.
    induction Htyped as [|key typed Hkey _ IH]; intros text; simpl; [done|].
    destruct (printable_key key Hkey) as (-> & -> & -> & -> & ->). apply IH.
  - intros text key keys Hkey. cbn [InputDialog_loop].
    destruct (printable_key key Hkey) as (-> & -> & -> & -> & ->).
    change (InputDialog_loop (drop_last (text +:+ chr key)) keys = InputDialog_loop text keys).
    unfold chr. by rewrite drop_last_snoc.
  - intros keys. reflexivity.
Qed.

Lemma input_dialog_edits_witness :
  InputDialog_loop "9" ([55; 53] ++ 10 :: [113])
  = (Ret (Some (foldl (λ text key, text +:+ chr key) "9" [55; 53])), [113])
  ∧ InputDialog_loop "9" (55 :: curses.KEY_BACKSPACE :: [10]) = InputDialog_loop "9" [10].
Proof.
  split.
  - apply (proj1 input_dialog_edits "9" [55; 53] [113]). repeat constructor; lia.
  - apply (proj1 (proj2 input_dialog_edits) "9" 55 [10]). lia.
Defined.

(** Typing 75 after the 9 of the dialog gives 975. *)
Example input_dialog_text :
  InputDialog_loop "9" [55; 53; 10; 113] = (Ret (Some "975"), [113]).
Proof. reflexivity. Qed.

(** ** The number and the unit shown by [_format_bytes] *)

Lemma round_half_even_scale n d c :
  0 < d → 0 < c → round_half_even (n * c) (d * c) = round_half_even n d.
Proof.
  intros Hd Hc. unfold round_half_even.
  rewrite Z.div_mul_cancel_r by lia. rewrite Z.mul_mod_distr_r by lia.
  pose proof (Z.mod_pos_bound n d Hd) as Hr.
  set (r := n mod d) in *.
  destruct (2 * r <? d) eqn:E1.
  - apply Z.ltb_lt in E1. assert ((2 * (r * c) <? d * c) = true) as ->; [|done].
    apply Z.ltb_lt. nia.
  - apply Z.ltb_ge in E1. assert ((2 * (r * c) <? d * c) = false) as ->.
    { apply Z.ltb_ge. nia. }
    destruct (d <? 2 * r) eqn:E2.
    + apply Z.ltb_lt in E2. assert ((d * c <? 2 * (r * c)) = true) as ->; [|done].
      apply Z.ltb_lt. nia.
    + apply Z.ltb_ge in E2. assert ((d * c <? 2 * (r * c)) = false) as ->; [|done].
      apply Z.ltb_ge. nia.
Qed.

(** The text of a float that holds [z / 2 ^ j] exactly. *)
Lemma format_1f_exact z j :
  0 < z < 2 ^ 53 → 0 ≤ j →
  format_1f (Flt (mkFloat (z * 2 ^ (52 - Z.log2 z)) (Z.log2 z - 52 - j)))
  = let r := round_half_even (z * 10) (2 ^ j) in
    pretty (r / 10) +:+ "." +:+ pretty (r mod 10).
Proof.
  intros Hz Hj.
  assert (Z.log2 z < 53) as Hl by (apply Z.log2_lt_pow2; lia).
  pose proof (Z.log2_nonneg z) as Hl0.
  set (s := 52 - Z.log2 z) in *.
  assert (0 < 2 ^ s) as Hs by (apply Z.pow_pos_nonneg; lia).
  assert (0 < 2 ^ j) as Hpj by (apply Z.pow_pos_nonneg; lia).
  unfold format_1f, to_float. cbn [fm fe].
  assert ((z * 2 ^ s <? 0) = false) as -> by (apply Z.ltb_ge; nia).
  rewrite Z.abs_eq by nia.
  destruct (0 <=? Z.log2 z - 52 - j) eqn:E.
  - apply Z.leb_le in E. assert (s = 0) as Hs0 by lia. assert (j = 0) by lia.
    subst j. rewrite Hs0. replace (Z.log2 z - 52 - 0) with 0 by lia.
    change (2 ^ 0) with 1. rewrite !Z.mul_1_r.
    cbv zeta. unfold round_half_even. rewrite Z.div_1_r, Z.mod_1_r. done.
  - replace (- (Z.log2 z - 52 - j)) with (j + s) by lia.
    rewrite Z.pow_add_r by lia.
    replace (z * 2 ^ s * 10) with (z * 10 * 2 ^ s) by lia.
    rewrite round_half_even_scale by lia. done.
Qed.

Lemma format_1f_int z :
  0 < z < 2 ^ 53 →
  format_1f (Int z) = pretty z +:+ "." +:+ pretty 0.
Proof.
  intros Hz. change (format_1f (Int z)) with (format_1f (Flt (round53 z (2 ^ 0)))).
  destruct (round53_pow2 z 0) as (m & e & -> & _ & _ & Hexact); [lia..|].
  destruct Hexact as [-> ->]; [lia|].
  replace (Z.log2 z - 0 - 52) with (Z.log2 z - 52 - 0) by lia.
  rewrite format_1f_exact by lia. cbv zeta. change (2 ^ 0) with 1.
  unfold round_half_even. rewrite Z.div_1_r, Z.mod_1_r.
  change (2 * 0 <? 1) with true. cbv iota.
  rewrite Z.div_mul by lia. rewrite Z.mod_mul by lia. done.
Qed.

(** From a normalised float the loop divides exactly [k] times, [k]
    being the number of divisions after which the float is below 1024. *)
Lemma loop_exact k : ∀ (fuel n : nat) m e,
  2 ^ 52 ≤ m < 2 ^ 53 → (n + fuel = 5)%nat → (k < fuel)%nat →
  -42 ≤ e - 10 * (Z.of_nat k - 1) →
  e - 10 * Z.of_nat k < -42 →
  format_bytes_loop fuel (Flt (mkFloat m e)) n
  = (Flt (mkFloat m (e - 10 * Z.of_nat k)), (n + k)%nat).
Proof.
  induction k as [|k IH]; intros fuel n m e Hm Hn Hk Hlo Hhi.
  - destruct fuel as [|fuel]; [lia|].
    rewrite format_bytes_loop_S, num_ge_1024 by done.
    rewrite bool_decide_eq_false_2 by lia. cbn [andb].
    f_equal; [f_equal; f_equal; lia | lia].
  - destruct fuel as [|fuel]; [lia|].
    rewrite format_bytes_loop_S, num_ge_1024, size_power_labels by done.
    rewrite bool_decide_eq_true_2 by lia. rewrite bool_decide_eq_true_2 by lia.
    cbn [andb]. rewrite num_div_1024 by done.
    rewrite (IH fuel (S n) m (e - 10)); [|done|lia..].
    f_equal; [f_equal; f_equal; lia | lia].
Qed.

(** X18.  For a size [z] with [1024^k <= z < 1024^(k+1)], [k] at most 4,
    [_format_bytes] shows the unit of index [k] and, before it,
    [z / 1024^k] rounded to one decimal (ties to even): the divisions of
    the loop lose nothing. *)
Theorem format_bytes_value (k : nat) (z : Z) (label : string) :
  power_labels !! k = Some label →
  1024 ^ Z.of_nat k ≤ z < 1024 ^ (Z.of_nat k + 1) →
  _format_bytes (Int z)
  = Ok (let r := round_half_even (z * 10) (1024 ^ Z.of_nat k) in
        (pretty (r / 10) +:+ "." +:+ pretty (r mod 10)) +:+ label +:+ "B").
Proof.
  intros Hlabel [Hlo Hhi].
  assert (k ≤ 4)%nat as Hk.
  { apply (elem_of_dom_2 (D := gset nat)) in Hlabel. unfold power_labels in Hlabel.
    rewrite !dom_insert_L, dom_singleton_L in Hlabel. set_unfold. lia. }
  assert (0 < 1024 ^ Z.of_nat k) as Hp by (apply Z.pow_pos_nonneg; lia).
  assert (1024 ^ (Z.of_nat k + 1) ≤ 1024 ^ 5) as H5
    by (apply Z.pow_le_mono_r; lia).
  assert (0 < z < 2 ^ 53) as Hz by lia.
  unfold _format_bytes.
  assert (num_le (Int z) (Int 0) = false) as ->.
  { unfold num_le, num_compare. assert (z > 0) as -> by lia. done. }
  rewrite size_power_labels.
  destruct k as [|k].
  - change (1024 ^ (Z.of_nat 0 + 1)) with 1024 in Hhi. change (Z.of_nat 0) with 0 in *.
    rewrite format_bytes_loop_S.
    assert (num_ge (Int z) (Int 1024) = false) as ->.
    { unfold num_ge, num_compare. assert (z < 1024) as -> by lia. done. }
    cbn [andb]. rewrite Hlabel. rewrite format_1f_int by done.
    cbv zeta. change (1024 ^ 0) with 1.
    unfold round_half_even. rewrite Z.div_1_r, Z.mod_1_r.
    change (2 * 0 <? 1) with true. cbv iota.
    rewrite Z.div_mul by lia. rewrite Z.mod_mul by lia. done.
  - assert (1024 ≤ 1024 ^ Z.of_nat (S k)) as H1
      by (apply (Z.pow_le_mono_r 1024 1); lia).
    rewrite format_bytes_loop_S, size_power_labels.
    assert (num_ge (Int z) (Int 1024) = true) as ->.
    { unfold num_ge, num_compare. destruct (z ?= 1024) eqn:E; try done.
      rewrite Z.compare_lt_iff in E. lia. }
    rewrite bool_decide_eq_true_2 by lia. cbn [andb]. rewrite num_div_int.
    destruct (round53_pow2 z 10) as (m & e & -> & Hm & _ & Hexact); [lia..|].
    destruct Hexact as [-> ->]; [lia|].
    assert (1024 ^ Z.of_nat (S k) = 2 ^ (10 * Z.of_nat (S k))) as Hpow.
    { change 1024 with (2 ^ 10). rewrite <- Z.pow_mul_r by lia. done. }
    assert (1024 ^ (Z.of_nat (S k) + 1) = 2 ^ (10 * Z.of_nat (S k) + 10)) as Hpow'.
    { change 1024 with (2 ^ 10). rewrite <- Z.pow_mul_r by lia. f_equal. lia. }
    assert (10 * Z.of_nat (S k) ≤ Z.log2 z) as Hl1
      by (apply Z.log2_le_pow2; lia).
    assert (Z.log2 z < 10 * Z.of_nat (S k) + 10) as Hl2
      by (apply Z.log2_lt_pow2; lia).
    rewrite (loop_exact k 4 1 _ _ Hm); [|lia..].
    change (1 + k)%nat with (S k). rewrite Hlabel.
    replace (Z.log2 z - 10 - 52 - 10 * Z.of_nat k)
      with (Z.log2 z - 52 - 10 * Z.of_nat (S k)) by lia.
    rewrite format_1f_exact by lia. rewrite Hpow. done.
Qed.

Lemma format_bytes_value_witness :
  power_labels !! 2%nat = Some "M"
  ∧ 1024 ^ Z.of_nat 2 ≤ 1572864 < 1024 ^ (Z.of_nat 2 + 1)
  ∧ _format_bytes (Int 1572864) = Ok "1.5MB".
Proof.
  split; [reflexivity|]. split; [lia|].
  apply (format_bytes_value 2 1572864 "M"); [reflexivity | lia].
Defined.

(** ** The inventory after a (re)load *)

Lemma pending_records_lookup {A} (r : StatusRecord) (l : list A) : ∀ (k j : nat),
  (list_to_map (imap (λ i _, ((k + i)%nat, r)) l) : gmap nat StatusRecord) !! j
  = if bool_decide (k ≤ j < k + length l)%nat then Some r else None.
Proof.
  induction l as [|x l IH]; intros k j.
  - simpl. rewrite lookup_empty. by rewrite bool_decide_eq_false_2 by lia.
  - rewrite imap_cons. cbn [list_to_map foldr fst snd length].
    destruct (decide (j = k)) as [->|Hne].
    + replace (k + 0)%nat with k by lia. rewrite lookup_insert_eq.
      by rewrite bool_decide_eq_true_2 by lia.
    + replace (k + 0)%nat with k by lia. rewrite lookup_insert_ne by done.
      rewrite (imap_ext _ (λ i _, ((S k + i)%nat, r))); [|intros; simpl; f_equal; lia].
      rewrite IH. repeat case_bool_decide; done || lia.
Qed.

Lemma name_le_total : Total name_le.
Proof. intros p q. unfold name_le. apply total, _. Qed.

(** X19.  [load_files] never raises and leaves the disk alone.  When the
    glob succeeds the inventory holds the matches that are regular files
    with an image suffix (compared in lower case), each as often as the
    glob gave it, sorted by lower-case name; when the glob raises, the
    inventory is empty.  Every listed file, and nothing else, has a record,
    which is PENDING with empty texts; selection, failed indices and the
    cursor are reset.  The task queue and the activity flag are not reset:
    a reload during a batch leaves the queued tasks, with their indices, in
    the queue. *)
Theorem load_files_inventory ev w :
  let w' := (load_files ev w).2 in
  let s := self w in
  let s' := self w' in
  (load_files ev w).1 = Ret tt
  ∧ disk w' = disk w
  ∧ match glob ev (initial_dir s) (recursive s) (disk w) with
    | Ok matches =>
        files s' ≡ₚ filter (λ f, Fs.is_file (disk w) f ∧ lower (Path.suffix f) ∈ image_exts)
                      matches
    | Raise _ => files s' = []
    end
  ∧ Sorted name_le (files s')
  ∧ (∀ i, statuses s' !! i = (λ _, pending_record) <$> files s' !! i)
  ∧ selected s' = ∅ ∧ failed_indices s' = ∅
  ∧ current_row s' = 0 ∧ scroll_offset s' = 0
  ∧ conversion_queue s' = conversion_queue s
  ∧ is_converting s' = is_converting s.
Proof.
  unfold load_files. unfold mbind, M_bind, modify, gets, get_disk. simpl.
  destruct (glob ev _ _ _) as [matches|e]; simpl.
  - split; [done|]. split; [done|]. split; [apply merge_sort_Permutation|].
    split.
    { apply (@Sorted_merge_sort _ name_le _ name_le_total). }
    split; [|done].
    intros i. set (found := merge_sort name_le _). clearbody found.
    pose proof (pending_records_lookup pending_record found 0 i) as Hl.
    simpl in Hl. rewrite Hl. clear Hl.
    destruct (found !! i) as [p|] eqn:Hp; simpl.
    + apply lookup_lt_Some in Hp. by rewrite bool_decide_eq_true_2 by lia.
    + apply lookup_ge_None in Hp. by rewrite bool_decide_eq_false_2 by lia.
  - split; [done|]. split; [done|]. split; [done|]. split; [constructor|].
    split; [|done]. intros i. by rewrite lookup_empty.
Qed.

(** ** What can make a batch start fail *)








